(** * File Analyzer Pro: a shallow embedding of [file_analyzer_pro.py]

    The development follows the program's pipeline: the string primitives
    of the Python runtime the program calls ([str.count], [str.split],
    [str.splitlines], [str.strip], [str.join], [str(int)], true division,
    float formatting), then [analyze_file], [formatted_output] and [main],
    the first version of the program in [main.py], and finally the
    properties of each. *)

From Stdlib Require Import ZArith NArith List Bool Ascii String Lia Permutation.
Import ListNotations.

Local Open Scope Z_scope.

(** ** Python strings

    A Python [str] is a sequence of Unicode code points; [len] counts
    code points. *)

Module PyStr.

Definition char := N.
Definition pystr := list char.

(** ASCII literals of the source, as code points. *)
Definition lit (s : string) : pystr :=
  map N_of_ascii (list_ascii_of_string s).

Definition len (s : pystr) : Z := Z.of_nat (List.length s).

Definition NL : char := 10%N.
Definition CR : char := 13%N.

(** [str.isspace] on one code point, as [str.split()] and [str.strip()]
    use it: the characters of bidirectional class WS, B or S, or of
    category Zs. *)
Definition isspace (c : char) : bool :=
  ((9 <=? c) && (c <=? 13) || (28 <=? c) && (c <=? 32)
   || (c =? 133) || (c =? 160) || (c =? 5760)
   || (8192 <=? c) && (c <=? 8202)
   || (c =? 8232) || (c =? 8233) || (c =? 8239) || (c =? 8287)
   || (c =? 12288))%N.

(** The line boundaries of [str.splitlines]. *)
Definition is_linebreak (c : char) : bool :=
  ((10 <=? c) && (c <=? 13) || (28 <=? c) && (c <=? 30)
   || (c =? 133) || (c =? 8232) || (c =? 8233))%N.

(** [s.count(c)] for a one-character needle. *)
Fixpoint count (c : char) (s : pystr) : Z :=
  match s with
  | [] => 0
  | d :: s' => (if (d =? c)%N then 1 else 0) + count c s'
  end.

(** Close the token (or line) being scanned, if there is one. *)
Definition flush (w : pystr) (rest : list pystr) : list pystr :=
  match w with
  | [] => rest
  | _ :: _ => w :: rest
  end.

(** [s.split()]: a left-to-right scan; [w] is the token read so far. *)
Fixpoint split_from (w : pystr) (s : pystr) : list pystr :=
  match s with
  | [] => flush w []
  | c :: s' =>
      if isspace c then flush w (split_from [] s')
      else split_from (w ++ [c]) s'
  end.

Definition split (s : pystr) : list pystr := split_from [] s.

(** [s.splitlines()]: [cur] is the line read so far; a line is closed at
    each boundary (CR LF counting as one), and a last line without a
    terminator is kept when it is not empty. *)
Fixpoint splitlines_from (cur : pystr) (s : pystr) : list pystr :=
  match s with
  | [] => flush cur []
  | c :: s' =>
      if is_linebreak c then
        cur :: match s' with
               | d :: s'' =>
                   if ((c =? CR) && (d =? NL))%N then splitlines_from [] s''
                   else splitlines_from [] s'
               | [] => []
               end
      else splitlines_from (cur ++ [c]) s'
  end.

Definition splitlines (s : pystr) : list pystr := splitlines_from [] s.

Fixpoint lstrip (s : pystr) : pystr :=
  match s with
  | c :: s' => if isspace c then lstrip s' else s
  | [] => []
  end.

Definition rstrip (s : pystr) : pystr := rev (lstrip (rev s)).

(** [s.strip()] *)
Definition strip (s : pystr) : pystr := rstrip (lstrip s).

(** Truth value of a string: [not s] holds of the empty string only. *)
Definition truthy (s : pystr) : bool :=
  match s with [] => false | _ :: _ => true end.

(** [sep.join(parts)] *)
Fixpoint join (sep : pystr) (parts : list pystr) : pystr :=
  match parts with
  | [] => []
  | [p] => p
  | p :: ps => p ++ sep ++ join sep ps
  end.

(** [s.endswith(suffix)] *)
Fixpoint startswith (s prefix : pystr) : bool :=
  match prefix, s with
  | [], _ => true
  | p :: prefix', c :: s' => (c =? p)%N && startswith s' prefix'
  | _ :: _, [] => false
  end.

Definition endswith (s suffix : pystr) : bool :=
  startswith (rev s) (rev suffix).

Definition eqb (a b : pystr) : bool :=
  if list_eq_dec N.eq_dec a b then true else false.

(** Decimal digits: the digit values of a non-negative integer, most
    significant first. *)
Fixpoint digits_fuel (fuel : nat) (n : Z) (acc : list Z) : list Z :=
  match fuel with
  | O => n :: acc
  | S fuel' =>
      if n <? 10 then n :: acc
      else digits_fuel fuel' (n / 10) (n mod 10 :: acc)
  end.

Definition digits_of_Z (n : Z) : list Z :=
  digits_fuel (Z.to_nat (Z.log2 n)) n [].

Definition value_of_digits (ds : list Z) : Z :=
  fold_left (fun a d => 10 * a + d) ds 0.

Definition digit_char (d : Z) : char := Z.to_N (48 + d).

Definition str_of_digits (ds : list Z) : pystr := map digit_char ds.

(** [str(n)] for an [int]. *)
Definition str_of_Z (n : Z) : pystr :=
  if n <? 0 then lit "-" ++ str_of_digits (digits_of_Z (- n))
  else str_of_digits (digits_of_Z n).

(** ASCII case mapping, enough for the keys the program capitalizes. *)
Definition upper (c : char) : char :=
  if ((97 <=? c) && (c <=? 122))%N then (c - 32)%N else c.

Definition lower (c : char) : char :=
  if ((65 <=? c) && (c <=? 90))%N then (c + 32)%N else c.

(** [s.capitalize()]: first character upper-cased, the rest lower-cased. *)
Definition capitalize (s : pystr) : pystr :=
  match s with
  | [] => []
  | c :: s' => upper c :: map lower s'
  end.

End PyStr.

Import PyStr.

(** ** Exceptions

    The exceptions the modelled code can raise outside a [try]: those of
    the arithmetic, and that of [print] when the standard output cannot
    encode a character. *)

Inductive exn :=
  | ZeroDivisionError
  | OverflowError
  | UnicodeEncodeError.

Inductive result (A : Type) :=
  | Ok (a : A)
  | Raise (e : exn).
Arguments Ok {A} a.
Arguments Raise {A} e.

Definition bind {A B} (r : result A) (k : A -> result B) : result B :=
  match r with
  | Ok a => k a
  | Raise e => Raise e
  end.

Notation "x <- r ;; k" := (bind r (fun x => k))
  (at level 61, r at next level, right associativity).

(** ** Python floats

    A [float] is a binary64 number.  The program obtains its floats by
    true division of two [int]s, which either raises or gives a finite
    number, so only finite values are represented:
    [(-1)^f_neg * f_mant * 2^f_exp]. *)

Module PyFloat.

Record float := mkFloat { f_neg : bool; f_mant : Z; f_exp : Z }.

Definition emin : Z := -1074.
Definition emax : Z := 971.

(** The binary64 numbers: 53 bits of mantissa, normalised unless the
    exponent is the least one. *)
Definition canonical (x : float) : bool :=
  (0 <=? f_mant x) && (f_mant x <? 2 ^ 53)
  && (emin <=? f_exp x) && (f_exp x <=? emax)
  && ((2 ^ 52 <=? f_mant x) || (f_exp x =? emin)).

Definition zero : float := mkFloat false 0 emin.

Definition is_zero (x : float) : bool := f_mant x =? 0.

Definition float_eqb (x y : float) : bool :=
  Bool.eqb (f_neg x) (f_neg y) && (f_mant x =? f_mant y) && (f_exp x =? f_exp y).

(** The integer nearest to [p / q], ties to even ([0 <= p], [0 < q]). *)
Definition rne (p q : Z) : Z :=
  let d := p / q in
  match 2 * (p mod q) ?= q with
  | Lt => d
  | Gt => d + 1
  | Eq => if Z.even d then d else d + 1
  end.

(** [p / (q * 2^e)] as a fraction of integers. *)
Definition scale (p q e : Z) : Z * Z :=
  if 0 <=? e then (p, q * 2 ^ e) else (p * 2 ^ (- e), q).

(** [floor (log2 (p / q))] for positive [p] and [q]. *)
Definition binade (p q : Z) : Z :=
  let k := Z.log2 p - Z.log2 q in
  let '(n, d) := scale p q k in
  if n <? d then k - 1 else k.

(** The binary64 number nearest to [p / q] (ties to even) with sign
    [neg], for [0 <= p] and [0 < q]; [None] when it is out of range. *)
Definition round_ratio (neg : bool) (p q : Z) : option float :=
  if p =? 0 then Some (mkFloat neg 0 emin)
  else
    let e := Z.max (binade p q - 52) emin in
    let '(n, d) := scale p q e in
    let m := rne n d in
    let '(m, e) := if m =? 2 ^ 53 then (2 ^ 52, e + 1) else (m, e) in
    if emax <? e then None else Some (mkFloat neg m e).

(** [a / b] on two [int]s: the correctly rounded quotient. *)
Definition truediv (a b : Z) : result float :=
  if b =? 0 then Raise ZeroDivisionError
  else
    match round_ratio (xorb (a <? 0) (b <? 0)) (Z.abs a) (Z.abs b) with
    | Some x => Ok x
    | None => Raise OverflowError
    end.

(** [float(n)] *)
Definition of_int (n : Z) : result float :=
  match round_ratio (n <? 0) (Z.abs n) 1 with
  | Some x => Ok x
  | None => Raise OverflowError
  end.

(** Left-pad a digit string with zeros to [width] characters. *)
Definition zfill (width : nat) (s : pystr) : pystr :=
  repeat (digit_char 0) (width - List.length s) ++ s.

(** [format(x, '.<prec>f')]: [|x|] rounded to [prec] decimals (ties on
    the exact binary value go to even), the sign kept even when the
    digits are all zero. *)
Definition format_f (prec : nat) (x : float) : pystr :=
  let '(n, d) := scale (f_mant x * 10 ^ Z.of_nat prec) 1 (- f_exp x) in
  let r := rne n d in
  let whole := r / 10 ^ Z.of_nat prec in
  let frac := r mod 10 ^ Z.of_nat prec in
  (if f_neg x then lit "-" else [])
  ++ str_of_Z whole
  ++ match prec with
     | O => []
     | S _ => lit "." ++ zfill prec (str_of_Z frac)
     end.

(** *** Decimal literals

    A decimal literal as [float.__repr__] writes it and as [float(s)] and
    the JSON decoder read it: sign, integer digits, optional fraction
    digits, optional exponent. *)

Record literal := mkLiteral {
  l_neg : bool;
  l_int : list Z;
  l_frac : option (list Z);
  l_exp : option Z
}.

Definition frac_digits (l : literal) : list Z :=
  match l_frac l with Some f => f | None => [] end.

Definition exp_value (l : literal) : Z :=
  match l_exp l with Some e => e | None => 0 end.

(** The number nearest to [d * 10^ex] ([0 <= d]); [None] is an overflow. *)
Definition float_of_decimal (neg : bool) (d ex : Z) : option float :=
  if 0 <=? ex then round_ratio neg (d * 10 ^ ex) 1
  else round_ratio neg d (10 ^ (- ex)).

(** [float(s)] for the literal [s]: correctly rounded. *)
Definition float_of_literal (l : literal) : option float :=
  float_of_decimal (l_neg l)
    (value_of_digits (l_int l ++ frac_digits l))
    (exp_value l - Z.of_nat (List.length (frac_digits l))).

Definition print_literal (l : literal) : pystr :=
  (if l_neg l then lit "-" else [])
  ++ str_of_digits (l_int l)
  ++ match l_frac l with
     | Some f => lit "." ++ str_of_digits f
     | None => []
     end
  ++ match l_exp l with
     | Some e =>
         lit "e" ++ (if e <? 0 then lit "-" else lit "+")
         ++ zfill 2 (str_of_Z (Z.abs e))
     | None => []
     end.

(** The layout of [repr]: the number [0.d1...dn * 10^decpt] in positional
    notation when [-4 < decpt <= 16], with [.0] added to an integer, and
    in exponent notation otherwise. *)
Definition short_literal (neg : bool) (ds : list Z) (decpt : Z) : literal :=
  let n := Z.of_nat (List.length ds) in
  if (decpt <=? -4) || (16 <? decpt) then
    mkLiteral neg (firstn 1 ds)
      (match skipn 1 ds with [] => None | r => Some r end)
      (Some (decpt - 1))
  else if decpt <=? 0 then
    mkLiteral neg [0] (Some (repeat 0 (Z.to_nat (- decpt)) ++ ds)) None
  else if decpt <? n then
    mkLiteral neg (firstn (Z.to_nat decpt) ds) (Some (skipn (Z.to_nat decpt) ds)) None
  else
    mkLiteral neg (ds ++ repeat 0 (Z.to_nat (decpt - n))) (Some [0]) None.

Fixpoint drop_zeros (ds : list Z) : list Z :=
  match ds with
  | d :: ds' => if d =? 0 then drop_zeros ds' else ds
  | [] => []
  end.

Definition strip_trailing_zeros (ds : list Z) : list Z :=
  rev (drop_zeros (rev ds)).

(** [x] as a fraction of integers. *)
Definition ratio_of (x : float) : Z * Z := scale (f_mant x) 1 (- f_exp x).

(** The [k] with [10^(k-1) <= p/q < 10^k]. *)
Definition decimal_point (p q : Z) : Z :=
  let k := Z.of_nat (List.length (digits_of_Z p)) - Z.of_nat (List.length (digits_of_Z q)) in
  let '(n, d) := if 0 <=? k then (p, q * 10 ^ k) else (p * 10 ^ (- k), q) in
  if n <? d then k else k + 1.

(** The literal of the integer [c] of (at most) [n + 1] digits standing
    for [c * 10^(k - n)]. *)
Definition literal_of_candidate (neg : bool) (k : Z) (n : nat) (c : Z) : literal :=
  let ds := digits_of_Z c in
  short_literal neg (strip_trailing_zeros ds)
    (k + (Z.of_nat (List.length ds) - Z.of_nat n)).

Definition reads_back (x : float) (l : literal) : bool :=
  match float_of_literal l with
  | Some y => float_eqb x y
  | None => false
  end.

(** The literal of [n] significant digits that reads back as [x], if
    there is one: of the two [n]-digit numbers around [x], the nearer
    first. *)
Definition candidate (x : float) (n : nat) : option literal :=
  let '(p, q) := ratio_of x in
  let k := decimal_point p q in
  let '(yn, yd) :=
    if 0 <=? k - Z.of_nat n then (p, q * 10 ^ (k - Z.of_nat n))
    else (p * 10 ^ (Z.of_nat n - k), q) in
  let lo := yn / yd in
  let hi := lo + 1 in
  let lo_first :=
    match 2 * (yn mod yd) ?= yd with
    | Lt => true
    | Gt => false
    | Eq => Z.even lo
    end in
  let mk := literal_of_candidate (f_neg x) k n in
  find (reads_back x)
    (if lo_first then [mk lo; mk hi] else [mk hi; mk lo]).

Fixpoint first_candidate (x : float) (n : nat) (fuel : nat) : option literal :=
  match fuel with
  | O => None
  | S fuel' =>
      match candidate x n with
      | Some l => Some l
      | None => first_candidate x (S n) fuel'
      end
  end.

(** The exact decimal expansion of [x], which is finite. *)
Definition exact_literal (x : float) : literal :=
  let '(d, s) :=
    if 0 <=? f_exp x then (f_mant x * 2 ^ f_exp x, 0)
    else (f_mant x * 5 ^ (- f_exp x), - f_exp x) in
  let ds := digits_of_Z d in
  short_literal (f_neg x) (strip_trailing_zeros ds) (Z.of_nat (List.length ds) - s).

(** [repr(x)]: the shortest literal that reads back as [x]; seventeen
    significant digits always suffice for a binary64 number. *)
Definition repr_literal (x : float) : literal :=
  if is_zero x then mkLiteral (f_neg x) [0] (Some [0]) None
  else
    match first_candidate x 1 17 with
    | Some l => l
    | None => exact_literal x
    end.

Definition repr (x : float) : pystr := print_literal (repr_literal x).

End PyFloat.

Import PyFloat.

(** ** Dictionaries

    A Python [dict] keeps its keys in insertion order; assigning to a key
    that is present replaces its value in place. *)

Section Dict.
Context {K V : Type} (key_eqb : K -> K -> bool).

Definition dict := list (K * V).

Fixpoint dict_get (d : dict) (k : K) : option V :=
  match d with
  | [] => None
  | (k', v) :: d' => if key_eqb k' k then Some v else dict_get d' k
  end.

Fixpoint dict_set (d : dict) (k : K) (v : V) : dict :=
  match d with
  | [] => [(k, v)]
  | (k', v') :: d' =>
      if key_eqb k' k then (k', v) :: d' else (k', v') :: dict_set d' k v
  end.

(** [d.update(other)] *)
Definition dict_update (d other : dict) : dict :=
  fold_left (fun acc kv => dict_set acc (fst kv) (snd kv)) other d.

Definition dict_keys (d : dict) : list K := map fst d.

End Dict.

Arguments dict : clear implicits.

(** ** Data model *)

(** The choices of [--mode]. *)
Inductive analysis_mode := m_lines | m_words | m_chars | m_all | m_stats.

Definition mode_name (m : analysis_mode) : pystr :=
  match m with
  | m_lines => lit "lines"
  | m_words => lit "words"
  | m_chars => lit "chars"
  | m_all => lit "all"
  | m_stats => lit "stats"
  end.

Definition mode_eqb (a b : analysis_mode) : bool :=
  match a, b with
  | m_lines, m_lines | m_words, m_words | m_chars, m_chars
  | m_all, m_all | m_stats, m_stats => true
  | _, _ => false
  end.

(** ['x' in modes] *)
Definition mode_in (m : analysis_mode) (modes : list analysis_mode) : bool :=
  existsb (mode_eqb m) modes.

(** The keys of a file's results. *)
Inductive metric_key := k_lines | k_words | k_chars | k_stats.

Definition metric_name (k : metric_key) : pystr :=
  match k with
  | k_lines => lit "lines"
  | k_words => lit "words"
  | k_chars => lit "chars"
  | k_stats => lit "stats"
  end.

Definition metric_eqb (a b : metric_key) : bool :=
  match a, b with
  | k_lines, k_lines | k_words, k_words | k_chars, k_chars
  | k_stats, k_stats => true
  | _, _ => false
  end.

(** The keys of the stats block. *)
Inductive stat_key := avg_line_length | avg_words_length | empty_lines.

Definition stat_name (k : stat_key) : pystr :=
  match k with
  | avg_line_length => lit "avg_line_length"
  | avg_words_length => lit "avg_words_length"
  | empty_lines => lit "empty_lines"
  end.

Definition stat_eqb (a b : stat_key) : bool :=
  match a, b with
  | avg_line_length, avg_line_length
  | avg_words_length, avg_words_length
  | empty_lines, empty_lines => true
  | _, _ => false
  end.

(** A number of the stats block: an [int] or a [float]. *)
Inductive number :=
  | IntVal (n : Z)
  | FloatVal (x : float).

Definition StatsBlock := dict stat_key number.

(** The value of a metric: an [int], or the nested stats [dict]. *)
Inductive metric_value :=
  | Scalar (n : Z)
  | Nested (s : StatsBlock).

Definition FileMetrics := dict metric_key metric_value.

Definition ResultSet := dict pystr FileMetrics.

Inductive output_format := fmt_text | fmt_json | fmt_csv.

(** ** [analyze_file] *)

(** [sum(...)] over integers. *)
Definition sum (l : list Z) : Z := fold_left Z.add l 0.

Definition len_list {A} (l : list A) : Z := Z.of_nat (List.length l).

(** Lines 75-86: the stats block of a content. *)
Definition compute_stats (content : pystr) : result StatsBlock :=
  let lines := splitlines content in
  let words := split content in
  a <- truediv (sum (map len lines)) (Z.max (len_list lines) 1) ;;
  w <- truediv (sum (map len words)) (Z.max (len_list words) 1) ;;
  Ok [ (avg_line_length, FloatVal a);
       (avg_words_length, FloatVal w);
       (empty_lines,
        IntVal (sum (map (fun _ => 1)
                       (filter (fun line => negb (truthy (strip line))) lines)))) ].

(** Lines 59-86: the results of one file, from its content. *)
Definition analyze_content (modes : list analysis_mode) (content : pystr)
  : result FileMetrics :=
  let results : FileMetrics := [] in
  let results :=
    if mode_in m_lines modes || mode_in m_all modes
    then dict_set metric_eqb results k_lines (Scalar (count NL content + 1))
    else results in
  let results :=
    if mode_in m_words modes || mode_in m_all modes
    then dict_set metric_eqb results k_words (Scalar (len_list (split content)))
    else results in
  let results :=
    if mode_in m_chars modes || mode_in m_all modes
    then dict_set metric_eqb results k_chars (Scalar (len content))
    else results in
  if mode_in m_stats modes then
    s <- compute_stats content ;;
    Ok (dict_set metric_eqb results k_stats (Nested s))
  else Ok results.

(** ** [json.dumps(obj, indent=2)]

    The documents the program serialises are dictionaries with string
    keys whose values are [int]s, [float]s or such dictionaries. *)

Module Json.

#[warnings="-register-all"]
Inductive json :=
  | JInt (n : Z)
  | JFloat (x : float)
  | JDict (items : list (pystr * json)).

Definition QUOTE : char := 34%N.
Definition BACKSLASH : char := 92%N.

Definition hex_digit (d : N) : char :=
  (if d <? 10 then 48 + d else 87 + d)%N.

(** ['{0:04x}'.format(n)] *)
Definition hex4 (n : N) : pystr :=
  [ hex_digit (n / 4096); hex_digit ((n / 256) mod 16);
    hex_digit ((n / 16) mod 16); hex_digit (n mod 16) ]%N.

Definition u_escape (n : N) : pystr := BACKSLASH :: 117%N :: hex4 n.

(** The replacement of one character by [py_encode_basestring_ascii]:
    printable ASCII other than the quote and the backslash stands for
    itself, the rest is escaped, beyond the basic plane as a surrogate
    pair. *)
Definition escape_char (c : char) : pystr :=
  if (c =? QUOTE)%N then [BACKSLASH; QUOTE]
  else if (c =? BACKSLASH)%N then [BACKSLASH; BACKSLASH]
  else if ((32 <=? c) && (c <=? 126))%N then [c]
  else if (c =? 8)%N then [BACKSLASH; 98%N]
  else if (c =? 12)%N then [BACKSLASH; 102%N]
  else if (c =? 10)%N then [BACKSLASH; 110%N]
  else if (c =? 13)%N then [BACKSLASH; 114%N]
  else if (c =? 9)%N then [BACKSLASH; 116%N]
  else if (c <? 65536)%N then u_escape c
  else
    let n := (c - 65536)%N in
    u_escape (N.lor 55296 (N.land (N.shiftr n 10) 1023))
    ++ u_escape (N.lor 56320 (N.land n 1023)).

Definition encode_str (s : pystr) : pystr :=
  QUOTE :: flat_map escape_char s ++ [QUOTE].

Definition newline_indent (level : nat) : pystr :=
  NL :: repeat 32%N (2 * level).

(** [_iterencode] at indentation level [level]. *)
Fixpoint encode (level : nat) (v : json) : pystr :=
  match v with
  | JInt n => str_of_Z n
  | JFloat x => repr x
  | JDict [] => lit "{}"
  | JDict items =>
      lit "{" ++ newline_indent (S level)
      ++ join (lit "," ++ newline_indent (S level))
           (map (fun kv => encode_str (fst kv) ++ lit ": " ++ encode (S level) (snd kv))
              items)
      ++ newline_indent level ++ lit "}"
  end.

Definition dumps (v : json) : pystr := encode 0 v.

End Json.

Import Json.

(** The results as the Python object that is serialised. *)
Definition json_of_number (x : number) : json :=
  match x with
  | IntVal n => JInt n
  | FloatVal f => JFloat f
  end.

Definition json_of_stats (s : StatsBlock) : json :=
  JDict (map (fun kv => (stat_name (fst kv), json_of_number (snd kv))) s).

Definition json_of_value (v : metric_value) : json :=
  match v with
  | Scalar n => JInt n
  | Nested s => json_of_stats s
  end.

Definition json_of_metrics (m : FileMetrics) : json :=
  JDict (map (fun kv => (metric_name (fst kv), json_of_value (snd kv))) m).

Definition json_of_results (r : ResultSet) : json :=
  JDict (map (fun kv => (fst kv, json_of_metrics (snd kv))) r).

(** ** [formatted_output] *)

(** [str(x)] for a number of the stats block. *)
Definition str_of_number (x : number) : pystr :=
  match x with
  | IntVal n => str_of_Z n
  | FloatVal f => repr f
  end.

(** [str(value)] for a value of the results; a [dict] shows its items
    between braces, the keys quoted. *)
Definition str_of_value (v : metric_value) : pystr :=
  match v with
  | Scalar n => str_of_Z n
  | Nested s =>
      lit "{"
      ++ join (lit ", ")
           (map (fun kv => lit "'" ++ stat_name (fst kv) ++ lit "': "
                           ++ str_of_number (snd kv)) s)
      ++ lit "}"
  end.

(** [format(x, '.2f')] for a number of the stats block; an [int] is
    converted to [float] first. *)
Definition format_number_2f (x : number) : result pystr :=
  match x with
  | IntVal n => f <- of_int n ;; Ok (format_f 2 f)
  | FloatVal f => Ok (format_f 2 f)
  end.

Fixpoint mapM {A B} (f : A -> result B) (l : list A) : result (list B) :=
  match l with
  | [] => Ok []
  | a :: l' => b <- f a ;; bs <- mapM f l' ;; Ok (b :: bs)
  end.

(** Line 108: the columns after [filename]. *)
Definition csv_columns : list metric_key := [k_lines; k_words; k_chars].

Definition csv_header : list pystr :=
  lit "filename" :: map metric_name csv_columns.

(** Lines 111-114 *)
Definition csv_row (filename : pystr) (data : FileMetrics) : pystr :=
  join (lit ",")
    (filename ::
     map (fun item =>
            match dict_get metric_eqb data item with
            | Some v => str_of_value v
            | None => []
            end) csv_columns).

(** Lines 107-115 *)
Definition format_csv (results : ResultSet) : pystr :=
  join [NL]
    (join (lit ",") csv_header
     :: map (fun kv => csv_row (fst kv) (snd kv)) results).

(** Lines 121-127: the lines of one metric. *)
Definition text_metric (key : metric_key) (value : metric_value)
  : result (list pystr) :=
  match value with
  | Nested s =>
      inner <- mapM (fun kv =>
                 v <- format_number_2f (snd kv) ;;
                 Ok (lit "    " ++ stat_name (fst kv) ++ lit ": " ++ v)) s ;;
      Ok ((lit " " ++ capitalize (metric_name key) ++ lit ":") :: inner)
  | Scalar n =>
      Ok [lit "  " ++ capitalize (metric_name key) ++ lit ": " ++ str_of_Z n]
  end.

(** Lines 119-127: the lines of one file. *)
Definition text_file (filename : pystr) (data : FileMetrics)
  : result (list pystr) :=
  ls <- mapM (fun kv => text_metric (fst kv) (snd kv)) data ;;
  Ok ((lit "Results for '" ++ filename ++ lit "':") :: List.concat ls).

(** Lines 117-128 *)
Definition format_text (results : ResultSet) : result pystr :=
  ls <- mapM (fun kv => text_file (fst kv) (snd kv)) results ;;
  Ok (join [NL] (List.concat ls)).

Definition formatted_output (results : ResultSet) (format_type : output_format)
  : result pystr :=
  match format_type with
  | fmt_json => Ok (dumps (json_of_results results))
  | fmt_csv => Ok (format_csv results)
  | fmt_text => format_text results
  end.

(** ** Effects

    What a run does besides computing: what it prints, the output file it
    opens (which creates or empties it) and writes, and the calls of
    [analyze_file] and [formatted_output], in order.  An exception that
    is not caught ends the run. *)

Inductive event :=
  | Print (text : pystr)
  | Analyze (filename : pystr)
  | Format
  | Open (path : pystr)
  | Write (path text : pystr).

Definition io (A : Type) : Type := list event * result A.

Definition io_ret {A} (a : A) : io A := ([], Ok a).

Definition io_bind {A B} (m : io A) (k : A -> io B) : io B :=
  match snd m with
  | Ok a => (fst m ++ fst (k a), snd (k a))
  | Raise e => (fst m, Raise e)
  end.

Definition emit (ev : event) : io unit := ([ev], Ok tt).

Definition lift {A} (r : result A) : io A := ([], r).

Notation "x <-- m ;;; k" := (io_bind m (fun x => k))
  (at level 61, m at next level, right associativity).
Notation "m ;;; k" := (io_bind m (fun _ => k))
  (at level 61, right associativity).

(** The operating system and the runtime as the program sees them.
    [read_file f enc] is [open(f, 'r', encoding=enc).read()]: the
    content, or the text of the exception raised.  [open_write p] is
    [open(p, 'w', encoding='utf-8')] and [write_text p t] the write of
    [t] up to the closing of the file: each gives the text of the
    exception raised, if any.  [set_order] is the order in which the
    runtime iterates a set of paths.  [stdout_encodes c] tells whether
    the encoding of the standard output has the character [c], and
    [encode_error t] is the text of the [UnicodeEncodeError] that the
    print of [t] raises when it has not. *)
Record os_env := {
  isfile : pystr -> bool;
  isdir : pystr -> bool;
  read_file : pystr -> pystr -> pystr + pystr;
  open_write : pystr -> option pystr;
  write_text : pystr -> pystr -> option pystr;
  walk : pystr -> list (pystr * list pystr);
  glob : pystr -> bool -> list pystr;
  path_join : pystr -> pystr -> pystr;
  set_order : list pystr -> list pystr;
  stdout_encodes : char -> bool;
  encode_error : pystr -> pystr
}.

(** What [print] can write: the characters that the standard output
    encodes; it encodes the ASCII characters whatever its encoding. *)
Definition printable (os : os_env) (text : pystr) : bool :=
  forallb (fun c => (c <? 128)%N || stdout_encodes os c) text.

(** [print(text)]: the text goes to the standard output, or nothing does
    and [UnicodeEncodeError] is raised. *)
Definition print (os : os_env) (text : pystr) : io unit :=
  if printable os text then emit (Print text)
  else lift (Raise UnicodeEncodeError).

(** The parsed command line. *)
Record arguments := {
  args_files : list pystr;
  args_mode : list analysis_mode;
  args_verbose : bool;
  args_recursive : bool;
  args_format : output_format;
  args_output : option pystr;
  args_encoding : option pystr;
  args_ext : option pystr
}.

(** Truth value of an optional string: [None] and [''] are false. *)
Definition opt_truthy (o : option pystr) : bool :=
  match o with
  | Some s => truthy s
  | None => false
  end.

Definition opt_str (o : option pystr) : pystr :=
  match o with
  | Some s => s
  | None => []
  end.

(** Lines 44-45: the encoding that is used, UTF-8 unless one is given. *)
Definition effective_encoding (encoding : option pystr) : pystr :=
  if opt_truthy encoding then opt_str encoding else lit "utf-8".

(** Lines 22-89 *)
Definition analyze_file (os : os_env) (filename : pystr)
    (modes : list analysis_mode) (verbose : bool) (encoding : option pystr)
  : io (option ResultSet) :=
  emit (Analyze filename) ;;;
  if negb (isfile os filename) then
    print os (lit "Error: File '" ++ filename ++ lit "' does not exist.") ;;;
    io_ret None
  else
    match read_file os filename (effective_encoding encoding) with
    | inr e =>
        print os (lit "Error reading file '" ++ filename ++ lit "': " ++ e) ;;;
        io_ret None
    | inl content =>
        (if verbose then
           print os (lit "Analyzing '" ++ filename ++ lit "' in "
                     ++ join (lit ", ") (map mode_name modes)
                     ++ lit " modes(s)...")
         else io_ret tt) ;;;
        results <-- lift (analyze_content modes content) ;;;
        io_ret (Some [(filename, results)])
    end.

(** ** [main] *)

(** Lines 181 and 189: the extension filter. *)
Definition ext_ok (ext : option pystr) (name : pystr) : bool :=
  negb (opt_truthy ext && negb (endswith name (opt_str ext))).

(** Lines 172-190: the paths collected from the patterns. *)
Definition resolve (os : os_env) (args : arguments) : list pystr :=
  flat_map
    (fun file_pattern =>
       if isdir os file_pattern && args_recursive args then
         flat_map
           (fun rf => map (path_join os (fst rf))
                        (filter (ext_ok (args_ext args)) (snd rf)))
           (walk os file_pattern)
       else
         let matched_files := glob os file_pattern (args_recursive args) in
         if opt_truthy (args_ext args)
         then filter (fun f => endswith f (opt_str (args_ext args))) matched_files
         else matched_files)
    (args_files args).

(** Truth value of a [dict]. *)
Definition dict_truthy {K V} (d : dict K V) : bool :=
  match d with [] => false | _ :: _ => true end.

(** Lines 200-203 *)
Fixpoint analyze_all (os : os_env) (args : arguments) (all_files : list pystr)
    (all_results : ResultSet) : io ResultSet :=
  match all_files with
  | [] => io_ret all_results
  | file :: rest =>
      result <-- analyze_file os file (args_mode args) (args_verbose args)
                   (args_encoding args) ;;;
      analyze_all os args rest
        match result with
        | Some r => if dict_truthy r then dict_update PyStr.eqb all_results r
                    else all_results
        | None => all_results
        end
  end.

(** Lines 210-214, the body of the [try]: the file is opened, which
    creates or empties it, the text is written, and the confirmation is
    printed.  The result is what was done and, when a step raises, the
    text of the exception that the [except] clause catches. *)
Definition save (os : os_env) (path text : pystr)
  : list event * option pystr :=
  match open_write os path with
  | Some e => ([], Some e)
  | None =>
      match write_text os path text with
      | Some e => ([Open path], Some e)
      | None =>
          let saved := lit "Results saved to '" ++ path ++ lit "'" in
          if printable os saved
          then ([Open path; Write path text; Print saved], None)
          else ([Open path; Write path text], Some (encode_error os saved))
      end
  end.

(** Lines 205-221; the two prints of the [except] clause are outside any
    [try]. *)
Definition report (os : os_env) (args : arguments) (all_results : ResultSet)
  : io unit :=
  emit Format ;;;
  formated_output <-- lift (formatted_output all_results (args_format args)) ;;;
  if opt_truthy (args_output args) then
    let attempt := save os (opt_str (args_output args)) formated_output in
    (fst attempt, Ok tt) ;;;
    match snd attempt with
    | None => io_ret tt
    | Some e =>
        print os (lit "Error saving results: " ++ e) ;;;
        print os formated_output
    end
  else print os formated_output.

(** Whether two lists hold the same elements, each as many times. *)
Definition rearranges (a b : list pystr) : bool :=
  forallb (fun x => Nat.eqb (count_occ (list_eq_dec N.eq_dec) a x)
                      (count_occ (list_eq_dec N.eq_dec) b x)) (a ++ b).

(** Line 193, [list(set(all_files))]: the distinct paths, in the order in
    which the runtime iterates the set. *)
Definition list_of_set (os : os_env) (all_files : list pystr) : list pystr :=
  let elements := nodup (list_eq_dec N.eq_dec) all_files in
  if rearranges (set_order os elements) elements then set_order os elements
  else elements.

(** Lines 171-221, after the command line is parsed. *)
Definition main (os : os_env) (args : arguments) : io unit :=
  let all_files := list_of_set os (resolve os args) in
  match all_files with
  | [] => print os (lit "Error: No matching files found.")
  | _ :: _ =>
      all_results <-- analyze_all os args all_files [] ;;;
      report os args all_results
  end.

(** ** [main.py]: the first version of the program

    One file and one mode; the count is printed, not returned. *)

Module MainPy.

(** Lines 22-30: the count of the mode, or [None] for a mode that is not
    known. *)
Definition count_of (mode content : pystr) : option Z :=
  if PyStr.eqb mode (lit "lines") then Some (count NL content + 1)
  else if PyStr.eqb mode (lit "words") then Some (len_list (split content))
  else if PyStr.eqb mode (lit "chars") then Some (len content)
  else None.

(** Lines 6-32 *)
Definition analyze_file (os : os_env) (filename mode : pystr) (verbose : bool)
  : io unit :=
  if negb (isfile os filename) then
    print os (lit "Error: File '" ++ filename ++ lit "' does not exist.")
  else
    match read_file os filename (lit "utf-8") with
    | inr e => print os (lit "Error reading file: " ++ e)
    | inl content =>
        (if verbose then
           print os (lit "Analyzing '" ++ filename ++ lit " in '" ++ mode
                     ++ lit "' mode...")
         else io_ret tt) ;;;
        match count_of mode content with
        | None => print os (lit "Error: Invalid mode '" ++ mode ++ lit "'")
        | Some result =>
            print os (capitalize mode ++ lit ": " ++ str_of_Z result)
        end
    end.

(** The parsed command line. *)
Record arguments := {
  args_filename : pystr;
  args_mode : pystr;
  args_verbose : bool
}.

(** Lines 49-50, after the command line is parsed. *)
Definition main (os : os_env) (args : arguments) : io unit :=
  analyze_file os (args_filename args) (args_mode args) (args_verbose args).

End MainPy.

(** ** [json.loads]

    The decoder, for the documents above: objects with string keys,
    numbers, and whitespace between the tokens. *)

Module JsonDecoder.

Definition LBRACE : char := 123%N.
Definition RBRACE : char := 125%N.
Definition COLON : char := 58%N.
Definition COMMA : char := 44%N.

Definition is_ws (c : char) : bool :=
  ((c =? 32) || (c =? 9) || (c =? 10) || (c =? 13))%N.

Fixpoint skip_ws (s : pystr) : pystr :=
  match s with
  | c :: s' => if is_ws c then skip_ws s' else s
  | [] => []
  end.

Definition hex_value (c : char) : option N :=
  (if (48 <=? c) && (c <=? 57) then Some (c - 48)
   else if (97 <=? c) && (c <=? 102) then Some (c - 87)
   else if (65 <=? c) && (c <=? 70) then Some (c - 55)
   else None)%N.

(** The four hexadecimal digits of a [\u] escape. *)
Definition decode_hex4 (s : pystr) : option (N * pystr) :=
  match s with
  | a :: b :: c :: d :: rest =>
      match hex_value a, hex_value b, hex_value c, hex_value d with
      | Some a, Some b, Some c, Some d =>
          Some ((((a * 16 + b) * 16 + c) * 16 + d)%N, rest)
      | _, _, _, _ => None
      end
  | _ => None
  end.

(** The character a one-letter escape stands for. *)
Definition simple_escape (e : char) : option char :=
  (if e =? 34 then Some 34
   else if e =? 92 then Some 92
   else if e =? 47 then Some 47
   else if e =? 98 then Some 8
   else if e =? 102 then Some 12
   else if e =? 110 then Some 10
   else if e =? 114 then Some 13
   else if e =? 116 then Some 9
   else None)%N.

Definition is_high_surrogate (c : N) : bool :=
  ((55296 <=? c) && (c <=? 56319))%N.

Definition is_low_surrogate (c : N) : bool :=
  ((56320 <=? c) && (c <=? 57343))%N.

(** After a [\u] escape that gave [uni]: a high surrogate joins with a
    low surrogate written as the next [\u] escape. *)
Definition join_surrogates (uni : N) (s3 : pystr) : option (char * pystr) :=
  if is_high_surrogate uni then
    match s3 with
    | b :: u :: s4 =>
        if ((b =? BACKSLASH) && (u =? 117))%N then
          match decode_hex4 s4 with
          | Some (uni2, s5) =>
              if is_low_surrogate uni2 then
                Some ((65536 + N.lor (N.shiftl (uni - 55296) 10)
                                 (uni2 - 56320))%N, s5)
              else Some (uni, s3)
          | None => None
          end
        else Some (uni, s3)
    | _ => Some (uni, s3)
    end
  else Some (uni, s3).

(** What follows a backslash. *)
Definition scan_escape (s1 : pystr) : option (char * pystr) :=
  match s1 with
  | [] => None
  | e :: s2 =>
      if (e =? 117)%N then
        match decode_hex4 s2 with
        | Some (uni, s3) => join_surrogates uni s3
        | None => None
        end
      else
        match simple_escape e with
        | Some ch => Some (ch, s2)
        | None => None
        end
  end.

(** One character of the body of a string that is not at its closing
    quote: a plain character or an escape; a control character is
    refused. *)
Definition scan_char (s : pystr) : option (char * pystr) :=
  match s with
  | [] => None
  | c :: s1 =>
      if (c =? BACKSLASH)%N then scan_escape s1
      else if (c <? 32)%N then None
      else Some (c, s1)
  end.

(** The body of a string, after the opening quote, up to the closing
    quote. *)
Fixpoint scan_string (fuel : nat) (s : pystr) : option (pystr * pystr) :=
  match fuel with
  | O => None
  | S fuel' =>
      match s with
      | [] => None
      | c :: s' =>
          if (c =? QUOTE)%N then Some ([], s')
          else
            match scan_char s with
            | Some (ch, rest) =>
                match scan_string fuel' rest with
                | Some (str, rest') => Some (ch :: str, rest')
                | None => None
                end
            | None => None
            end
      end
  end.

Definition digit_value (c : char) : option Z :=
  if ((48 <=? c) && (c <=? 57))%N then Some (Z.of_N c - 48) else None.

Fixpoint scan_digits (s : pystr) : list Z * pystr :=
  match s with
  | c :: s' =>
      match digit_value c with
      | Some d => (d :: fst (scan_digits s'), snd (scan_digits s'))
      | None => ([], s)
      end
  | [] => ([], [])
  end.

(** The integer part of a number: [0], or digits that start with a
    non-zero digit. *)
Definition scan_int (s : pystr) : option (list Z * pystr) :=
  match s with
  | c :: s' =>
      if (c =? 48)%N then Some ([0], s')
      else
        match digit_value c with
        | Some _ => Some (scan_digits s)
        | None => None
        end
  | [] => None
  end.

(** The fraction: a point followed by at least one digit. *)
Definition scan_frac (s : pystr) : option (list Z) * pystr :=
  match s with
  | c :: s' =>
      if (c =? 46)%N then
        match scan_digits s' with
        | ([], _) => (None, s)
        | (ds, rest) => (Some ds, rest)
        end
      else (None, s)
  | [] => (None, s)
  end.

(** The exponent: [e] or [E], an optional sign, at least one digit. *)
Definition scan_exp (s : pystr) : option Z * pystr :=
  match s with
  | c :: s1 =>
      if ((c =? 101) || (c =? 69))%N then
        let '(neg, s2) :=
          match s1 with
          | g :: s2 =>
              if (g =? 45)%N then (true, s2)
              else if (g =? 43)%N then (false, s2)
              else (false, s1)
          | [] => (false, s1)
          end in
        match scan_digits s2 with
        | ([], _) => (None, s)
        | (ds, rest) =>
            (Some (if neg then - value_of_digits ds else value_of_digits ds), rest)
        end
      else (None, s)
  | [] => (None, s)
  end.

Definition scan_number (s : pystr) : option (literal * pystr) :=
  let '(neg, s1) :=
    match s with
    | c :: s' => if (c =? 45)%N then (true, s') else (false, s)
    | [] => (false, s)
    end in
  match scan_int s1 with
  | Some (int, s2) =>
      let '(frac, s3) := scan_frac s2 in
      let '(ex, s4) := scan_exp s3 in
      Some (mkLiteral neg int frac ex, s4)
  | None => None
  end.

(** A literal without fraction and exponent is an [int], any other a
    [float]; a literal beyond the range of [float] reads as an
    infinity, which no document of the program holds and [json] does not
    represent. *)
Definition number_value (l : literal) : option json :=
  match l_frac l, l_exp l with
  | None, None =>
      Some (JInt (if l_neg l then - value_of_digits (l_int l)
                  else value_of_digits (l_int l)))
  | _, _ =>
      match float_of_literal l with
      | Some x => Some (JFloat x)
      | None => None
      end
  end.

(** [dict(pairs)]: a later pair replaces the value of an equal key. *)
Definition dict_of_pairs (pairs : list (pystr * json)) : list (pystr * json) :=
  dict_update PyStr.eqb [] pairs.

(** A value at the head of [s], and the members of an object from the
    opening quote of a key on; [fuel] bounds the number of values and
    members read. *)
Fixpoint parse_value (fuel : nat) (s : pystr) : option (json * pystr) :=
  match fuel with
  | O => None
  | S fuel' =>
      match s with
      | [] => None
      | c :: s' =>
          if (c =? LBRACE)%N then
            match skip_ws s' with
            | [] => None
            | c2 :: s2 =>
                if (c2 =? RBRACE)%N then Some (JDict [], s2)
                else
                  match parse_members fuel' (c2 :: s2) with
                  | Some (pairs, rest) => Some (JDict (dict_of_pairs pairs), rest)
                  | None => None
                  end
            end
          else
            match scan_number s with
            | Some (l, rest) =>
                match number_value l with
                | Some v => Some (v, rest)
                | None => None
                end
            | None => None
            end
      end
  end
with parse_members (fuel : nat) (s : pystr)
  : option (list (pystr * json) * pystr) :=
  match fuel with
  | O => None
  | S fuel' =>
      match s with
      | [] => None
      | q :: s1 =>
          if (q =? QUOTE)%N then
            match scan_string (List.length s1) s1 with
            | Some (key, s2) =>
                match skip_ws s2 with
                | [] => None
                | c :: s3 =>
                    if (c =? COLON)%N then
                      match parse_value fuel' (skip_ws s3) with
                      | Some (v, s4) =>
                          match skip_ws s4 with
                          | [] => None
                          | d :: s5 =>
                              if (d =? COMMA)%N then
                                match parse_members fuel' (skip_ws s5) with
                                | Some (pairs, rest) => Some ((key, v) :: pairs, rest)
                                | None => None
                                end
                              else if (d =? RBRACE)%N then Some ([(key, v)], s5)
                              else None
                          end
                      | None => None
                      end
                    else None
                end
            | None => None
            end
          else None
      end
  end.

(** [json.loads(s)]: one value, whitespace allowed around it. *)
Definition loads (s : pystr) : option json :=
  match parse_value (List.length s) (skip_ws s) with
  | Some (v, rest) =>
      match skip_ws rest with
      | [] => Some v
      | _ :: _ => None
      end
  | None => None
  end.

End JsonDecoder.

Import JsonDecoder.

(** * Vocabulary of the properties

    The predicates and sample values the statements below are written
    with. *)

(** ** Dictionaries and the counting primitives *)

(** Which modes ask for the three counters. *)
Definition wants (m : analysis_mode) (modes : list analysis_mode) : bool :=
  mode_in m modes || mode_in m_all modes.

(** ** Lines *)

(** The content has no line boundary other than the newline character. *)
Definition only_newlines (s : pystr) : Prop :=
  forall c, In c s -> is_linebreak c = true -> c = NL.

(** Whether the scan of [s] ends inside a line that is not empty. *)
Fixpoint open_line (cur : pystr) (s : pystr) : bool :=
  match s with
  | [] => truthy cur
  | c :: s' => if (c =? NL)%N then open_line [] s' else open_line (cur ++ [c]) s'
  end.

(** A content of three lines, the last one without a newline. *)
Definition three_lines : pystr :=
  lit "one" ++ [NL] ++ lit "two" ++ [NL] ++ lit "three".

(** Two lines that a form feed separates, and no newline. *)
Definition form_feed_content : pystr := lit "a" ++ [12%N] ++ lit "b".

(** ** Words *)

(** The number of maximal runs of characters that are not whitespace:
    a token starts at each such character that is first or follows a
    whitespace character. *)
Fixpoint token_starts (after_space : bool) (s : pystr) : Z :=
  match s with
  | [] => 0
  | c :: s' =>
      (if after_space && negb (isspace c) then 1 else 0)
      + token_starts (isspace c) s'
  end.

Definition token_count (s : pystr) : Z := token_starts true s.

(** [c'] is [c] with whitespace added in front, at the end, or next to a
    whitespace character that is already there. *)
Inductive ws_extends : pystr -> pystr -> Prop :=
  | ws_same : forall c, ws_extends c c
  | ws_leading : forall c x, isspace x = true -> ws_extends c (x :: c)
  | ws_trailing : forall c x, isspace x = true -> ws_extends c (c ++ [x])
  | ws_after : forall a b v x,
      isspace v = true -> isspace x = true ->
      ws_extends (a ++ v :: b) (a ++ v :: x :: b)
  | ws_before : forall a b v x,
      isspace v = true -> isspace x = true ->
      ws_extends (a ++ v :: b) (a ++ x :: v :: b)
  | ws_more : forall c1 c2 c3,
      ws_extends c1 c2 -> ws_extends c2 c3 -> ws_extends c1 c3.

(** ** Decimal digits *)

Definition is_digit (d : Z) : Prop := 0 <= d <= 9.

(** A digit list that writes [n] in the ordinary way. *)
Definition writes (n : Z) (ds : list Z) : Prop :=
  Forall is_digit ds /\ value_of_digits ds = n /\ ds <> []
  /\ (0 < n -> hd 0 ds <> 0).

(** ** CSV output *)

(** The text of a metric column: the value if the key is present, the
    empty string otherwise. *)
Definition csv_field (data : FileMetrics) (k : metric_key) : pystr :=
  match dict_get metric_eqb data k with
  | Some v => str_of_value v
  | None => []
  end.

(** The three counters of a file are integers. *)
Definition scalar_counters (data : FileMetrics) : Prop :=
  forall k v, k <> k_stats -> dict_get metric_eqb data k = Some v ->
              exists n, v = Scalar n.

(** ** Files that cannot be read *)

(** The path is not an existing regular file, or opening or decoding it
    raises. *)
Definition unreadable (os : os_env) (filename : pystr) (encoding : option pystr)
  : Prop :=
  isfile os filename = false
  \/ exists e, read_file os filename (effective_encoding encoding) = inr e.

(** The diagnostic of a file that cannot be read. *)
Definition diagnostic (os : os_env) (filename : pystr) (encoding : option pystr)
  : pystr :=
  if isfile os filename then
    match read_file os filename (effective_encoding encoding) with
    | inr e => lit "Error reading file '" ++ filename ++ lit "': " ++ e
    | inl _ => []
    end
  else lit "Error: File '" ++ filename ++ lit "' does not exist.".

(** ** No matching files *)

(** An empty directory: no path is a file, no pattern matches. *)
Definition empty_os : os_env := {|
  isfile := fun _ => false;
  isdir := fun _ => false;
  read_file := fun _ _ => inr (lit "No such file or directory");
  open_write := fun _ => None;
  write_text := fun _ _ => None;
  walk := fun _ => [];
  glob := fun _ _ => [];
  path_join := fun a b => a ++ lit "/" ++ b;
  set_order := fun l => l;
  stdout_encodes := fun _ => true;
  encode_error := fun _ => lit "codec can't encode character"
|}.

Definition sample_args : arguments := {|
  args_files := [lit "*.txt"];
  args_mode := [m_lines];
  args_verbose := false;
  args_recursive := false;
  args_format := fmt_text;
  args_output := None;
  args_encoding := None;
  args_ext := None
|}.

(** ** JSON strings *)

(** A check over all numbers of [k] bits. *)
Fixpoint forall_bits (k : nat) (f : N -> bool) : bool :=
  match k with
  | O => f 0%N
  | S k' => forall_bits k' (fun n => f (2 * n)%N && f (2 * n + 1)%N)
  end.

Definition option_Neqb (a : option (N * pystr)) (n : N) : bool :=
  match a with
  | Some (m, []) => (m =? n)%N
  | _ => false
  end.

(** Text: code points in range, and no high surrogate directly followed
    by a low surrogate (such a pair is one character beyond the basic
    plane, never two). *)
Fixpoint unicode_text (s : pystr) : bool :=
  match s with
  | [] => true
  | c :: s' =>
      (c <? 1114112)%N
      && negb (is_high_surrogate c
               && match s' with c' :: _ => is_low_surrogate c' | [] => false end)
      && unicode_text s'
  end.

(** Whether the text after a [\u] escape goes on with a [\u] escape of a
    low surrogate; [None] when a [\u] is not followed by four digits. *)
Definition peek_low (s3 : pystr) : option bool :=
  match s3 with
  | b :: u :: s4 =>
      if ((b =? BACKSLASH) && (u =? 117))%N then
        match decode_hex4 s4 with
        | Some (uni2, _) => Some (is_low_surrogate uni2)
        | None => None
        end
      else Some false
  | _ => Some false
  end.

(** The two escapes written for a character beyond the basic plane. *)
Definition pair_check (n : N) : bool :=
  let hi := N.lor 55296 (N.land (N.shiftr n 10) 1023) in
  let lo := N.lor 56320 (N.land n 1023) in
  ((hi <? 65536) && is_high_surrogate hi && (lo <? 65536) && is_low_surrogate lo
   && (65536 + N.lor (N.shiftl (hi - 55296) 10) (lo - 56320) =? n + 65536))%N.

(** ** JSON numbers *)

(** The text that follows does not start with a digit. *)
Definition no_digit_next (rest : pystr) : Prop :=
  match rest with
  | [] => True
  | c :: _ => digit_value c = None
  end.

(** The text that follows cannot continue a number. *)
Definition number_end (rest : pystr) : Prop :=
  match rest with
  | [] => True
  | c :: _ => digit_value c = None /\ c <> 46%N /\ c <> 101%N /\ c <> 69%N
  end.

(** Integer digits as JSON writes them: no leading zero. *)
Definition wf_int (ds : list Z) : Prop :=
  Forall is_digit ds /\ ds <> [] /\ (ds = [0] \/ hd 0 ds <> 0).

Definition wf_literal (l : literal) : Prop :=
  wf_int (l_int l)
  /\ match l_frac l with
     | Some f => Forall is_digit f /\ f <> []
     | None => True
     end.

(** The literal of an [int]. *)
Definition int_literal (n : Z) : literal :=
  mkLiteral (n <? 0) (digits_of_Z (Z.abs n)) None None.

(** ** The literals of [repr] *)

Definition leading_digits (ds : list Z) : Prop :=
  Forall is_digit ds /\ ds <> [] /\ hd 0 ds <> 0.

Definition is_float_literal (l : literal) : Prop :=
  l_frac l <> None \/ l_exp l <> None.

Definition nonneg_mantissa (x : float) : Prop := 0 <= f_mant x.

(** ** Rounding a number that is a [float] *)

(** [2^b <= P / Q], with every power scaled by [2^K] so that no exponent
    is negative. *)
Definition above_pow2 (P Q b K : Z) : Prop := Q * 2 ^ (K + b) <= P * 2 ^ K.

(** Two fractions with positive denominators that are equal. *)
Definition ratio_eq (a b : Z * Z) : Prop := fst a * snd b = fst b * snd a.

(** [d * 10^ex] as a fraction. *)
Definition dec_ratio (d ex : Z) : Z * Z :=
  if 0 <=? ex then (d * 10 ^ ex, 1) else (d, 10 ^ (- ex)).

(** ** JSON documents *)

(** The number of values and members of a document. *)
Fixpoint json_size (v : json) : nat :=
  match v with
  | JDict items => S (list_sum (map (fun kv => S (json_size (snd kv))) items))
  | _ => 1
  end.

Fixpoint distinct (l : list pystr) : bool :=
  match l with
  | [] => true
  | a :: l' => negb (existsb (PyStr.eqb a) l') && distinct l'
  end.

(** A document as the program builds it: the keys of a dictionary are
    distinct strings of text, the floats are binary64 numbers. *)
Fixpoint well_formed (v : json) : bool :=
  match v with
  | JInt _ => true
  | JFloat x => canonical x
  | JDict items =>
      distinct (map fst items)
      && forallb (fun kv => unicode_text (fst kv) && well_formed (snd kv)) items
  end.

(** The text of a member: the key, a colon and a space, the value. *)
Definition member_text (level : nat) (kv : pystr * json) : pystr :=
  encode_str (fst kv) ++ lit ": " ++ encode level (snd kv).

(** The round trip of a value, as the induction needs it. *)
Definition reads_back_at (v : json) : Prop :=
  forall fuel level rest,
    (json_size v <= fuel)%nat -> well_formed v = true -> number_end rest ->
    parse_value fuel (encode level v ++ rest) = Some (v, rest).

Definition members_size (items : list (pystr * json)) : nat :=
  list_sum (map (fun kv => S (json_size (snd kv))) items).

Definition members_ok (items : list (pystr * json)) : bool :=
  forallb (fun kv => unicode_text (fst kv) && well_formed (snd kv)) items.

(** ** The results as a JSON document *)

(** Distinct keys, for a key type with a decidable equality. *)
Fixpoint distinct_by {K} (key_eqb : K -> K -> bool) (l : list K) : bool :=
  match l with
  | [] => true
  | a :: l' => negb (existsb (key_eqb a) l') && distinct_by key_eqb l'
  end.

Definition number_ok (x : number) : bool :=
  match x with
  | IntVal _ => true
  | FloatVal f => canonical f
  end.

Definition stats_ok (s : StatsBlock) : bool :=
  distinct_by stat_eqb (dict_keys s) && forallb (fun kv => number_ok (snd kv)) s.

Definition value_ok (v : metric_value) : bool :=
  match v with
  | Scalar _ => true
  | Nested s => stats_ok s
  end.

Definition metrics_ok (m : FileMetrics) : bool :=
  distinct_by metric_eqb (dict_keys m) && forallb (fun kv => value_ok (snd kv)) m.

(** A [ResultSet] as Python has it: the keys of each [dict] are
    distinct, the paths are text, the floats are binary64 numbers. *)
Definition results_ok (rs : ResultSet) : bool :=
  distinct (dict_keys rs)
  && forallb (fun kv => unicode_text (fst kv) && metrics_ok (snd kv)) rs.

(** ** The floats of the program are binary64 numbers *)

(** The results of a file of three lines, with its stats block. *)
Definition sample_results : ResultSet :=
  [ (lit "text.txt",
     [ (k_lines, Scalar 3); (k_words, Scalar 5); (k_chars, Scalar 20);
       (k_stats,
        Nested [ (avg_line_length, FloatVal (mkFloat false 7505999378950827 (-50)));
                 (avg_words_length, FloatVal (mkFloat false 7205759403792794 (-51)));
                 (empty_lines, IntVal 0) ]) ]) ].

(** ** Relations between the metrics *)

(** The number of characters that are not whitespace. *)
Definition nonspace_count (s : pystr) : Z :=
  len (filter (fun c => negb (isspace c)) s).

(** A content of two words around runs of whitespace. *)
Definition two_words : pystr :=
  lit "  alpha" ++ [NL; 9%N] ++ lit "beta ".

(** A content of blanks only. *)
Definition blank_content : pystr := lit " " ++ [NL; 9%N; NL] ++ lit " ".

(** [x] is not negative and at least one. *)
Definition at_least_one (x : float) : Prop :=
  f_neg x = false /\ snd (ratio_of x) <= fst (ratio_of x).

(** The floats 6.5 and 4.5. *)
Definition six_and_a_half : float := mkFloat false (13 * 2 ^ 49) (-50).

Definition four_and_a_half : float := mkFloat false (9 * 2 ^ 49) (-50).

(** The stats block of [two_words]. *)
Definition two_words_stats : StatsBlock :=
  [ (avg_line_length, FloatVal six_and_a_half);
    (avg_words_length, FloatVal four_and_a_half);
    (empty_lines, IntVal 0) ].

(** ** Runs *)

(** The paths passed to [analyze_file] and what is printed, in order. *)
Definition analyzed (tr : list event) : list pystr :=
  flat_map (fun ev => match ev with Analyze f => [f] | _ => [] end) tr.

Definition printed (tr : list event) : list pystr :=
  flat_map (fun ev => match ev with Print t => [t] | _ => [] end) tr.

(** What is done to files: the events [Open] and [Write]. *)
Definition file_events (tr : list event) : list event :=
  filter (fun ev => match ev with Open _ | Write _ _ => true | _ => false end) tr.

(** The path is a regular file that can be opened and decoded. *)
Definition readable (os : os_env) (encoding : option pystr) (f : pystr) : bool :=
  isfile os f
  && match read_file os f (effective_encoding encoding) with
     | inl _ => true
     | inr _ => false
     end.

(** The metrics of a file that can be read and analysed. *)
Definition file_metrics (os : os_env) (args : arguments) (f : pystr)
  : option FileMetrics :=
  if isfile os f then
    match read_file os f (effective_encoding (args_encoding args)) with
    | inl content =>
        match analyze_content (args_mode args) content with
        | Ok r => Some r
        | Raise _ => None
        end
    | inr _ => None
    end
  else None.

(** The line of a verbose run for a file. *)
Definition verbose_line (filename : pystr) (modes : list analysis_mode) : pystr :=
  lit "Analyzing '" ++ filename ++ lit "' in "
  ++ join (lit ", ") (map mode_name modes) ++ lit " modes(s)...".

(** What the analysis of one file prints. *)
Definition console_of_file (os : os_env) (args : arguments) (f : pystr)
  : list pystr :=
  if readable os (args_encoding args) f then
    if args_verbose args then [verbose_line f (args_mode args)] else []
  else [diagnostic os f (args_encoding args)].

(** A directory with the file [a.txt] of three lines, and [b.txt] that
    cannot be decoded. *)
Definition sample_os : os_env := {|
  isfile := fun f => PyStr.eqb f (lit "a.txt") || PyStr.eqb f (lit "b.txt");
  isdir := fun f => PyStr.eqb f (lit ".");
  read_file := fun f _ =>
    if PyStr.eqb f (lit "a.txt") then inl three_lines
    else inr (lit "invalid start byte");
  open_write := fun p =>
    if PyStr.eqb p (lit "out.txt") then None else Some (lit "Permission denied");
  write_text := fun _ _ => None;
  walk := fun d => [(d, [lit "a.txt"; lit "b.txt"; lit "c.md"])];
  glob := fun p _ =>
    if PyStr.eqb p (lit "*.txt") then [lit "a.txt"; lit "b.txt"]
    else if PyStr.eqb p (lit "a.*") then [lit "a.txt"]
    else if PyStr.eqb p (lit "b.*") then [lit "b.txt"]
    else [];
  path_join := fun a b => a ++ lit "/" ++ b;
  set_order := fun l => l;
  stdout_encodes := fun _ => true;
  encode_error := fun _ => lit "codec can't encode character"
|}.

Definition verbose_args : arguments := {|
  args_files := [lit "*.txt"; lit "a.*"];
  args_mode := [m_lines; m_words];
  args_verbose := true;
  args_recursive := false;
  args_format := fmt_csv;
  args_output := None;
  args_encoding := None;
  args_ext := None
|}.

(** The same system with other directories: [isdir] and [os.walk]
    replaced. *)
Definition with_directories (os : os_env) (d : pystr -> bool)
    (w : pystr -> list (pystr * list pystr)) : os_env := {|
  isfile := isfile os;
  isdir := d;
  read_file := read_file os;
  open_write := open_write os;
  write_text := write_text os;
  walk := w;
  glob := glob os;
  path_join := path_join os;
  set_order := set_order os;
  stdout_encodes := stdout_encodes os;
  encode_error := encode_error os
|}.

(** The output for no results at all. *)
Definition empty_report (format_type : output_format) : pystr :=
  match format_type with
  | fmt_text => []
  | fmt_json => lit "{}"
  | fmt_csv => lit "filename,lines,words,chars"
  end.

Definition recursive_args : arguments := {|
  args_files := [lit "."];
  args_mode := [m_chars];
  args_verbose := false;
  args_recursive := true;
  args_format := fmt_json;
  args_output := None;
  args_encoding := None;
  args_ext := Some (lit ".txt")
|}.

Definition unreadable_args : arguments := {|
  args_files := [lit "b.*"];
  args_mode := [m_all];
  args_verbose := true;
  args_recursive := false;
  args_format := fmt_json;
  args_output := Some (lit "out.txt");
  args_encoding := None;
  args_ext := None
|}.

(** The integers of the stats blocks of a file are small enough to be
    converted to [float]. *)
Definition small_counts (m : FileMetrics) : Prop :=
  forall k s sk n,
    In (k, Nested s) m -> In (sk, IntVal n) s -> 0 <= n < 2 ^ 1000.

(** ** The characters of the JSON output *)

(** Text of the ASCII range. *)
Definition ascii_text (s : pystr) : Prop := Forall (fun c => (c < 128)%N) s.

(** The floats of a document are binary64 numbers. *)
Fixpoint canonical_floats (v : json) : bool :=
  match v with
  | JInt _ => true
  | JFloat x => canonical x
  | JDict items => forallb (fun kv => canonical_floats (snd kv)) items
  end.

(** A file whose name is not ASCII, analysed in every mode. *)
Definition accent_os : os_env := {|
  isfile := fun _ => true;
  isdir := fun _ => false;
  read_file := fun _ _ => inl two_words;
  open_write := fun _ => None;
  write_text := fun _ _ => None;
  walk := fun _ => [];
  glob := fun p _ => [p];
  path_join := fun a b => a ++ lit "/" ++ b;
  set_order := fun l => l;
  stdout_encodes := fun _ => true;
  encode_error := fun _ => lit "codec can't encode character"
|}.

Definition accent_args : arguments := {|
  args_files := [[233%N; 128512%N] ++ lit ".txt"];
  args_mode := [m_all; m_stats];
  args_verbose := false;
  args_recursive := false;
  args_format := fmt_json;
  args_output := None;
  args_encoding := None;
  args_ext := None
|}.

(** ** The two versions of the program *)

(** The metric that a mode of the first version counts. *)
Definition key_of_mode (m : analysis_mode) : option metric_key :=
  match m with
  | m_lines => Some k_lines
  | m_words => Some k_words
  | m_chars => Some k_chars
  | _ => None
  end.

(** ** The counters of a concatenation *)

(** The counters of a content, as mode [all] gives them. *)
Definition all_counters (lines words chars : Z) : FileMetrics :=
  [ (k_lines, Scalar lines); (k_words, Scalar words); (k_chars, Scalar chars) ].

(** ** The text format *)

(** A number of hundredths [r] is the one of the float [x], of absolute
    value [p / q], when it is the integer nearest to [100 * p / q], the
    even one of the two when both are as near. *)
Definition hundredths (x : float) (r : Z) : Prop :=
  2 * Z.abs (100 * fst (ratio_of x) - r * snd (ratio_of x)) <= snd (ratio_of x)
  /\ (2 * Z.abs (100 * fst (ratio_of x) - r * snd (ratio_of x))
      = snd (ratio_of x) ->
      Z.even r = true).

(** The text of a number of hundredths: the sign, the whole part, a
    point and two digits. *)
Definition two_decimals (neg : bool) (r : Z) : pystr :=
  (if neg then lit "-" else []) ++ str_of_Z (r / 100) ++ lit "."
  ++ [digit_char (r mod 100 / 10); digit_char (r mod 10)].

(** The text of a value of the stats block: its hundredths for a
    [float]; for an [int], those of the [float] it is converted to, which
    are the [int] itself followed by [.00] below 2^53. *)
Definition shown_as (x : number) (v : pystr) : Prop :=
  match x with
  | FloatVal f => exists r, hundredths f r /\ v = two_decimals (f_neg f) r
  | IntVal n =>
      (exists y r,
         of_int n = Ok y /\ hundredths y r /\ v = two_decimals (f_neg y) r)
      /\ (0 <= n < 2 ^ 53 -> v = str_of_Z n ++ lit ".00")
  end.

(** The lines of a metric in the text format: a scalar on one line after
    two spaces; a stats block under a sub-header after one space, each
    of its values on a line after four spaces, with two decimals. *)
Definition metric_block (kv : metric_key * metric_value) (block : list pystr)
  : Prop :=
  match snd kv with
  | Scalar n =>
      block = [lit "  " ++ capitalize (metric_name (fst kv)) ++ lit ": "
               ++ str_of_Z n]
  | Nested s =>
      exists inner,
        block = (lit " " ++ capitalize (metric_name (fst kv)) ++ lit ":") :: inner
        /\ Forall2
             (fun sv line =>
                exists v,
                  shown_as (snd sv) v
                  /\ line = lit "    " ++ stat_name (fst sv) ++ lit ": " ++ v)
             s inner
  end.

(** The lines of a file in the text format. *)
Definition file_block (kv : pystr * FileMetrics) (ls : list pystr) : Prop :=
  exists blocks,
    ls = (lit "Results for '" ++ fst kv ++ lit "':") :: List.concat blocks
    /\ Forall2 metric_block (snd kv) blocks.

(** ** Verbosity *)

(** The same command line with another verbosity. *)
Definition with_verbose (args : arguments) (v : bool) : arguments := {|
  args_files := args_files args;
  args_mode := args_mode args;
  args_verbose := v;
  args_recursive := args_recursive args;
  args_format := args_format args;
  args_output := args_output args;
  args_encoding := args_encoding args;
  args_ext := args_ext args
|}.

(** ** The loop over the files *)

(** The loop goes through a file when its lines can be printed and its
    analysis raises nothing. *)
Definition passes (os : os_env) (args : arguments) (f : pystr) : Prop :=
  forallb (printable os) (console_of_file os args f) = true
  /\ (readable os (args_encoding args) f = true ->
      file_metrics os args f <> None).

(** The results that the loop collects. *)
Definition collect (os : os_env) (args : arguments) (files : list pystr)
    (acc : ResultSet) : ResultSet :=
  fold_left (fun acc f =>
               match file_metrics os args f with
               | Some r => dict_set PyStr.eqb acc f r
               | None => acc
               end) files acc.

(** ** What the standard output cannot encode *)

(** The name of a file whose bytes are not UTF-8: the byte [0xff] is
    decoded as the lone surrogate [U+DCFF]. *)
Definition undecodable_name : pystr := [56575%N] ++ lit ".txt".

(** A directory with [a.txt] and a file of that name that cannot be
    decoded either; the standard output is in UTF-8, which has every
    character but the surrogates. *)
Definition strict_os : os_env := {|
  isfile := fun _ => true;
  isdir := fun _ => false;
  read_file := fun f _ =>
    if PyStr.eqb f (lit "a.txt") then inl three_lines
    else inr (lit "invalid start byte");
  open_write := fun _ => None;
  write_text := fun _ _ => None;
  walk := fun _ => [];
  glob := fun _ _ => [undecodable_name; lit "a.txt"];
  path_join := fun a b => a ++ lit "/" ++ b;
  set_order := fun l => l;
  stdout_encodes := fun c => negb ((55296 <=? c) && (c <=? 57343))%N;
  encode_error := fun _ => lit "'utf-8' codec can't encode character"
|}.

Definition two_files_args : arguments := {|
  args_files := [lit "*.txt"];
  args_mode := [m_lines];
  args_verbose := false;
  args_recursive := false;
  args_format := fmt_json;
  args_output := None;
  args_encoding := None;
  args_ext := None
|}.

(** ** The results of a run as a JSON document *)

(** The metrics of the content [two_words] in every mode. *)
Definition two_words_metrics : FileMetrics :=
  [ (k_lines, Scalar 2); (k_words, Scalar 2); (k_chars, Scalar 14);
    (k_stats, Nested two_words_stats) ].

(** A directory with [a.txt], whose content is [two_words], and [b.txt],
    which cannot be decoded. *)
Definition stats_os : os_env := {|
  isfile := fun f => PyStr.eqb f (lit "a.txt") || PyStr.eqb f (lit "b.txt");
  isdir := fun _ => false;
  read_file := fun f _ =>
    if PyStr.eqb f (lit "a.txt") then inl two_words
    else inr (lit "invalid start byte");
  open_write := fun _ => None;
  write_text := fun _ _ => None;
  walk := fun _ => [];
  glob := fun _ _ => [lit "b.txt"; lit "a.txt"];
  path_join := fun a b => a ++ lit "/" ++ b;
  set_order := fun l => l;
  stdout_encodes := fun _ => true;
  encode_error := fun _ => lit "codec can't encode character"
|}.

Definition stats_args : arguments := {|
  args_files := [lit "*.txt"];
  args_mode := [m_all; m_stats];
  args_verbose := false;
  args_recursive := false;
  args_format := fmt_json;
  args_output := None;
  args_encoding := None;
  args_ext := None
|}.

(** ** The end of a run *)

(** A command line that saves the CSV output. *)
Definition saving_args : arguments := {|
  args_files := [lit "*.txt"];
  args_mode := [m_lines; m_words];
  args_verbose := false;
  args_recursive := false;
  args_format := fmt_csv;
  args_output := Some (lit "out.txt");
  args_encoding := None;
  args_ext := None
|}.

(** * Properties *)

(** ** Dictionaries and the counting primitives *)

Section DictFacts.
Context {K V : Type} (key_eqb : K -> K -> bool).
Hypothesis key_eqb_spec : forall a b, key_eqb a b = true <-> a = b.

Lemma key_eqb_refl : forall a, key_eqb a a = true.
Proof. intros a. now apply key_eqb_spec. Qed.

Lemma key_eqb_neq : forall a b, a <> b -> key_eqb a b = false.
Proof.
  intros a b Hab. destruct (key_eqb a b) eqn:E; [|reflexivity].
  apply key_eqb_spec in E. contradiction.
Qed.

Lemma dict_get_set_same : forall (d : dict K V) k v,
  dict_get key_eqb (dict_set key_eqb d k v) k = Some v.
Proof.
  induction d as [|[k' v'] d IH]; intros k v; simpl.
  - now rewrite key_eqb_refl.
  - destruct (key_eqb k' k) eqn:E; simpl; rewrite E; auto.
Qed.

Lemma dict_get_set_other : forall (d : dict K V) k k' v,
  k <> k' ->
  dict_get key_eqb (dict_set key_eqb d k v) k' = dict_get key_eqb d k'.
Proof.
  induction d as [|[k0 v0] d IH]; intros k k' v Hne; simpl.
  - now rewrite (key_eqb_neq _ _ Hne).
  - destruct (key_eqb k0 k) eqn:E; simpl.
    + apply key_eqb_spec in E. subst k0.
      now rewrite (key_eqb_neq _ _ Hne).
    + destruct (key_eqb k0 k'); auto.
Qed.

Lemma dict_get_in_keys : forall (d : dict K V) k,
  In k (dict_keys d) <-> dict_get key_eqb d k <> None.
Proof.
  induction d as [|[k0 v0] d IH]; intros k; simpl.
  - split; [tauto | congruence].
  - destruct (key_eqb k0 k) eqn:E.
    + apply key_eqb_spec in E. split; [congruence | auto].
    + rewrite <- IH. split; [intros [H|H]; auto | auto].
      subst k0. now rewrite key_eqb_refl in E.
Qed.

Lemma dict_set_keys_fresh : forall (d : dict K V) k v,
  ~ In k (dict_keys d) ->
  dict_set key_eqb d k v = d ++ [(k, v)].
Proof.
  induction d as [|[k0 v0] d IH]; intros k v Hnin; simpl in *.
  - reflexivity.
  - rewrite key_eqb_neq by tauto. f_equal. apply IH. tauto.
Qed.

End DictFacts.

Lemma metric_eqb_spec : forall a b, metric_eqb a b = true <-> a = b.
Proof. intros [] []; simpl; split; congruence. Qed.

Lemma mode_eqb_spec : forall a b, mode_eqb a b = true <-> a = b.
Proof. intros [] []; simpl; split; congruence. Qed.

Lemma stat_eqb_spec : forall a b, stat_eqb a b = true <-> a = b.
Proof. intros [] []; simpl; split; congruence. Qed.

Lemma pystr_eqb_spec : forall a b, PyStr.eqb a b = true <-> a = b.
Proof.
  intros a b. unfold PyStr.eqb.
  destruct (list_eq_dec N.eq_dec a b); split; congruence.
Qed.

Lemma mode_in_spec : forall m modes, mode_in m modes = true <-> In m modes.
Proof.
  intros m modes. unfold mode_in. rewrite existsb_exists. split.
  - intros [x [Hin Heq]]. apply mode_eqb_spec in Heq. now subst.
  - intros Hin. exists m. split; [assumption | now apply mode_eqb_spec].
Qed.

(** What [analyze_content] stores under each key. *)
Lemma analyze_content_get : forall modes content m,
  analyze_content modes content = Ok m ->
  dict_get metric_eqb m k_lines
    = (if wants m_lines modes then Some (Scalar (count NL content + 1)) else None)
  /\ dict_get metric_eqb m k_words
    = (if wants m_words modes then Some (Scalar (len_list (split content))) else None)
  /\ dict_get metric_eqb m k_chars
    = (if wants m_chars modes then Some (Scalar (len content)) else None)
  /\ (if mode_in m_stats modes
      then exists s, compute_stats content = Ok s
                     /\ dict_get metric_eqb m k_stats = Some (Nested s)
      else dict_get metric_eqb m k_stats = None).
Proof.
  intros modes content m. unfold analyze_content, wants.
  destruct (mode_in m_lines modes || mode_in m_all modes);
    destruct (mode_in m_words modes || mode_in m_all modes);
    destruct (mode_in m_chars modes || mode_in m_all modes);
    destruct (mode_in m_stats modes); simpl;
    try (destruct (compute_stats content) as [s|e]; simpl; [|discriminate]);
    intros H; injection H as <-; simpl;
    repeat split; try reflexivity; eexists; split; reflexivity.
Qed.

(** ** Lines *)

Lemma only_newlines_cons : forall c s,
  only_newlines (c :: s) ->
  (is_linebreak c = true -> c = NL) /\ only_newlines s.
Proof.
  intros c s H. split.
  - apply H. now left.
  - intros d Hd. apply H. now right.
Qed.

Lemma splitlines_from_length : forall s cur,
  only_newlines s ->
  len_list (splitlines_from cur s)
  = count NL s + (if open_line cur s then 1 else 0).
Proof.
  unfold len_list.
  induction s as [|c s IH]; intros cur Hs.
  - destruct cur; reflexivity.
  - apply only_newlines_cons in Hs as [Hc Hs].
    cbn [splitlines_from count open_line].
    destruct (is_linebreak c) eqn:Elb.
    + rewrite (Hc eq_refl). cbn [N.eqb Pos.eqb NL CR andb].
      destruct s as [|d s'].
      * reflexivity.
      * cbn [List.length]. rewrite Nat2Z.inj_succ.
        rewrite (IH [] Hs). change (NL =? NL)%N with true. lia.
    + assert (Hne : (c =? NL)%N = false).
      { destruct (c =? NL)%N eqn:E; [|reflexivity].
        apply N.eqb_eq in E. subst c. discriminate. }
      rewrite Hne. rewrite (IH _ Hs). lia.
Qed.

Lemma open_line_ends_newline : forall s cur, open_line cur (s ++ [NL]) = false.
Proof.
  induction s as [|c s IH]; intros cur; simpl.
  - reflexivity.
  - destruct (c =? NL)%N; apply IH.
Qed.

Lemma open_line_ends_other : forall s cur c,
  c <> NL -> open_line cur (s ++ [c]) = true.
Proof.
  induction s as [|d s IH]; intros cur c Hc; simpl.
  - apply N.eqb_neq in Hc. rewrite Hc. now destruct cur.
  - destruct (d =? NL)%N; now apply IH.
Qed.

(** C1: whenever the lines metric is requested, [analyze_file] stores
    under [lines] the number of newline characters of the content plus
    one.  When the newline is the only line boundary in the content, this
    is the number of lines of a non-empty content that does not end with
    a newline, and one more than the number of lines of a content that
    ends with a newline. *)
Theorem lines_metric_is_newlines_plus_one :
  forall modes content m,
    wants m_lines modes = true ->
    analyze_content modes content = Ok m ->
    dict_get metric_eqb m k_lines = Some (Scalar (count NL content + 1))
    /\ (forall body c,
          content = body ++ [c] -> c <> NL -> only_newlines content ->
          count NL content + 1 = len_list (splitlines content))
    /\ (forall body,
          content = body ++ [NL] -> only_newlines content ->
          count NL content + 1 = len_list (splitlines content) + 1).
Proof.
  intros modes content m Hw Hm.
  apply analyze_content_get in Hm as [Hl _]. rewrite Hw in Hl.
  split; [exact Hl|]. unfold splitlines. split.
  - intros body c -> Hc Hs. rewrite (splitlines_from_length _ _ Hs).
    now rewrite open_line_ends_other.
  - intros body -> Hs. rewrite (splitlines_from_length _ _ Hs).
    rewrite open_line_ends_newline. lia.
Qed.

Lemma lines_metric_is_newlines_plus_one_witness :
  dict_get metric_eqb [(k_lines, Scalar 3)] k_lines = Some (Scalar 3)
  /\ count NL three_lines + 1 = len_list (splitlines three_lines).
Proof.
  destruct (lines_metric_is_newlines_plus_one [m_lines] three_lines
              [(k_lines, Scalar 3)] eq_refl eq_refl) as (H1 & H2 & _).
  split; [exact H1|].
  apply (H2 (lit "one" ++ [NL] ++ lit "two" ++ [NL] ++ lit "thre") 101%N eq_refl).
  - discriminate.
  - intros c Hin Hc. unfold three_lines in Hin. simpl in Hin.
    repeat (destruct Hin as [<- | Hin]; [try reflexivity; discriminate Hc|]).
    contradiction.
Defined.

(** C1 without the condition on the line boundaries: a form feed ends a
    line for [str.splitlines] and is no newline, so the content [a], form
    feed, [b], which is not empty and does not end with a newline, has
    two lines and a lines metric of one. *)
Lemma lines_metric_misses_a_form_feed :
  form_feed_content <> []
  /\ last form_feed_content NL <> NL
  /\ analyze_content [m_lines] form_feed_content = Ok [(k_lines, Scalar 1)]
  /\ splitlines form_feed_content = [lit "a"; lit "b"]
  /\ count NL form_feed_content + 1 <> len_list (splitlines form_feed_content).
Proof.
  split; [discriminate|]. split; [discriminate|].
  split; [reflexivity|]. split; [reflexivity|]. discriminate.
Qed.

(** ** Words *)

Lemma flush_length : forall w rest,
  len_list (flush w rest) = (if truthy w then 1 else 0) + len_list rest.
Proof.
  intros [|c w] rest; unfold len_list; cbn [flush truthy List.length];
    rewrite ?Nat2Z.inj_succ; lia.
Qed.

Lemma split_from_count : forall s w,
  len_list (split_from w s)
  = (if truthy w then 1 else 0) + token_starts (negb (truthy w)) s.
Proof.
  induction s as [|c s IH]; intros w; simpl.
  - rewrite flush_length. destruct w; reflexivity.
  - destruct (isspace c) eqn:Ec; simpl.
    + rewrite flush_length, IH. simpl. rewrite andb_false_r. lia.
    + rewrite IH. rewrite andb_true_r.
      assert (Ht : truthy (w ++ [c]) = true) by now destruct w.
      rewrite Ht. simpl. destruct (truthy w); simpl; lia.
Qed.

Lemma split_is_token_count : forall s, len_list (split s) = token_count s.
Proof.
  intros s. unfold split, token_count. now rewrite split_from_count.
Qed.

Lemma split_from_after : forall a w b v x,
  isspace v = true -> isspace x = true ->
  split_from w (a ++ v :: x :: b) = split_from w (a ++ v :: b).
Proof.
  induction a as [|c a IH]; intros w b v x Hv Hx; simpl.
  - now rewrite Hv, Hx.
  - destruct (isspace c); [f_equal|]; now apply IH.
Qed.

Lemma split_from_before : forall a w b v x,
  isspace v = true -> isspace x = true ->
  split_from w (a ++ x :: v :: b) = split_from w (a ++ v :: b).
Proof.
  induction a as [|c a IH]; intros w b v x Hv Hx; simpl.
  - now rewrite Hv, Hx.
  - destruct (isspace c); [f_equal|]; now apply IH.
Qed.

Lemma split_from_trailing : forall c w x,
  isspace x = true -> split_from w (c ++ [x]) = split_from w c.
Proof.
  induction c as [|d c IH]; intros w x Hx; simpl.
  - now rewrite Hx.
  - destruct (isspace d); [f_equal|]; now apply IH.
Qed.

(** Added whitespace leaves the tokens themselves unchanged. *)
Lemma split_ws_extends : forall c c', ws_extends c c' -> split c' = split c.
Proof.
  unfold split. induction 1 as [c|c x Hx|c x Hx|a b v x Hv Hx|a b v x Hv Hx|c1 c2 c3 _ IH1 _ IH2].
  - reflexivity.
  - simpl. now rewrite Hx.
  - now apply split_from_trailing.
  - now apply split_from_after.
  - now apply split_from_before.
  - congruence.
Qed.

(** C6: the [words] metric is the number of maximal whitespace-delimited
    tokens of the content, and it is the same for a content and for any
    variant of it with more whitespace in its whitespace runs, in front
    or at the end. *)
Theorem words_metric_whitespace_invariant :
  forall modes c c' m m',
    wants m_words modes = true ->
    ws_extends c c' ->
    analyze_content modes c = Ok m ->
    analyze_content modes c' = Ok m' ->
    dict_get metric_eqb m k_words = Some (Scalar (token_count c))
    /\ dict_get metric_eqb m' k_words = dict_get metric_eqb m k_words.
Proof.
  intros modes c c' m m' Hw Hext Hm Hm'.
  apply analyze_content_get in Hm as [_ [Hm _]].
  apply analyze_content_get in Hm' as [_ [Hm' _]].
  rewrite Hw in Hm, Hm'. rewrite Hm, Hm'.
  rewrite (split_ws_extends _ _ Hext), split_is_token_count. auto.
Qed.

Lemma words_metric_whitespace_invariant_witness :
  dict_get metric_eqb [(k_words, Scalar 2)] k_words = Some (Scalar 2)
  /\ dict_get metric_eqb [(k_words, Scalar 2)] k_words
     = dict_get metric_eqb [(k_words, Scalar 2)] k_words.
Proof.
  refine (words_metric_whitespace_invariant [m_words]
            (lit "ab" ++ 32%N :: lit "cd")
            (lit "ab" ++ 32%N :: 9%N :: lit "cd")
            [(k_words, Scalar 2)] [(k_words, Scalar 2)]
            eq_refl _ eq_refl eq_refl).
  apply (ws_after (lit "ab") (lit "cd") 32%N 9%N); reflexivity.
Defined.

(** ** Division *)

Lemma binade_upper : forall p q, binade p q <= Z.log2 p - Z.log2 q.
Proof.
  intros p q. unfold binade.
  destruct (scale p q (Z.log2 p - Z.log2 q)) as [n d].
  destruct (n <? d); lia.
Qed.

(** A quotient of moderate size is in the range of [float]. *)
Lemma round_ratio_in_range : forall neg p q,
  0 <= p < 2 ^ 1000 -> 0 < q ->
  exists x, round_ratio neg p q = Some x.
Proof.
  intros neg p q Hp Hq. unfold round_ratio.
  destruct (p =? 0) eqn:Ep; [eauto|].
  apply Z.eqb_neq in Ep.
  assert (Hb : binade p q <= 999).
  { pose proof (binade_upper p q) as Hu.
    pose proof (Z.log2_nonneg q) as Hlq.
    assert (Z.log2 p < 1000) by (apply Z.log2_lt_pow2; lia). lia. }
  destruct (scale p q (Z.max (binade p q - 52) emin)) as [n d].
  unfold emin, emax in *.
  destruct (rne n d =? 2 ^ 53);
    match goal with
    | |- context [971 <? ?e] =>
        assert (He : (971 <? e) = false) by (apply Z.ltb_ge; lia); rewrite He
    end; eauto.
Qed.

Lemma truediv_in_range : forall a b,
  0 <= a < 2 ^ 1000 -> 0 < b -> exists x, truediv a b = Ok x.
Proof.
  intros a b Ha Hb. unfold truediv.
  assert (Eb : (b =? 0) = false) by (apply Z.eqb_neq; lia). rewrite Eb.
  rewrite (Z.abs_eq a), (Z.abs_eq b) by lia.
  destruct (round_ratio_in_range (xorb (a <? 0) (b <? 0)) a b Ha Hb) as [x Hx].
  rewrite Hx. eauto.
Qed.

(** Division by zero is the only source of [ZeroDivisionError]. *)
Lemma truediv_zero_division : forall a b,
  truediv a b = Raise ZeroDivisionError <-> b = 0.
Proof.
  intros a b. unfold truediv. destruct (b =? 0) eqn:Eb.
  - apply Z.eqb_eq in Eb. tauto.
  - apply Z.eqb_neq in Eb.
    destruct (round_ratio _ _ _); split; intros H; try discriminate; contradiction.
Qed.

Lemma sum_from : forall l a, fold_left Z.add l a = a + sum l.
Proof.
  unfold sum. induction l as [|x l IH]; intros a; simpl.
  - lia.
  - rewrite IH, (IH x). lia.
Qed.

Lemma sum_cons : forall x l, sum (x :: l) = x + sum l.
Proof. intros x l. unfold sum at 1. simpl. apply sum_from. Qed.

Lemma len_app : forall a b, len (a ++ b) = len a + len b.
Proof. intros a b. unfold len. rewrite length_app. lia. Qed.

Lemma len_nonneg : forall s, 0 <= len s.
Proof. intros s. unfold len. lia. Qed.

Lemma sum_flush : forall w rest,
  sum (map len (flush w rest)) = len w + sum (map len rest).
Proof.
  intros [|c w] rest; simpl.
  - reflexivity.
  - now rewrite sum_cons.
Qed.

Lemma sum_len_nonneg : forall l : list pystr, 0 <= sum (map len l).
Proof.
  induction l as [|s l IH]; simpl.
  - reflexivity.
  - rewrite sum_cons. pose proof (len_nonneg s). lia.
Qed.

Lemma split_from_total_length : forall s w,
  sum (map len (split_from w s)) <= len w + len s.
Proof.
  induction s as [|c s IH]; intros w; simpl.
  - rewrite sum_flush. unfold sum, len. simpl. lia.
  - change (c :: s) with ([c] ++ s). rewrite len_app.
    assert (len [c] = 1) by reflexivity.
    destruct (isspace c).
    + rewrite sum_flush. specialize (IH []). change (len []) with 0 in IH. lia.
    + specialize (IH (w ++ [c])). rewrite len_app in IH. lia.
Qed.

Lemma splitlines_from_total_length : forall s cur,
  sum (map len (splitlines_from cur s)) <= len cur + len s.
Proof.
  intros s. remember (List.length s) as n eqn:Hn.
  revert s Hn. induction n as [n IH] using lt_wf_ind. intros s Hn cur.
  destruct s as [|c s]; cbn [splitlines_from].
  - rewrite sum_flush. unfold sum, len. simpl. lia.
  - change (c :: s) with ([c] ++ s). rewrite len_app.
    assert (len [c] = 1) by reflexivity.
    destruct (is_linebreak c).
    + cbn [map]. rewrite sum_cons. destruct s as [|d s'].
      * unfold sum. simpl. pose proof (len_nonneg cur). lia.
      * change (d :: s') with ([d] ++ s'). rewrite len_app.
        assert (len [d] = 1) by reflexivity.
        change ([d] ++ s') with (d :: s').
        destruct ((c =? CR) && (d =? NL))%N.
        -- assert (Hs : sum (map len (splitlines_from [] s')) <= len [] + len s').
           { apply (IH (List.length s')); [simpl in Hn; lia | reflexivity]. }
           change (len []) with 0 in Hs. lia.
        -- assert (Hs : sum (map len (splitlines_from [] (d :: s')))
                        <= len [] + len (d :: s')).
           { apply (IH (List.length (d :: s'))); [simpl in Hn; simpl; lia | reflexivity]. }
           change (d :: s') with ([d] ++ s') in Hs at 2. rewrite len_app in Hs.
           change (len []) with 0 in Hs. lia.
    + assert (Hs : sum (map len (splitlines_from (cur ++ [c]) s))
                   <= len (cur ++ [c]) + len s).
      { apply (IH (List.length s)); [simpl in Hn; lia | reflexivity]. }
      rewrite len_app in Hs. lia.
Qed.

(** On a content that fits in memory the stats block is computed. *)
Lemma compute_stats_total : forall content,
  len content < 2 ^ 63 -> exists s, compute_stats content = Ok s.
Proof.
  intros content Hlen. unfold compute_stats.
  pose proof (splitlines_from_total_length content []) as Hl.
  pose proof (split_from_total_length content []) as Hw.
  pose proof (sum_len_nonneg (splitlines content)) as Hl0.
  pose proof (sum_len_nonneg (split content)) as Hw0.
  change (len []) with 0 in Hl, Hw. fold (splitlines content) in Hl.
  fold (split content) in Hw.
  assert (H63 : 2 ^ 63 < 2 ^ 1000) by (apply Z.pow_lt_mono_r; lia).
  destruct (truediv_in_range (sum (map len (splitlines content)))
              (Z.max (len_list (splitlines content)) 1)) as [a Ha]; [lia | lia |].
  destruct (truediv_in_range (sum (map len (split content)))
              (Z.max (len_list (split content)) 1)) as [w Hw']; [lia | lia |].
  rewrite Ha, Hw'. simpl. eauto.
Qed.

Lemma analyze_content_total : forall modes content,
  len content < 2 ^ 63 -> exists m, analyze_content modes content = Ok m.
Proof.
  intros modes content Hlen. unfold analyze_content.
  destruct (mode_in m_stats modes); [|eauto].
  destruct (compute_stats_total content Hlen) as [s Hs]. rewrite Hs.
  simpl. eauto.
Qed.

(** ** The stats block *)

Lemma max_one_guard : forall {A} (l : list A),
  Z.max (len_list l) 1 = if len_list l =? 0 then 1 else len_list l.
Proof.
  intros A l. unfold len_list. destruct (Z.of_nat (List.length l) =? 0) eqn:E.
  - apply Z.eqb_eq in E. lia.
  - apply Z.eqb_neq in E. lia.
Qed.

Lemma compute_stats_no_zero_division : forall content,
  compute_stats content <> Raise ZeroDivisionError.
Proof.
  intros content. unfold compute_stats.
  destruct (truediv (sum (map len (splitlines content))) _) as [a|e] eqn:Ea; simpl.
  - destruct (truediv (sum (map len (split content))) _) as [w|e] eqn:Ew; simpl.
    + discriminate.
    + intros H. injection H as ->. apply truediv_zero_division in Ew.
      unfold len_list in Ew. lia.
  - intros H. injection H as ->. apply truediv_zero_division in Ea.
    unfold len_list in Ea. lia.
Qed.

(** C2: for an empty content the stats block holds 0.0, 0.0 and 0; the
    divisor of each average is the number of lines (of words), or 1 when
    there is none; and no content makes the analysis divide by zero. *)
Theorem stats_guarded_against_zero_division :
  compute_stats []
  = Ok [ (avg_line_length, FloatVal zero); (avg_words_length, FloatVal zero);
         (empty_lines, IntVal 0) ]
  /\ (forall modes, mode_in m_stats modes = true ->
        exists m, analyze_content modes [] = Ok m
          /\ dict_get metric_eqb m k_stats
             = Some (Nested [ (avg_line_length, FloatVal zero);
                              (avg_words_length, FloatVal zero);
                              (empty_lines, IntVal 0) ]))
  /\ (forall content s, compute_stats content = Ok s ->
        exists a w n,
          s = [ (avg_line_length, FloatVal a); (avg_words_length, FloatVal w);
                (empty_lines, IntVal n) ]
          /\ truediv (sum (map len (splitlines content)))
               (if len_list (splitlines content) =? 0 then 1
                else len_list (splitlines content)) = Ok a
          /\ truediv (sum (map len (split content)))
               (if len_list (split content) =? 0 then 1
                else len_list (split content)) = Ok w)
  /\ (forall modes content,
        analyze_content modes content <> Raise ZeroDivisionError).
Proof.
  split; [reflexivity|]. split; [|split].
  - intros modes Hs.
    destruct (analyze_content_total modes []) as [m Hm]; [reflexivity|].
    exists m. split; [assumption|].
    apply analyze_content_get in Hm as [_ [_ [_ Hm]]]. rewrite Hs in Hm.
    destruct Hm as [s [Hs' Hm]]. rewrite Hm.
    change (compute_stats []) with
      (Ok [ (avg_line_length, FloatVal zero); (avg_words_length, FloatVal zero);
            (empty_lines, IntVal 0) ]) in Hs'.
    now injection Hs' as <-.
  - intros content s. unfold compute_stats. rewrite !max_one_guard.
    destruct (truediv (sum (map len (splitlines content))) _) as [a|e]; simpl;
      [|discriminate].
    destruct (truediv (sum (map len (split content))) _) as [w|e]; simpl;
      [|discriminate].
    intros H. injection H as <-. eauto 7.
  - intros modes content. unfold analyze_content.
    destruct (mode_in m_stats modes); [|discriminate].
    destruct (compute_stats content) as [s|e] eqn:Es; simpl; [discriminate|].
    intros H. injection H as ->. now apply (compute_stats_no_zero_division content).
Qed.

(** ** Keys of the results *)

Lemma analyze_content_keys : forall modes content m,
  analyze_content modes content = Ok m ->
  dict_keys m
  = (if wants m_lines modes then [k_lines] else [])
    ++ (if wants m_words modes then [k_words] else [])
    ++ (if wants m_chars modes then [k_chars] else [])
    ++ (if mode_in m_stats modes then [k_stats] else []).
Proof.
  intros modes content m. unfold analyze_content, wants.
  destruct (mode_in m_lines modes || mode_in m_all modes);
    destruct (mode_in m_words modes || mode_in m_all modes);
    destruct (mode_in m_chars modes || mode_in m_all modes);
    destruct (mode_in m_stats modes); simpl;
    try (destruct (compute_stats content) as [s|e]; simpl; [|discriminate]);
    intros H; injection H as <-; reflexivity.
Qed.

Lemma wants_spec : forall k modes,
  wants k modes = true <-> In k modes \/ In m_all modes.
Proof.
  intros k modes. unfold wants. now rewrite orb_true_iff, !mode_in_spec.
Qed.

Lemma some_key_requested : forall modes,
  modes <> [] ->
  wants m_lines modes || wants m_words modes || wants m_chars modes
  || mode_in m_stats modes = true.
Proof.
  intros [|[] l] Hne; [contradiction | | | | |];
    unfold wants, mode_in; simpl; rewrite ?orb_true_r; reflexivity.
Qed.

(** C3: for a non-empty list of modes, a successful analysis returns a
    non-empty mapping whose keys are those of the requested modes:
    [lines], [words] and [chars] each when requested by name or through
    [all], and [stats] exactly when [stats] itself is requested; [all]
    alone gives [lines], [words] and [chars] and no [stats]. *)
Theorem result_keys_match_modes :
  forall modes content m,
    modes <> [] ->
    analyze_content modes content = Ok m ->
    m <> []
    /\ NoDup (dict_keys m)
    /\ (In k_lines (dict_keys m) <-> In m_lines modes \/ In m_all modes)
    /\ (In k_words (dict_keys m) <-> In m_words modes \/ In m_all modes)
    /\ (In k_chars (dict_keys m) <-> In m_chars modes \/ In m_all modes)
    /\ (In k_stats (dict_keys m) <-> In m_stats modes)
    /\ (modes = [m_all] -> dict_keys m = [k_lines; k_words; k_chars]).
Proof.
  intros modes content m Hne Hm.
  pose proof (analyze_content_keys _ _ _ Hm) as Hk.
  pose proof (some_key_requested modes Hne) as Hsome.
  rewrite <- !wants_spec, <- mode_in_spec.
  assert (Hall : modes = [m_all] -> dict_keys m = [k_lines; k_words; k_chars]).
  { intros ->. exact Hk. }
  split.
  { intros ->. simpl in Hk.
    destruct (wants m_lines modes); destruct (wants m_words modes);
      destruct (wants m_chars modes); destruct (mode_in m_stats modes);
      discriminate. }
  assert (Hmain :
    NoDup (dict_keys m)
    /\ (In k_lines (dict_keys m) <-> wants m_lines modes = true)
    /\ (In k_words (dict_keys m) <-> wants m_words modes = true)
    /\ (In k_chars (dict_keys m) <-> wants m_chars modes = true)
    /\ (In k_stats (dict_keys m) <-> mode_in m_stats modes = true)).
  { rewrite Hk. clear.
    destruct (wants m_lines modes); destruct (wants m_words modes);
      destruct (wants m_chars modes); destruct (mode_in m_stats modes);
      cbn [app];
      (split; [repeat constructor; simpl; intuition discriminate|]);
      repeat split; simpl; try tauto; intros H; intuition discriminate. }
  destruct Hmain as (H1 & H2 & H3 & H4 & H5).
  repeat (split; [assumption|]). exact Hall.
Qed.

Lemma result_keys_match_modes_witness :
  exists m, analyze_content [m_all] (lit "one two") = Ok m
            /\ dict_keys m = [k_lines; k_words; k_chars].
Proof.
  eexists. split; [reflexivity|].
  destruct (result_keys_match_modes [m_all] (lit "one two") _
              ltac:(discriminate) eq_refl) as (_ & _ & _ & _ & _ & _ & H).
  exact (H eq_refl).
Defined.

(** ** Decimal digits *)

Lemma value_of_digits_from : forall b acc,
  fold_left (fun a d => 10 * a + d) b acc
  = acc * 10 ^ Z.of_nat (List.length b) + value_of_digits b.
Proof.
  unfold value_of_digits. induction b as [|d b IH]; intros acc.
  - simpl. lia.
  - cbn [fold_left List.length]. rewrite IH, (IH (10 * 0 + d)).
    rewrite Nat2Z.inj_succ, Z.pow_succ_r by lia. lia.
Qed.

Lemma value_of_digits_app : forall a b,
  value_of_digits (a ++ b)
  = value_of_digits a * 10 ^ Z.of_nat (List.length b) + value_of_digits b.
Proof.
  intros a b. unfold value_of_digits at 1. rewrite fold_left_app.
  apply value_of_digits_from.
Qed.

Lemma value_of_digits_snoc : forall a d,
  value_of_digits (a ++ [d]) = 10 * value_of_digits a + d.
Proof.
  intros a d. rewrite value_of_digits_app.
  change (value_of_digits [d]) with (10 * 0 + d).
  change (10 ^ Z.of_nat (List.length [d])) with 10. lia.
Qed.

Lemma digits_fuel_writes : forall fuel n,
  0 <= n < 10 ^ (Z.of_nat fuel + 1) ->
  exists ds, writes n ds /\ forall acc, digits_fuel fuel n acc = ds ++ acc.
Proof.
  induction fuel as [|fuel IH]; intros n Hn.
  - exists [n]. change (10 ^ (Z.of_nat 0 + 1)) with 10 in Hn.
    split; [|reflexivity].
    unfold writes, is_digit, value_of_digits. simpl.
    repeat split; try lia; try discriminate. constructor; [lia | constructor].
  - cbn [digits_fuel]. destruct (n <? 10) eqn:E.
    + apply Z.ltb_lt in E. exists [n]. split; [|reflexivity].
      unfold writes, is_digit, value_of_digits. simpl.
      repeat split; try lia; try discriminate. constructor; [lia | constructor].
    + apply Z.ltb_ge in E.
      destruct (IH (n / 10)) as [ds [[Hd [Hv [Hne Hh]]] Hacc]].
      { split; [apply Z.div_pos; lia|].
        apply Z.div_lt_upper_bound; [lia|].
        rewrite Nat2Z.inj_succ in Hn.
        replace (Z.succ (Z.of_nat fuel) + 1) with (1 + (Z.of_nat fuel + 1)) in Hn by lia.
        rewrite Z.pow_add_r in Hn by lia. lia. }
      exists (ds ++ [n mod 10]). split.
      * unfold writes. repeat split.
        -- apply Forall_app. split; [assumption|].
           constructor; [|constructor]. unfold is_digit.
           pose proof (Z.mod_pos_bound n 10). lia.
        -- rewrite value_of_digits_snoc, Hv.
           pose proof (Z.div_mod n 10). lia.
        -- destruct ds; discriminate.
        -- intros _. destruct ds as [|d ds]; [contradiction|].
           simpl in *. apply Hh.
           apply Z.div_str_pos. lia.
      * intros acc. rewrite Hacc, <- app_assoc. reflexivity.
Qed.

Lemma digits_of_Z_writes : forall n, 0 <= n -> writes n (digits_of_Z n).
Proof.
  intros n Hn. unfold digits_of_Z.
  destruct (digits_fuel_writes (Z.to_nat (Z.log2 n)) n) as [ds [Hw Hacc]].
  - split; [assumption|].
    pose proof (Z.log2_nonneg n) as Hl. rewrite Z2Nat.id by assumption.
    destruct (Z.eq_dec n 0) as [->|Hn0].
    + reflexivity.
    + apply Z.lt_le_trans with (2 ^ (Z.log2 n + 1)).
      * replace (Z.log2 n + 1) with (Z.succ (Z.log2 n)) by lia.
        apply Z.log2_spec. lia.
      * apply Z.pow_le_mono_l. lia.
  - rewrite Hacc, app_nil_r. assumption.
Qed.

(** The characters of a written number are ASCII digits, with a minus
    sign in front of a negative number. *)
Lemma count_str_of_digits : forall c ds,
  Forall is_digit ds -> (c < 48 \/ 57 < c)%N -> count c (str_of_digits ds) = 0.
Proof.
  intros c ds Hd Hc. induction Hd as [|d ds Hd _ IH]; simpl.
  - reflexivity.
  - rewrite IH. unfold is_digit in Hd. unfold digit_char.
    assert (Hne : (Z.to_N (48 + d) =? c)%N = false).
    { apply N.eqb_neq. lia. }
    now rewrite Hne.
Qed.

Lemma count_app : forall c a b, count c (a ++ b) = count c a + count c b.
Proof.
  intros c a b. induction a as [|d a IH]; simpl; [reflexivity|]. lia.
Qed.

Lemma count_str_of_Z : forall c n,
  (c < 45 \/ 57 < c)%N -> count c (str_of_Z n) = 0.
Proof.
  intros c n Hc. unfold str_of_Z. destruct (n <? 0) eqn:E.
  - apply Z.ltb_lt in E. rewrite count_app.
    rewrite count_str_of_digits;
      [| apply (digits_of_Z_writes (- n)); lia | lia].
    assert (Hne : (45 =? c)%N = false) by (apply N.eqb_neq; lia).
    change (count c (lit "-")) with ((if (45 =? c)%N then 1 else 0) + 0).
    now rewrite Hne.
  - apply Z.ltb_ge in E.
    apply count_str_of_digits; [apply (digits_of_Z_writes n E) | lia].
Qed.

(** ** CSV output *)

Lemma csv_row_fields : forall filename data,
  csv_row filename data
  = filename ++ [COMMA] ++ csv_field data k_lines
    ++ [COMMA] ++ csv_field data k_words
    ++ [COMMA] ++ csv_field data k_chars.
Proof. reflexivity. Qed.

(** C5: the CSV output is the header row followed by one row per file in
    iteration order; the three metric columns of a row hold the file's
    values where the keys are present and are empty otherwise, so the
    stats block never shows; with the two rows of the example. *)
Theorem csv_output_rows :
  (forall results,
     formatted_output results fmt_csv
     = Ok (join [NL]
             (lit "filename,lines,words,chars"
              :: map (fun kv =>
                        fst kv ++ [COMMA] ++ csv_field (snd kv) k_lines
                        ++ [COMMA] ++ csv_field (snd kv) k_words
                        ++ [COMMA] ++ csv_field (snd kv) k_chars) results)))
  /\ (forall filename data data',
        (forall k, k <> k_stats ->
           dict_get metric_eqb data k = dict_get metric_eqb data' k) ->
        csv_row filename data = csv_row filename data')
  /\ formatted_output
       [(lit "text.txt", [(k_lines, Scalar 3); (k_words, Scalar 5); (k_chars, Scalar 20)])]
       fmt_csv
     = Ok (lit "filename,lines,words,chars" ++ [NL] ++ lit "text.txt,3,5,20")
  /\ (forall content m,
        analyze_content [m_stats] content = Ok m ->
        formatted_output [(lit "text.txt", m)] fmt_csv
        = Ok (lit "filename,lines,words,chars" ++ [NL] ++ lit "text.txt,,,")).
Proof.
  split; [|split; [|split]].
  - intros results. reflexivity.
  - intros filename data data' H. rewrite !csv_row_fields. unfold csv_field.
    now rewrite !H by discriminate.
  - reflexivity.
  - intros content m Hm.
    apply analyze_content_get in Hm as (Hl & Hw & Hc & _).
    cbn in Hl, Hw, Hc.
    unfold formatted_output, format_csv. cbn [map fst snd].
    rewrite csv_row_fields. unfold csv_field. rewrite Hl, Hw, Hc. reflexivity.
Qed.

Lemma count_csv_field : forall c data k,
  scalar_counters data -> k <> k_stats -> (c < 45 \/ 57 < c)%N ->
  count c (csv_field data k) = 0.
Proof.
  intros c data k Hs Hk Hc. unfold csv_field.
  destruct (dict_get metric_eqb data k) as [v|] eqn:E; [|reflexivity].
  destruct (Hs k v Hk E) as [n ->]. now apply count_str_of_Z.
Qed.

(** C10: a CSV row is the raw file path and the fields joined by commas,
    nothing quoted or escaped: a row has three commas more than the path
    and as many newlines as the path.  So a path with a comma gets a row
    of more than four fields, and a path with a newline a row that spans
    several lines. *)
Theorem csv_fields_are_not_quoted :
  (forall filename data,
     scalar_counters data ->
     (exists rest, csv_row filename data = filename ++ rest)
     /\ count COMMA (csv_row filename data) = count COMMA filename + 3
     /\ count NL (csv_row filename data) = count NL filename)
  /\ (formatted_output [(lit "a,b.txt", [(k_lines, Scalar 1)])] fmt_csv
      = Ok (lit "filename,lines,words,chars" ++ [NL] ++ lit "a,b.txt,1,,")
      /\ count COMMA (csv_row (lit "a,b.txt") [(k_lines, Scalar 1)]) + 1 = 5)
  /\ (formatted_output [(lit "a" ++ [NL] ++ lit "b", [(k_lines, Scalar 1)])] fmt_csv
      = Ok (lit "filename,lines,words,chars" ++ [NL]
            ++ lit "a" ++ [NL] ++ lit "b,1,,")
      /\ count NL (csv_row (lit "a" ++ [NL] ++ lit "b") [(k_lines, Scalar 1)]) = 1).
Proof.
  split; [|split; split; reflexivity].
  intros filename data Hs. rewrite csv_row_fields.
  split; [eexists; reflexivity|].
  rewrite !count_app.
  rewrite !(count_csv_field COMMA), !(count_csv_field NL)
    by (try assumption; try discriminate; unfold COMMA, NL; lia).
  change (count COMMA [COMMA]) with 1. change (count NL [COMMA]) with 0.
  lia.
Qed.

(** ** Text output *)

Lemma mapM_Forall2 : forall {A B} (f : A -> result B) l bs,
  mapM f l = Ok bs -> Forall2 (fun a b => f a = Ok b) l bs.
Proof.
  intros A B f. induction l as [|a l IH]; intros bs H; simpl in H.
  - injection H as <-. constructor.
  - destruct (f a) as [b|e] eqn:Ea; simpl in H; [|discriminate].
    destruct (mapM f l) as [bs'|e]; simpl in H; [|discriminate].
    injection H as <-. constructor; auto.
Qed.

(** The two-character forms of the numbers below one hundred. *)
Lemma zfill_two_digits : forall n,
  0 <= n < 100 ->
  zfill 2 (str_of_Z n) = [digit_char (n / 10); digit_char (n mod 10)].
Proof.
  intros n Hn.
  assert (Hall : forallb
            (fun k => PyStr.eqb (zfill 2 (str_of_Z (Z.of_nat k)))
                        [digit_char (Z.of_nat k / 10); digit_char (Z.of_nat k mod 10)])
            (seq 0 100) = true) by (vm_compute; reflexivity).
  rewrite forallb_forall in Hall.
  specialize (Hall (Z.to_nat n)). rewrite Z2Nat.id in Hall by lia.
  apply pystr_eqb_spec, Hall, in_seq. lia.
Qed.

(** C4 at a file with a stats block: the sub-header that is printed has
    one space before the capitalized key, where the scalar lines have two
    and the claim asks for two. *)
Theorem text_stats_subheader_has_one_space :
  formatted_output
    [(lit "t.txt",
      [ (k_lines, Scalar 1);
        (k_stats, Nested [ (avg_line_length, FloatVal zero);
                           (avg_words_length, FloatVal zero);
                           (empty_lines, IntVal 0) ]) ])]
    fmt_text
  = Ok (join [NL]
          [ lit "Results for 't.txt':";
            lit "  Lines: 1";
            lit " Stats:";
            lit "    avg_line_length: 0.00";
            lit "    avg_words_length: 0.00";
            lit "    empty_lines: 0.00" ])
  /\ (forall key s ls,
        text_metric key (Nested s) = Ok ls ->
        hd [] ls = lit " " ++ capitalize (metric_name key) ++ lit ":"
        /\ hd [] ls <> lit "  " ++ capitalize (metric_name key) ++ lit ":").
Proof.
  split; [vm_compute; reflexivity|].
  intros key s ls H. simpl in H.
  destruct (mapM _ s) as [inner|e]; simpl in H; [|discriminate].
  injection H as <-. split; [reflexivity|].
  destruct key; vm_compute; discriminate.
Qed.

(** ** Files that cannot be read *)

Lemma print_ok : forall os text,
  printable os text = true -> print os text = ([Print text], Ok tt).
Proof. intros os text H. unfold print. now rewrite H. Qed.

Lemma readable_spec : forall os encoding f,
  readable os encoding f = false <-> unreadable os f encoding.
Proof.
  intros os encoding f. unfold readable, unreadable.
  destruct (isfile os f); cbn [andb]; [|tauto].
  destruct (read_file os f (effective_encoding encoding)) as [content|e].
  - split; [discriminate|]. intros [H | [e H]]; discriminate.
  - split; [eauto | reflexivity].
Qed.

(** A call on a file that cannot be read: the diagnostic is printed and
    [None] returned, or the print raises. *)
Lemma analyze_file_unreadable : forall os filename modes verbose encoding,
  unreadable os filename encoding ->
  analyze_file os filename modes verbose encoding
  = if printable os (diagnostic os filename encoding)
    then ([Analyze filename; Print (diagnostic os filename encoding)], Ok None)
    else ([Analyze filename], Raise UnicodeEncodeError).
Proof.
  intros os filename modes verbose encoding Hu.
  unfold analyze_file, diagnostic, print.
  destruct (isfile os filename) eqn:Ef; cbn [negb].
  - destruct Hu as [Hu | [e He]]; [congruence|]. rewrite He.
    now destruct (printable os _).
  - now destruct (printable os _).
Qed.

Lemma analyze_file_readable : forall os filename modes verbose encoding content,
  isfile os filename = true ->
  read_file os filename (effective_encoding encoding) = inl content ->
  snd (analyze_file os filename modes verbose encoding) <> Ok None.
Proof.
  intros os filename modes verbose encoding content Hf Hr.
  unfold analyze_file, print. rewrite Hf, Hr. cbn [negb].
  destruct verbose; [destruct (printable os _)|];
    destruct (analyze_content modes content); discriminate.
Qed.

Lemma analyze_file_none_iff : forall os filename modes verbose encoding,
  snd (analyze_file os filename modes verbose encoding) = Ok None
  <-> unreadable os filename encoding
      /\ printable os (diagnostic os filename encoding) = true.
Proof.
  intros os filename modes verbose encoding. split.
  - intros H.
    assert (Hu : unreadable os filename encoding).
    { unfold unreadable. destruct (isfile os filename) eqn:Ef; [|now left].
      destruct (read_file os filename (effective_encoding encoding))
        as [content|e] eqn:Er; [|right; eauto].
      now apply (analyze_file_readable _ _ modes verbose _ _ Ef) in Er. }
    split; [exact Hu|]. rewrite (analyze_file_unreadable _ _ _ _ _ Hu) in H.
    destruct (printable os _); [reflexivity | discriminate].
  - intros [Hu Hp]. now rewrite (analyze_file_unreadable _ _ _ _ _ Hu), Hp.
Qed.

(** *** The loop over the files *)

(** A call from the loop: the lines of the file are printed and the
    content analysed, unless a line cannot be printed. *)
Lemma analyze_file_spec : forall os args f,
  analyze_file os f (args_mode args) (args_verbose args) (args_encoding args)
  = if forallb (printable os) (console_of_file os args f) then
      (Analyze f :: map Print (console_of_file os args f),
       if readable os (args_encoding args) f then
         match read_file os f (effective_encoding (args_encoding args)) with
         | inl content =>
             match analyze_content (args_mode args) content with
             | Ok r => Ok (Some [(f, r)])
             | Raise e => Raise e
             end
         | inr _ => Ok None
         end
       else Ok None)
    else ([Analyze f], Raise UnicodeEncodeError).
Proof.
  intros os args f.
  unfold analyze_file, console_of_file, readable, diagnostic, verbose_line, print.
  destruct (isfile os f); cbn [negb andb].
  - destruct (read_file os f (effective_encoding (args_encoding args)))
      as [content|e].
    + destruct (args_verbose args); cbn [forallb];
        [rewrite andb_true_r; destruct (printable os _)|];
        try reflexivity;
        destruct (analyze_content (args_mode args) content); reflexivity.
    + cbn [forallb]. rewrite andb_true_r. now destruct (printable os _).
  - cbn [forallb]. rewrite andb_true_r. now destruct (printable os _).
Qed.

Lemma file_metrics_readable : forall os args f r,
  file_metrics os args f = Some r -> readable os (args_encoding args) f = true.
Proof.
  intros os args f r. unfold file_metrics, readable.
  destruct (isfile os f); [|discriminate].
  now destruct (read_file os f _).
Qed.

Lemma file_metrics_eq : forall os args f,
  file_metrics os args f
  = if readable os (args_encoding args) f then
      match read_file os f (effective_encoding (args_encoding args)) with
      | inl content =>
          match analyze_content (args_mode args) content with
          | Ok r => Some r
          | Raise _ => None
          end
      | inr _ => None
      end
    else None.
Proof.
  intros os args f. unfold file_metrics, readable.
  destruct (isfile os f); [|reflexivity]. now destruct (read_file os f _).
Qed.

Lemma analyze_all_cons : forall os args f rest acc,
  analyze_all os args (f :: rest) acc
  = if forallb (printable os) (console_of_file os args f) then
      if readable os (args_encoding args) f then
        match read_file os f (effective_encoding (args_encoding args)) with
        | inl content =>
            match analyze_content (args_mode args) content with
            | Ok r =>
                ((Analyze f :: map Print (console_of_file os args f))
                   ++ fst (analyze_all os args rest (dict_set PyStr.eqb acc f r)),
                 snd (analyze_all os args rest (dict_set PyStr.eqb acc f r)))
            | Raise e =>
                (Analyze f :: map Print (console_of_file os args f), Raise e)
            end
        | inr _ =>
            ((Analyze f :: map Print (console_of_file os args f))
               ++ fst (analyze_all os args rest acc),
             snd (analyze_all os args rest acc))
        end
      else
        ((Analyze f :: map Print (console_of_file os args f))
           ++ fst (analyze_all os args rest acc),
         snd (analyze_all os args rest acc))
    else ([Analyze f], Raise UnicodeEncodeError).
Proof.
  intros os args f rest acc. cbn [analyze_all]. unfold io_bind.
  rewrite analyze_file_spec.
  destruct (forallb (printable os) (console_of_file os args f)); [|reflexivity].
  cbn [fst snd].
  destruct (readable os (args_encoding args) f);
    [|destruct (snd (analyze_all os args rest acc)); reflexivity].
  destruct (read_file os f (effective_encoding (args_encoding args)))
    as [content|e];
    [|destruct (snd (analyze_all os args rest acc)); reflexivity].
  destruct (analyze_content (args_mode args) content) as [r|e]; [|reflexivity].
  cbn [dict_truthy dict_update fold_left fst snd].
  destruct (snd (analyze_all os args rest (dict_set PyStr.eqb acc f r)));
    reflexivity.
Qed.

(** The trace and the results of a loop that raises nothing. *)
Lemma analyze_all_spec : forall os args files acc results,
  snd (analyze_all os args files acc) = Ok results ->
  fst (analyze_all os args files acc)
  = flat_map (fun f => Analyze f :: map Print (console_of_file os args f)) files
  /\ results = collect os args files acc
  /\ Forall (passes os args) files.
Proof.
  intros os args. induction files as [|f rest IH]; intros acc results H.
  - cbn in H. injection H as <-. repeat split. constructor.
  - rewrite analyze_all_cons in H |- *. unfold collect.
    cbn [flat_map fold_left].
    pose proof (file_metrics_eq os args f) as Em.
    destruct (forallb (printable os) (console_of_file os args f)) eqn:Ep;
      [|discriminate].
    destruct (readable os (args_encoding args) f) eqn:Er.
    + destruct (read_file os f (effective_encoding (args_encoding args)))
        as [content|e] eqn:Erd.
      * destruct (analyze_content (args_mode args) content) as [r|e];
          [|discriminate].
        cbn [fst snd] in H |- *. destruct (IH _ _ H) as (Ht & Hr & Hf).
        rewrite Ht, Em. repeat split; [exact Hr|].
        constructor; [|exact Hf]. split; [exact Ep|]. now rewrite Em.
      * unfold readable in Er. rewrite Erd, andb_false_r in Er. discriminate Er.
    + cbn [fst snd] in H |- *. destruct (IH _ _ H) as (Ht & Hr & Hf).
      rewrite Ht, Em. repeat split; [exact Hr|].
      constructor; [|exact Hf]. split; [exact Ep | congruence].
Qed.

(** The loop raises nothing when it goes through every file. *)
Lemma analyze_all_ok : forall os args files acc,
  Forall (passes os args) files ->
  snd (analyze_all os args files acc) = Ok (collect os args files acc).
Proof.
  intros os args files acc H. revert acc.
  induction H as [|f rest [Hp Hm] _ IH]; intros acc; [reflexivity|].
  rewrite analyze_all_cons. unfold collect. cbn [fold_left].
  rewrite (file_metrics_eq os args f) in Hm |- *. rewrite Hp.
  destruct (readable os (args_encoding args) f); [|apply IH].
  destruct (read_file os f (effective_encoding (args_encoding args)))
    as [content|e]; [|apply IH].
  destruct (analyze_content (args_mode args) content) as [r|e];
    [apply IH | now specialize (Hm eq_refl)].
Qed.

Lemma dict_keys_set : forall (d : ResultSet) k v f,
  In f (dict_keys (dict_set PyStr.eqb d k v)) <-> In f (dict_keys d) \/ f = k.
Proof.
  induction d as [|[k0 v0] d IH]; intros k v f; simpl.
  - intuition.
  - destruct (PyStr.eqb k0 k) eqn:E; simpl.
    + apply pystr_eqb_spec in E. subst k0. intuition.
    + rewrite IH. intuition.
Qed.

Lemma collect_keys : forall os args files acc f,
  In f (dict_keys (collect os args files acc))
  <-> In f (dict_keys acc) \/ (In f files /\ file_metrics os args f <> None).
Proof.
  intros os args. unfold collect.
  induction files as [|g rest IH]; intros acc f; cbn [fold_left].
  - simpl. tauto.
  - rewrite IH. destruct (file_metrics os args g) as [r|] eqn:Em.
    + rewrite dict_keys_set. simpl. split.
      * intros [[H | ->] | [H1 H2]]; [tauto | | tauto].
        right. split; [now left | congruence].
      * intros [H | [[<- | H1] H2]]; tauto.
    + simpl. split; [tauto|]. intros [H | [[<- | H1] H2]]; tauto.
Qed.

(** The keys collected by the loop of [main]: those already there and
    the files that could be read. *)
Lemma analyze_all_keys : forall os args all_files acc results,
  snd (analyze_all os args all_files acc) = Ok results ->
  forall f,
    In f (dict_keys results)
    <-> In f (dict_keys acc)
        \/ (In f all_files /\ ~ unreadable os f (args_encoding args)).
Proof.
  intros os args all_files acc results H f.
  destruct (analyze_all_spec _ _ _ _ _ H) as (_ & -> & Hp).
  rewrite collect_keys. rewrite Forall_forall in Hp.
  assert (E : In f all_files ->
              (file_metrics os args f <> None
               <-> ~ unreadable os f (args_encoding args))).
  { intros Hin. rewrite <- readable_spec. split.
    - intros Hm Hr. apply Hm. rewrite file_metrics_eq, Hr. reflexivity.
    - intros Hr. apply (Hp f Hin).
      now destruct (readable os (args_encoding args) f). }
  split; (intros [Hacc | [Hin Hm]]; [now left | right; split; [exact Hin|]]);
    now apply (E Hin).
Qed.

(** C8: the claim holds of a file whose diagnostic the standard output
    can encode, and not otherwise.  A file that cannot be read gets one
    diagnostic that names it, [analyze_file] returns [None], the loop of
    [main] goes on with the remaining files from the same results, and
    the results hold no entry for the file.  But the diagnostic is
    printed outside any [try]: when the standard output cannot encode it,
    as with a file name that holds a byte that is not UTF-8, the print
    raises [UnicodeEncodeError], [analyze_file] returns nothing, and the
    loop ends there: the remaining files are not analysed and nothing is
    formatted. *)
Theorem unprintable_diagnostic_ends_the_run :
  main strict_os two_files_args
  = ([Analyze undecodable_name], Raise UnicodeEncodeError)
  /\ (forall os args file rest acc,
        unreadable os file (args_encoding args) ->
        printable os (diagnostic os file (args_encoding args)) = false ->
        analyze_file os file (args_mode args) (args_verbose args)
          (args_encoding args)
        = ([Analyze file], Raise UnicodeEncodeError)
        /\ analyze_all os args (file :: rest) acc
           = ([Analyze file], Raise UnicodeEncodeError))
  /\ (forall os args file rest acc,
        unreadable os file (args_encoding args) ->
        printable os (diagnostic os file (args_encoding args)) = true ->
        analyze_file os file (args_mode args) (args_verbose args)
          (args_encoding args)
        = ([Analyze file; Print (diagnostic os file (args_encoding args))],
           Ok None)
        /\ analyze_all os args (file :: rest) acc
           = (Analyze file :: Print (diagnostic os file (args_encoding args))
                :: fst (analyze_all os args rest acc),
              snd (analyze_all os args rest acc)))
  /\ (forall os file modes verbose encoding,
        snd (analyze_file os file modes verbose encoding) = Ok None
        <-> unreadable os file encoding
            /\ printable os (diagnostic os file encoding) = true)
  /\ (forall os file encoding,
        diagnostic os file encoding
        = if isfile os file then
            match read_file os file (effective_encoding encoding) with
            | inr e => lit "Error reading file '" ++ file ++ lit "': " ++ e
            | inl _ => []
            end
          else lit "Error: File '" ++ file ++ lit "' does not exist.")
  /\ (forall os args file rest results,
        unreadable os file (args_encoding args) ->
        snd (analyze_all os args (file :: rest) []) = Ok results ->
        ~ In file (dict_keys results)).
Proof.
  split; [vm_compute; reflexivity|].
  split; [|split; [|split; [|split]]].
  - intros os args file rest acc Hu Hp.
    pose proof (analyze_file_unreadable os file (args_mode args)
                  (args_verbose args) (args_encoding args) Hu) as Hf.
    rewrite Hp in Hf. split; [exact Hf|].
    cbn [analyze_all]. unfold io_bind. now rewrite Hf.
  - intros os args file rest acc Hu Hp.
    pose proof (analyze_file_unreadable os file (args_mode args)
                  (args_verbose args) (args_encoding args) Hu) as Hf.
    rewrite Hp in Hf. split; [exact Hf|].
    cbn [analyze_all]. unfold io_bind. rewrite Hf. cbn [fst snd].
    destruct (analyze_all os args rest acc) as [tr [r|e]]; reflexivity.
  - intros. apply analyze_file_none_iff.
  - reflexivity.
  - intros os args file rest results Hu H Hin.
    apply (analyze_all_keys _ _ _ _ _ H) in Hin.
    destruct Hin as [[] | [_ Hr]]. contradiction.
Qed.
(** ** No matching files *)

(** C9: when the deduplicated list of resolved files is empty, [main]
    prints that no file matches and returns: no file is analysed, nothing
    is formatted, and nothing else is printed or written. *)
Theorem no_matching_files_ends_run :
  forall os args,
    list_of_set os (resolve os args) = [] ->
    main os args = ([Print (lit "Error: No matching files found.")], Ok tt)
    /\ (forall ev, In ev (fst (main os args)) ->
          ev <> Format /\ (forall f, ev <> Analyze f)
          /\ (forall p t, ev <> Write p t)).
Proof.
  intros os args H.
  assert (E : main os args
              = ([Print (lit "Error: No matching files found.")], Ok tt)).
  { unfold main. rewrite H. reflexivity. }
  rewrite E. split; [reflexivity|].
  intros ev [<-|[]]. repeat split; intros; discriminate.
Qed.

Lemma no_matching_files_ends_run_witness :
  main empty_os sample_args
  = ([Print (lit "Error: No matching files found.")], Ok tt).
Proof.
  exact (proj1 (no_matching_files_ends_run empty_os sample_args eq_refl)).
Defined.

(** ** JSON strings *)

Lemma forall_bits_spec : forall k f,
  forall_bits k f = true -> forall n, (n < 2 ^ N.of_nat k)%N -> f n = true.
Proof.
  induction k as [|k IH]; intros f H n Hn.
  - simpl in *. assert (n = 0%N) by lia. now subst.
  - cbn [forall_bits] in H.
    rewrite Nat2N.inj_succ, N.pow_succ_r' in Hn.
    specialize (IH _ H (n / 2)%N).
    assert (Hlt : (n / 2 < 2 ^ N.of_nat k)%N) by (apply N.Div0.div_lt_upper_bound; lia).
    apply IH in Hlt. apply andb_true_iff in Hlt as [H0 H1].
    pose proof (N.div_mod n 2 ltac:(lia)) as Hdm.
    assert (Hm : (n mod 2 < 2)%N) by (apply N.mod_lt; lia).
    remember (n mod 2)%N as r eqn:Er. remember (n / 2)%N as q eqn:Eq.
    destruct (N.eq_dec r 0) as [E|E].
    + replace n with (2 * q)%N by lia. exact H0.
    + replace n with (2 * q + 1)%N by lia. exact H1.
Qed.

Lemma decode_hex4_app : forall a b c d rest,
  decode_hex4 (a :: b :: c :: d :: rest)
  = match decode_hex4 [a; b; c; d] with
    | Some (n, _) => Some (n, rest)
    | None => None
    end.
Proof.
  intros a b c d rest. unfold decode_hex4.
  destruct (hex_value a), (hex_value b), (hex_value c), (hex_value d); reflexivity.
Qed.

(** The four digits written by the encoder read back as the number. *)
Lemma decode_hex4_hex4 : forall n rest,
  (n < 65536)%N -> decode_hex4 (hex4 n ++ rest) = Some (n, rest).
Proof.
  intros n rest Hn.
  assert (Hall : forall_bits 16 (fun k => option_Neqb (decode_hex4 (hex4 k)) k) = true)
    by (vm_compute; reflexivity).
  assert (Hb : (65536 = 2 ^ N.of_nat 16)%N) by (vm_compute; reflexivity).
  rewrite Hb in Hn.
  pose proof (forall_bits_spec 16 _ Hall n Hn) as H. cbv beta in H.
  clear Hall Hb Hn.
  unfold hex4 in *. cbn [app]. rewrite decode_hex4_app.
  unfold option_Neqb in H.
  destruct (decode_hex4 _) as [[m [|? ?]]|]; try discriminate H.
  apply N.eqb_eq in H. now subst.
Qed.

Lemma join_surrogates_alone : forall uni s3,
  (is_high_surrogate uni = true -> peek_low s3 = Some false) ->
  join_surrogates uni s3 = Some (uni, s3).
Proof.
  intros uni s3 H. unfold join_surrogates.
  destruct (is_high_surrogate uni); [|reflexivity].
  specialize (H eq_refl). unfold peek_low in H.
  destruct s3 as [|b [|u s4]]; try reflexivity.
  destruct ((b =? BACKSLASH) && (u =? 117))%N; [|reflexivity].
  destruct (decode_hex4 s4) as [[uni2 s5]|]; [|discriminate H].
  injection H as ->. reflexivity.
Qed.

Lemma surrogate_pair_joins : forall n, (n < 1048576)%N -> pair_check n = true.
Proof.
  intros n Hn.
  assert (Hall : forall_bits 20 pair_check = true) by (vm_compute; reflexivity).
  assert (Hb : (1048576 = 2 ^ N.of_nat 20)%N) by (vm_compute; reflexivity).
  rewrite Hb in Hn. exact (forall_bits_spec 20 _ Hall n Hn).
Qed.

#[local] Opaque hex4.

Lemma peek_low_escape : forall c t,
  (c <? 1114112)%N = true -> is_low_surrogate c = false ->
  peek_low (escape_char c ++ t) = Some false.
Proof.
  intros c t Hc Hlow. unfold escape_char.
  destruct (c =? QUOTE)%N eqn:E1; [reflexivity|].
  destruct (c =? BACKSLASH)%N eqn:E2; [reflexivity|].
  destruct ((32 <=? c) && (c <=? 126))%N eqn:E3.
  { change ([c] ++ t) with (c :: t). unfold peek_low.
    destruct t; [reflexivity|]. now rewrite E2. }
  destruct (c =? 8)%N; [reflexivity|].
  destruct (c =? 12)%N; [reflexivity|].
  destruct (c =? 10)%N; [reflexivity|].
  destruct (c =? 13)%N; [reflexivity|].
  destruct (c =? 9)%N; [reflexivity|].
  destruct (c <? 65536)%N eqn:E4.
  - apply N.ltb_lt in E4.
    change (u_escape c ++ t) with (BACKSLASH :: 117%N :: (hex4 c ++ t)).
    unfold peek_low. change ((BACKSLASH =? BACKSLASH) && (117 =? 117))%N with true.
    cbv iota. rewrite (decode_hex4_hex4 _ _ E4). now rewrite Hlow.
  - apply N.ltb_ge in E4. apply N.ltb_lt in Hc.
    pose proof (surrogate_pair_joins (c - 65536) ltac:(lia)) as Hp.
    unfold pair_check in Hp. cbv zeta in Hp.
    set (hi := N.lor 55296 (N.land (N.shiftr (c - 65536) 10) 1023)) in *.
    set (lo := N.lor 56320 (N.land (c - 65536) 1023)) in *.
    repeat (apply andb_true_iff in Hp as [Hp ?]).
    rewrite <- app_assoc.
    change (u_escape hi ++ u_escape lo ++ t)
      with (BACKSLASH :: 117%N :: (hex4 hi ++ u_escape lo ++ t)).
    unfold peek_low. change ((BACKSLASH =? BACKSLASH) && (117 =? 117))%N with true.
    cbv iota. apply N.ltb_lt in Hp. rewrite (decode_hex4_hex4 _ _ Hp).
    f_equal. unfold is_high_surrogate, is_low_surrogate in *.
    apply andb_true_iff in H2 as [_ Hhi]. apply N.leb_le in Hhi.
    apply andb_false_iff. left. apply N.leb_gt. lia.
Qed.

Lemma scan_char_escape : forall c t,
  (c <? 1114112)%N = true ->
  (is_high_surrogate c = true -> peek_low t = Some false) ->
  scan_char (escape_char c ++ t) = Some (c, t).
Proof.
  intros c t Hc Hhigh. unfold escape_char.
  destruct (c =? QUOTE)%N eqn:E1.
  { apply N.eqb_eq in E1. subst c. reflexivity. }
  destruct (c =? BACKSLASH)%N eqn:E2.
  { apply N.eqb_eq in E2. subst c. reflexivity. }
  destruct ((32 <=? c) && (c <=? 126))%N eqn:E3.
  { change ([c] ++ t) with (c :: t). unfold scan_char. rewrite E2.
    apply andb_true_iff in E3 as [E3 _]. apply N.leb_le in E3.
    assert (E : (c <? 32)%N = false) by (apply N.ltb_ge; lia). now rewrite E. }
  destruct (c =? 8)%N eqn:E4; [apply N.eqb_eq in E4; subst c; reflexivity|].
  destruct (c =? 12)%N eqn:E5; [apply N.eqb_eq in E5; subst c; reflexivity|].
  destruct (c =? 10)%N eqn:E6; [apply N.eqb_eq in E6; subst c; reflexivity|].
  destruct (c =? 13)%N eqn:E7; [apply N.eqb_eq in E7; subst c; reflexivity|].
  destruct (c =? 9)%N eqn:E8; [apply N.eqb_eq in E8; subst c; reflexivity|].
  destruct (c <? 65536)%N eqn:E9.
  - apply N.ltb_lt in E9.
    change (u_escape c ++ t) with (BACKSLASH :: 117%N :: (hex4 c ++ t)).
    unfold scan_char, scan_escape.
    change (BACKSLASH =? BACKSLASH)%N with true. change (117 =? 117)%N with true.
    cbv iota. rewrite (decode_hex4_hex4 _ _ E9).
    now apply join_surrogates_alone.
  - apply N.ltb_ge in E9. apply N.ltb_lt in Hc.
    pose proof (surrogate_pair_joins (c - 65536) ltac:(lia)) as Hp.
    unfold pair_check in Hp. cbv zeta in Hp.
    set (hi := N.lor 55296 (N.land (N.shiftr (c - 65536) 10) 1023)) in *.
    set (lo := N.lor 56320 (N.land (c - 65536) 1023)) in *.
    apply andb_true_iff in Hp as [Hp Hsum].
    apply andb_true_iff in Hp as [Hp Hlo].
    apply andb_true_iff in Hp as [Hp Hlo'].
    apply andb_true_iff in Hp as [Hhi' Hhi].
    apply N.ltb_lt in Hhi', Hlo'. apply N.eqb_eq in Hsum.
    rewrite <- app_assoc.
    change (u_escape hi ++ u_escape lo ++ t)
      with (BACKSLASH :: 117%N :: (hex4 hi ++ BACKSLASH :: 117%N :: (hex4 lo ++ t))).
    unfold scan_char, scan_escape.
    change (BACKSLASH =? BACKSLASH)%N with true. change (117 =? 117)%N with true.
    cbv iota. rewrite (decode_hex4_hex4 _ _ Hhi').
    unfold join_surrogates. rewrite Hhi.
    change ((BACKSLASH =? BACKSLASH) && (117 =? 117))%N with true. cbv iota.
    rewrite (decode_hex4_hex4 _ _ Hlo'). rewrite Hlo. rewrite Hsum.
    do 2 f_equal. lia.
Qed.

Lemma escape_char_head : forall c t,
  exists d r, escape_char c ++ t = d :: r /\ (d =? QUOTE)%N = false.
Proof.
  intros c t. unfold escape_char.
  destruct (c =? QUOTE)%N eqn:E1; [do 2 eexists; split; reflexivity|].
  destruct (c =? BACKSLASH)%N; [do 2 eexists; split; reflexivity|].
  destruct ((32 <=? c) && (c <=? 126))%N; [do 2 eexists; split; [reflexivity|assumption]|].
  destruct (c =? 8)%N; [do 2 eexists; split; reflexivity|].
  destruct (c =? 12)%N; [do 2 eexists; split; reflexivity|].
  destruct (c =? 10)%N; [do 2 eexists; split; reflexivity|].
  destruct (c =? 13)%N; [do 2 eexists; split; reflexivity|].
  destruct (c =? 9)%N; [do 2 eexists; split; reflexivity|].
  destruct (c <? 65536)%N; do 2 eexists; split; reflexivity.
Qed.

Lemma escape_char_length : forall c, (1 <= List.length (escape_char c))%nat.
Proof.
  intros c. destruct (escape_char_head c []) as (d & r & H & _).
  rewrite app_nil_r in H. rewrite H. simpl. lia.
Qed.

Lemma flat_map_escape_length : forall s,
  (List.length s <= List.length (flat_map escape_char s))%nat.
Proof.
  induction s as [|c s IH]; simpl; [lia|].
  rewrite length_app. pose proof (escape_char_length c). lia.
Qed.

Lemma peek_low_body : forall s rest,
  unicode_text s = true ->
  match s with c' :: _ => is_low_surrogate c' | [] => false end = false ->
  peek_low (flat_map escape_char s ++ QUOTE :: rest) = Some false.
Proof.
  intros [|c' s] rest Ht Hl.
  - simpl. destruct rest; reflexivity.
  - cbn [flat_map]. rewrite <- app_assoc.
    cbn [unicode_text] in Ht.
    apply andb_true_iff in Ht as [Ht _]. apply andb_true_iff in Ht as [Ht _].
    now apply peek_low_escape.
Qed.

(** The body written by the encoder reads back as the string. *)
Lemma scan_string_encoded : forall s rest fuel,
  unicode_text s = true -> (List.length s < fuel)%nat ->
  scan_string fuel (flat_map escape_char s ++ QUOTE :: rest) = Some (s, rest).
Proof.
  induction s as [|c s IH]; intros rest fuel Ht Hf.
  - destruct fuel; [lia|]. reflexivity.
  - destruct fuel as [|fuel]; [simpl in Hf; lia|].
    cbn [flat_map]. rewrite <- app_assoc.
    set (t := flat_map escape_char s ++ QUOTE :: rest).
    destruct (escape_char_head c t) as (d & r & Hd & Hq).
    cbn [unicode_text] in Ht.
    apply andb_true_iff in Ht as [Ht Hs]. apply andb_true_iff in Ht as [Hc Hp].
    assert (Hsc : scan_char (escape_char c ++ t) = Some (c, t)).
    { apply scan_char_escape; [assumption|]. intros Hh. rewrite Hh in Hp.
      apply peek_low_body; [assumption|].
      simpl in Hp. now apply negb_true_iff in Hp. }
    rewrite Hd in *. cbn [scan_string]. rewrite Hq, Hsc.
    unfold t. rewrite IH; [reflexivity | assumption | simpl in Hf; lia].
Qed.

Lemma scan_encode_str : forall s rest,
  unicode_text s = true ->
  exists body,
    encode_str s ++ rest = QUOTE :: body
    /\ scan_string (List.length body) body = Some (s, rest).
Proof.
  intros s rest Ht. exists (flat_map escape_char s ++ QUOTE :: rest). split.
  - unfold encode_str. cbn [app]. now rewrite <- app_assoc.
  - apply scan_string_encoded; [assumption|].
    rewrite length_app. pose proof (flat_map_escape_length s). simpl. lia.
Qed.

(** ** JSON numbers *)

Lemma digit_value_digit_char : forall d,
  is_digit d -> digit_value (digit_char d) = Some d.
Proof.
  intros d Hd. unfold is_digit in Hd. unfold digit_value, digit_char.
  assert (H1 : (48 <=? Z.to_N (48 + d))%N = true) by (apply N.leb_le; lia).
  assert (H2 : (Z.to_N (48 + d) <=? 57)%N = true) by (apply N.leb_le; lia).
  rewrite H1, H2. cbn [andb]. f_equal. lia.
Qed.

Lemma digit_char_not : forall d c,
  is_digit d -> (c < 48 \/ 57 < c)%N -> (digit_char d =? c)%N = false.
Proof.
  intros d c Hd Hc. unfold is_digit in Hd. unfold digit_char.
  apply N.eqb_neq. lia.
Qed.

Lemma scan_digits_app : forall ds rest,
  Forall is_digit ds -> no_digit_next rest ->
  scan_digits (str_of_digits ds ++ rest) = (ds, rest).
Proof.
  intros ds rest Hd Hr. induction Hd as [|d ds Hd _ IH].
  - destruct rest as [|c r]; [reflexivity|]. simpl in *. now rewrite Hr.
  - cbn [str_of_digits map app scan_digits].
    rewrite (digit_value_digit_char _ Hd).
    unfold str_of_digits in IH. now rewrite IH.
Qed.

Lemma scan_int_app : forall ds rest,
  wf_int ds -> no_digit_next rest ->
  scan_int (str_of_digits ds ++ rest) = Some (ds, rest).
Proof.
  intros ds rest (Hd & Hne & Hz) Hr.
  destruct Hz as [-> | Hz]; [reflexivity|].
  destruct ds as [|d ds]; [contradiction|]. simpl in Hz.
  pose proof (Forall_inv Hd) as Hd0.
  assert (Hnz : (digit_char d =? 48)%N = false).
  { unfold digit_char, is_digit in *. apply N.eqb_neq. lia. }
  change (str_of_digits (d :: ds) ++ rest)
    with (digit_char d :: (str_of_digits ds ++ rest)).
  unfold scan_int. rewrite Hnz, (digit_value_digit_char _ Hd0).
  change (digit_char d :: (str_of_digits ds ++ rest))
    with (str_of_digits (d :: ds) ++ rest).
  now rewrite scan_digits_app.
Qed.

Lemma scan_frac_app : forall f rest,
  Forall is_digit f -> f <> [] -> no_digit_next rest ->
  scan_frac (lit "." ++ str_of_digits f ++ rest) = (Some f, rest).
Proof.
  intros f rest Hd Hne Hr.
  change (lit "." ++ str_of_digits f ++ rest)
    with (46%N :: (str_of_digits f ++ rest)).
  unfold scan_frac. change (46 =? 46)%N with true. cbv iota.
  rewrite scan_digits_app by assumption.
  destruct f; [contradiction|reflexivity].
Qed.

Lemma scan_frac_none : forall rest,
  match rest with [] => True | c :: _ => c <> 46%N end ->
  scan_frac rest = (None, rest).
Proof.
  intros [|c r] H; [reflexivity|]. unfold scan_frac.
  apply N.eqb_neq in H. now rewrite H.
Qed.

Lemma scan_exp_none : forall rest,
  match rest with [] => True | c :: _ => c <> 101%N /\ c <> 69%N end ->
  scan_exp rest = (None, rest).
Proof.
  intros [|c r] H; [reflexivity|]. unfold scan_exp. destruct H as [H1 H2].
  apply N.eqb_neq in H1, H2. now rewrite H1, H2.
Qed.

Lemma str_of_Z_nonneg : forall n,
  0 <= n -> str_of_Z n = str_of_digits (digits_of_Z n).
Proof.
  intros n Hn. unfold str_of_Z.
  assert (E : (n <? 0) = false) by (apply Z.ltb_ge; lia). now rewrite E.
Qed.

Lemma zfill_digits : forall w ds,
  zfill w (str_of_digits ds)
  = str_of_digits (repeat 0 (w - List.length ds) ++ ds).
Proof.
  intros w ds. unfold zfill, str_of_digits.
  now rewrite map_app, map_repeat, length_map.
Qed.

Lemma value_of_digits_zeros : forall k ds,
  value_of_digits (repeat 0 k ++ ds) = value_of_digits ds.
Proof.
  intros k ds. rewrite value_of_digits_app.
  assert (H : value_of_digits (repeat 0 k) = 0).
  { induction k as [|k IH]; [reflexivity|].
    change (repeat 0 (S k)) with ([0] ++ repeat 0 k).
    rewrite value_of_digits_app, IH. reflexivity. }
  rewrite H. lia.
Qed.

Lemma Forall_digit_zeros : forall k, Forall is_digit (repeat 0 k).
Proof.
  intros k. induction k; simpl; constructor; auto. unfold is_digit. lia.
Qed.

Lemma scan_exp_app : forall e rest,
  no_digit_next rest ->
  scan_exp (lit "e" ++ (if e <? 0 then lit "-" else lit "+")
            ++ zfill 2 (str_of_Z (Z.abs e)) ++ rest)
  = (Some e, rest).
Proof.
  intros e rest Hr.
  rewrite (str_of_Z_nonneg (Z.abs e)) by lia. rewrite zfill_digits.
  destruct (digits_of_Z_writes (Z.abs e) ltac:(lia)) as (Hd & Hv & Hne & _).
  set (ds := repeat 0 (2 - List.length (digits_of_Z (Z.abs e)))
             ++ digits_of_Z (Z.abs e)).
  assert (Hds : Forall is_digit ds).
  { apply Forall_app. split; [apply Forall_digit_zeros | assumption]. }
  assert (Hval : value_of_digits ds = Z.abs e).
  { unfold ds. now rewrite value_of_digits_zeros. }
  assert (Hnil : ds <> []).
  { unfold ds. intros H. apply app_eq_nil in H as [_ H]. contradiction. }
  destruct (e <? 0) eqn:E.
  - apply Z.ltb_lt in E.
    change (lit "e" ++ lit "-" ++ str_of_digits ds ++ rest)
      with (101%N :: 45%N :: (str_of_digits ds ++ rest)).
    unfold scan_exp. change ((101 =? 101) || (101 =? 69))%N with true.
    change (45 =? 45)%N with true. cbv iota.
    rewrite scan_digits_app by assumption.
    destruct ds; [contradiction|]. rewrite Hval. f_equal. f_equal. lia.
  - apply Z.ltb_ge in E.
    change (lit "e" ++ lit "+" ++ str_of_digits ds ++ rest)
      with (101%N :: 43%N :: (str_of_digits ds ++ rest)).
    unfold scan_exp. change ((101 =? 101) || (101 =? 69))%N with true.
    change (43 =? 45)%N with false. change (43 =? 43)%N with true. cbv iota.
    rewrite scan_digits_app by assumption.
    destruct ds; [contradiction|]. rewrite Hval. f_equal. f_equal. lia.
Qed.

Lemma scan_number_signed : forall neg t,
  match t with [] => True | c :: _ => c <> 45%N end ->
  scan_number ((if neg : bool then lit "-" else []) ++ t)
  = match scan_int t with
    | Some (int, s2) =>
        let '(frac, s3) := scan_frac s2 in
        let '(ex, s4) := scan_exp s3 in
        Some (mkLiteral neg int frac ex, s4)
    | None => None
    end.
Proof.
  intros [|] t Ht.
  - reflexivity.
  - destruct t as [|c r]; [reflexivity|]. cbn [app]. unfold scan_number.
    apply N.eqb_neq in Ht. now rewrite Ht.
Qed.

(** The text of a literal reads back as the literal. *)
Lemma scan_number_print : forall l rest,
  wf_literal l -> number_end rest ->
  scan_number (print_literal l ++ rest) = Some (l, rest).
Proof.
  intros [neg int frac ex] rest [Hint Hfrac] Hend. simpl in Hint, Hfrac.
  assert (Hnd : no_digit_next rest).
  { destruct rest; [exact I | apply Hend]. }
  assert (Hdot : match rest with [] => True | c :: _ => c <> 46%N end).
  { destruct rest; [exact I | apply Hend]. }
  assert (He : match rest with [] => True | c :: _ => c <> 101%N /\ c <> 69%N end).
  { destruct rest; [exact I | split; apply Hend]. }
  unfold print_literal. cbn [l_neg l_int l_frac l_exp].
  rewrite <- ?app_assoc. rewrite scan_number_signed.
  2:{ destruct Hint as (Hd & Hne & _). destruct int as [|d ds]; [contradiction|].
      pose proof (Forall_inv Hd) as Hd0. unfold is_digit in Hd0.
      cbn [str_of_digits map app]. unfold digit_char. lia. }
  destruct frac as [f|]; destruct ex as [e|].
  - destruct Hfrac as [Hf Hfne].
    rewrite scan_int_app; [|assumption|reflexivity].
    rewrite <- ?app_assoc.
    rewrite (scan_frac_app f); [|assumption|assumption|reflexivity].
    rewrite <- ?app_assoc. rewrite scan_exp_app by assumption. reflexivity.
  - destruct Hfrac as [Hf Hfne].
    rewrite scan_int_app; [|assumption|reflexivity].
    rewrite <- ?app_assoc. cbn [app].
    rewrite (scan_frac_app f); [|assumption|assumption|assumption].
    rewrite scan_exp_none by assumption. reflexivity.
  - rewrite scan_int_app; [|assumption|reflexivity].
    cbn [app]. rewrite scan_frac_none by (cbn; discriminate).
    rewrite <- ?app_assoc. rewrite scan_exp_app by assumption. reflexivity.
  - cbn [app]. rewrite scan_int_app; [|assumption|assumption].
    rewrite scan_frac_none by assumption.
    rewrite scan_exp_none by assumption. reflexivity.
Qed.

Lemma wf_int_digits : forall n, 0 <= n -> wf_int (digits_of_Z n).
Proof.
  intros n Hn. destruct (digits_of_Z_writes n Hn) as (Hd & _ & Hne & Hh).
  repeat split; try assumption.
  destruct (Z.eq_dec n 0) as [-> | Hn0]; [now left | right; apply Hh; lia].
Qed.

Lemma print_int_literal : forall n, print_literal (int_literal n) = str_of_Z n.
Proof.
  intros n. unfold print_literal, int_literal, str_of_Z.
  cbn [l_neg l_int l_frac l_exp]. rewrite !app_nil_r.
  destruct (n <? 0) eqn:E.
  - apply Z.ltb_lt in E. now rewrite Z.abs_neq by lia.
  - apply Z.ltb_ge in E. now rewrite Z.abs_eq by lia.
Qed.

Lemma number_value_int : forall n, number_value (int_literal n) = Some (JInt n).
Proof.
  intros n. unfold number_value, int_literal. cbn [l_neg l_int l_frac l_exp].
  destruct (digits_of_Z_writes (Z.abs n) ltac:(lia)) as (_ & Hv & _).
  rewrite Hv. destruct (n <? 0) eqn:E; do 2 f_equal.
  - apply Z.ltb_lt in E. lia.
  - apply Z.ltb_ge in E. lia.
Qed.

(** ** The literals of [repr] *)

Lemma drop_zeros_spec : forall l,
  exists k, l = repeat 0 k ++ drop_zeros l
            /\ match drop_zeros l with d :: _ => d <> 0 | [] => True end.
Proof.
  induction l as [|d l [k [IH1 IH2]]]; simpl.
  - exists 0%nat. auto.
  - destruct (d =? 0) eqn:E.
    + apply Z.eqb_eq in E. subst d. exists (S k). simpl. split; [now f_equal | assumption].
    + apply Z.eqb_neq in E. exists 0%nat. auto.
Qed.

Lemma rev_repeat : forall {A} (a : A) k, rev (repeat a k) = repeat a k.
Proof.
  intros A a k. induction k as [|k IH]; [reflexivity|].
  simpl. rewrite IH. clear IH. induction k; simpl; [reflexivity | now f_equal].
Qed.

(** The digits without their trailing zeros are a prefix of the digits. *)
Lemma strip_trailing_zeros_spec : forall ds,
  exists k, ds = strip_trailing_zeros ds ++ repeat 0 k.
Proof.
  intros ds. unfold strip_trailing_zeros.
  destruct (drop_zeros_spec (rev ds)) as [k [Hk _]]. exists k.
  rewrite <- (rev_involutive ds) at 1. rewrite Hk at 1.
  now rewrite rev_app_distr, rev_repeat.
Qed.

Lemma strip_leading_digits : forall ds,
  leading_digits ds -> leading_digits (strip_trailing_zeros ds).
Proof.
  intros ds (Hd & Hne & Hh). destruct (strip_trailing_zeros_spec ds) as [k Hk].
  set (st := strip_trailing_zeros ds) in *.
  rewrite Hk in Hd, Hh, Hne. apply Forall_app in Hd as [Hd _].
  destruct st as [|d st].
  - exfalso. simpl in *. destruct k; simpl in *; [now apply Hne | now apply Hh].
  - repeat split; [assumption | discriminate | exact Hh].
Qed.

Lemma digits_leading : forall n, 0 < n -> leading_digits (digits_of_Z n).
Proof.
  intros n Hn. destruct (digits_of_Z_writes n ltac:(lia)) as (Hd & _ & Hne & Hh).
  repeat split; auto.
Qed.

(** [repr] lays digits out as a well-formed literal with a fraction or an
    exponent. *)
Lemma short_literal_wf : forall neg ds decpt,
  leading_digits ds ->
  wf_literal (short_literal neg ds decpt)
  /\ is_float_literal (short_literal neg ds decpt).
Proof.
  intros neg ds decpt (Hd & Hne & Hh). unfold short_literal.
  destruct ds as [|d ds]; [contradiction|]. simpl in Hh.
  pose proof (Forall_inv Hd) as Hd0. pose proof (Forall_inv_tail Hd) as Hdt.
  assert (Hz : is_digit 0) by (unfold is_digit; lia).
  destruct ((decpt <=? -4) || (16 <? decpt)).
  { unfold wf_literal, wf_int, is_float_literal. cbn.
    repeat split; try (right; discriminate); try discriminate; auto.
    destruct ds; [exact I|]. split; [assumption | discriminate]. }
  destruct (decpt <=? 0) eqn:E0.
  { unfold wf_literal, wf_int, is_float_literal.
    cbn [l_int l_frac l_exp].
    repeat split; try (left; discriminate); try discriminate; auto.
    - apply Forall_app. split; [apply Forall_digit_zeros | assumption].
    - intros H. apply app_eq_nil in H as [_ H]. discriminate. }
  apply Z.leb_gt in E0.
  destruct (decpt <? Z.of_nat (List.length (d :: ds))) eqn:E.
  { apply Z.ltb_lt in E.
    unfold wf_literal, wf_int, is_float_literal. cbn [l_int l_frac l_exp].
    assert (Hpos : exists k, Z.to_nat decpt = S k).
    { exists (Z.to_nat decpt - 1)%nat. lia. }
    destruct Hpos as [k Hk]. rewrite Hk. cbn [firstn skipn hd].
    pose proof Hdt as Hsplit. rewrite <- (firstn_skipn k ds) in Hsplit.
    apply Forall_app in Hsplit as [Hf Hs].
    repeat split; try (left; discriminate); try discriminate; auto.
    intros H. apply (f_equal (@List.length Z)) in H.
    rewrite length_skipn in H. cbn [List.length] in H, E. lia. }
  unfold wf_literal, wf_int, is_float_literal. cbn [l_int l_frac l_exp app hd].
  repeat split; try (left; discriminate); try discriminate; auto.
  constructor; [assumption|]. apply Forall_app. split; [assumption | apply Forall_digit_zeros].
Qed.

Lemma value_of_digits_trailing_zeros : forall ds k,
  value_of_digits (ds ++ repeat 0 k) = value_of_digits ds * 10 ^ Z.of_nat k.
Proof.
  intros ds k. rewrite value_of_digits_app, repeat_length.
  replace (value_of_digits (repeat 0 k)) with 0; [lia|].
  symmetry. rewrite <- (app_nil_r (repeat 0 k)). now rewrite value_of_digits_zeros.
Qed.

(** The number a literal of [repr] denotes: its digits, shifted. *)
Lemma short_literal_value : forall neg ds decpt,
  let l := short_literal neg ds decpt in
  exists s,
    0 <= s
    /\ value_of_digits (l_int l ++ frac_digits l) = value_of_digits ds * 10 ^ s
    /\ exp_value l - Z.of_nat (List.length (frac_digits l))
       = decpt - Z.of_nat (List.length ds) - s.
Proof.
  intros neg ds decpt. unfold short_literal.
  destruct ((decpt <=? -4) || (16 <? decpt)).
  { destruct ds as [|d ds].
    - exists 1. cbn. repeat split; lia.
    - exists 0. unfold frac_digits, exp_value.
      destruct ds as [|d' ds]; cbn [l_int l_frac l_exp firstn skipn app List.length];
        rewrite ?Nat2Z.inj_succ; repeat split; lia. }
  destruct (decpt <=? 0) eqn:E0.
  { apply Z.leb_le in E0. exists 0.
    unfold frac_digits, exp_value. cbn [l_int l_frac l_exp].
    change ([0] ++ repeat 0 (Z.to_nat (- decpt)) ++ ds)
      with (repeat 0 (S (Z.to_nat (- decpt))) ++ ds).
    rewrite value_of_digits_zeros, length_app, repeat_length.
    repeat split; lia. }
  apply Z.leb_gt in E0.
  destruct (decpt <? Z.of_nat (List.length ds)) eqn:E.
  { apply Z.ltb_lt in E. exists 0.
    unfold frac_digits, exp_value. cbn [l_int l_frac l_exp].
    rewrite firstn_skipn, length_skipn. repeat split; lia. }
  apply Z.ltb_ge in E. exists (decpt - Z.of_nat (List.length ds) + 1).
  unfold frac_digits, exp_value. cbn [l_int l_frac l_exp List.length].
  rewrite <- app_assoc.
  change (repeat 0 (Z.to_nat (decpt - Z.of_nat (List.length ds))) ++ [0])
    with (repeat 0 (Z.to_nat (decpt - Z.of_nat (List.length ds))) ++ repeat 0 1).
  rewrite <- repeat_app, value_of_digits_trailing_zeros.
  repeat split; try lia. f_equal. f_equal. lia.
Qed.

Lemma float_eqb_eq : forall x y, float_eqb x y = true -> x = y.
Proof.
  intros [xn xm xe] [yn ym ye]. unfold float_eqb. cbn [f_neg f_mant f_exp].
  intros H. apply andb_true_iff in H as [H He]. apply andb_true_iff in H as [Hn Hm].
  apply Bool.eqb_prop in Hn. apply Z.eqb_eq in Hm, He. now subst.
Qed.

Lemma reads_back_eq : forall x l,
  reads_back x l = true -> float_of_literal l = Some x.
Proof.
  intros x l. unfold reads_back.
  destruct (float_of_literal l) as [y|]; [|discriminate].
  intros H. apply float_eqb_eq in H. now subst.
Qed.

Lemma float_of_decimal_zero : forall neg ex,
  float_of_decimal neg 0 ex = Some (mkFloat neg 0 emin).
Proof.
  intros neg ex. unfold float_of_decimal. destruct (0 <=? ex); reflexivity.
Qed.

(** A literal whose digits are all zero does not read back as a number
    that is not zero. *)
Lemma reads_back_no_digits : forall x neg ds decpt,
  f_mant x <> 0 -> value_of_digits ds = 0 ->
  reads_back x (short_literal neg ds decpt) = false.
Proof.
  intros x neg ds decpt Hx Hv. unfold reads_back, float_of_literal.
  destruct (short_literal_value neg ds decpt) as (s & _ & Hval & _).
  cbv zeta in Hval. rewrite Hval, Hv. cbn [Z.mul].
  rewrite float_of_decimal_zero. unfold float_eqb. cbn [f_mant].
  apply Z.eqb_neq in Hx. rewrite Hx. now rewrite andb_false_r.
Qed.

Lemma ratio_of_pos : forall x p q,
  nonneg_mantissa x -> ratio_of x = (p, q) -> 0 <= p /\ 0 < q.
Proof.
  intros x p q Hx. unfold ratio_of, scale.
  destruct (0 <=? - f_exp x) eqn:E; intros H; injection H as <- <-.
  - apply Z.leb_le in E. split; [assumption|].
    pose proof (Z.pow_pos_nonneg 2 (- f_exp x) ltac:(lia) E) as Hpow.
    destruct (2 ^ (- f_exp x)); lia.
  - apply Z.leb_gt in E. split; [|lia].
    apply Z.mul_nonneg_nonneg; [assumption | apply Z.pow_nonneg; lia].
Qed.

Lemma literal_of_candidate_ok : forall x k n c,
  f_mant x <> 0 -> 0 <= c ->
  reads_back x (literal_of_candidate (f_neg x) k n c) = true ->
  wf_literal (literal_of_candidate (f_neg x) k n c)
  /\ is_float_literal (literal_of_candidate (f_neg x) k n c).
Proof.
  intros x k n c Hx Hc Hr. unfold literal_of_candidate in *.
  destruct (Z.eq_dec c 0) as [-> | Hc0].
  - rewrite reads_back_no_digits in Hr; [discriminate | assumption | reflexivity].
  - apply short_literal_wf, strip_leading_digits, digits_leading. lia.
Qed.

Lemma candidate_ok : forall x n l,
  nonneg_mantissa x -> f_mant x <> 0 ->
  candidate x n = Some l ->
  wf_literal l /\ is_float_literal l /\ float_of_literal l = Some x.
Proof.
  intros x n l Hnn Hx. unfold candidate.
  destruct (ratio_of x) as [p q] eqn:Er.
  destruct (ratio_of_pos _ _ _ Hnn Er) as [Hp Hq].
  set (k := decimal_point p q).
  destruct (if 0 <=? k - Z.of_nat n
            then (p, q * 10 ^ (k - Z.of_nat n))
            else (p * 10 ^ (Z.of_nat n - k), q)) as [yn yd] eqn:Ey.
  assert (Hy : 0 <= yn /\ 0 < yd).
  { destruct (0 <=? k - Z.of_nat n) eqn:E; injection Ey as <- <-.
    - apply Z.leb_le in E. split; [assumption|].
      apply Z.mul_pos_pos; [assumption | apply Z.pow_pos_nonneg; lia].
    - split; [|assumption].
      apply Z.mul_nonneg_nonneg; [assumption | apply Z.pow_nonneg; lia]. }
  assert (Hlo : 0 <= yn / yd) by (apply Z.div_pos; lia).
  intros Hfind. apply find_some in Hfind as [Hin Hr].
  assert (Hc : exists c, 0 <= c /\ l = literal_of_candidate (f_neg x) k n c).
  { destruct (match 2 * (yn mod yd) ?= yd with
              | Eq => Z.even (yn / yd) | Lt => true | Gt => false end);
      simpl in Hin; destruct Hin as [<- | [<- | []]];
      eexists; (split; [|reflexivity]); lia. }
  destruct Hc as (c & Hc & ->).
  destruct (literal_of_candidate_ok x k n c Hx Hc Hr) as [Hw Hf].
  split; [assumption|]. split; [assumption|]. now apply reads_back_eq.
Qed.

Lemma first_candidate_ok : forall fuel x n l,
  nonneg_mantissa x -> f_mant x <> 0 ->
  first_candidate x n fuel = Some l ->
  wf_literal l /\ is_float_literal l /\ float_of_literal l = Some x.
Proof.
  induction fuel as [|fuel IH]; intros x n l Hnn Hx H; simpl in H.
  - discriminate.
  - destruct (candidate x n) as [l'|] eqn:Ec.
    + injection H as <-. now apply (candidate_ok x n).
    + now apply (IH x (S n)).
Qed.

(** ** Rounding a number that is a [float] *)

Lemma pow2_pos : forall a, 0 <= a -> 0 < 2 ^ a.
Proof. intros a Ha. apply Z.pow_pos_nonneg; lia. Qed.

Lemma rne_exact : forall m d, 0 < d -> rne (m * d) d = m.
Proof.
  intros m d Hd. unfold rne. rewrite Z.div_mul, Z.mod_mul by lia.
  assert (H : (2 * 0 ?= d) = Lt) by (apply Z.compare_lt_iff; lia).
  now rewrite H.
Qed.

Lemma above_pow2_shift : forall P Q b K t,
  0 <= K -> 0 <= K + b -> 0 <= t ->
  above_pow2 P Q b K <-> above_pow2 P Q b (K + t).
Proof.
  intros P Q b K t HK HKb Ht. unfold above_pow2.
  replace (K + t + b) with ((K + b) + t) by lia.
  rewrite (Z.pow_add_r 2 (K + b) t), (Z.pow_add_r 2 K t) by lia.
  pose proof (pow2_pos t Ht) as Hpt.
  rewrite !Z.mul_assoc. split; intros H.
  - apply Z.mul_le_mono_nonneg_r; [lia | exact H].
  - apply Z.mul_le_mono_pos_r in H; [exact H | exact Hpt].
Qed.

Lemma above_pow2_indep : forall P Q b K1 K2,
  0 <= K1 -> 0 <= K1 + b -> 0 <= K2 -> 0 <= K2 + b ->
  above_pow2 P Q b K1 <-> above_pow2 P Q b K2.
Proof.
  intros P Q b K1 K2 H1 H1b H2 H2b.
  destruct (Z.le_ge_cases K1 K2) as [H|H].
  - replace K2 with (K1 + (K2 - K1)) by lia. apply above_pow2_shift; lia.
  - symmetry. replace K1 with (K2 + (K1 - K2)) by lia.
    apply above_pow2_shift; lia.
Qed.

(** The test of [binade]. *)
Lemma scale_lt_above : forall P Q k n d,
  scale P Q k = (n, d) ->
  (n <? d) = false <-> above_pow2 P Q k (Z.max 0 (- k)).
Proof.
  intros P Q k n d. unfold scale, above_pow2.
  destruct (0 <=? k) eqn:E; intros H; injection H as <- <-.
  - apply Z.leb_le in E. rewrite Z.max_l by lia.
    rewrite Z.add_0_l, Z.pow_0_r, Z.mul_1_r. rewrite Z.ltb_ge. tauto.
  - apply Z.leb_gt in E. rewrite Z.max_r by lia.
    replace (- k + k) with 0 by lia. rewrite Z.pow_0_r, Z.mul_1_r.
    rewrite Z.ltb_ge. tauto.
Qed.

Lemma log2_bounds : forall a, 0 < a -> 2 ^ Z.log2 a <= a < 2 ^ (Z.log2 a + 1).
Proof.
  intros a Ha. replace (Z.log2 a + 1) with (Z.succ (Z.log2 a)) by lia.
  now apply Z.log2_spec.
Qed.

(** [binade P Q] is the integer [b] with [2^b <= P/Q < 2^(b+1)]. *)
Lemma binade_spec : forall P Q K,
  0 < P -> 0 < Q -> 0 <= K -> 0 <= K + binade P Q ->
  above_pow2 P Q (binade P Q) K /\ ~ above_pow2 P Q (binade P Q + 1) K.
Proof.
  intros P Q K HP HQ HK HKb.
  pose proof (log2_bounds P HP) as [HP1 HP2].
  pose proof (log2_bounds Q HQ) as [HQ1 HQ2].
  pose proof (Z.log2_nonneg P) as HlP. pose proof (Z.log2_nonneg Q) as HlQ.
  set (lp := Z.log2 P) in *. set (lq := Z.log2 Q) in *.
  (* with the shift [L], every exponent below is non-negative *)
  set (L := K + lp + lq + 2).
  assert (U1 : above_pow2 P Q (lp - lq - 1) L).
  { unfold above_pow2.
    apply Z.le_trans with (2 ^ (lq + 1) * 2 ^ (L + (lp - lq - 1))).
    - apply Z.mul_le_mono_nonneg_r; [apply Z.pow_nonneg; lia | lia].
    - rewrite <- Z.pow_add_r by (unfold L; lia).
      replace (lq + 1 + (L + (lp - lq - 1))) with (lp + L) by lia.
      rewrite Z.pow_add_r by (unfold L; lia).
      apply Z.mul_le_mono_nonneg_r; [apply Z.pow_nonneg; lia | lia]. }
  assert (U2 : ~ above_pow2 P Q (lp - lq + 1) L).
  { unfold above_pow2. apply Z.lt_nge.
    apply Z.lt_le_trans with (2 ^ (lp + 1) * 2 ^ L).
    - apply Z.mul_lt_mono_pos_r; [apply pow2_pos; unfold L; lia | lia].
    - rewrite <- Z.pow_add_r by (unfold L; lia).
      replace (lp + 1 + L) with (lq + (L + (lp - lq + 1))) by lia.
      rewrite Z.pow_add_r by (unfold L; lia).
      apply Z.mul_le_mono_nonneg_r; [apply Z.pow_nonneg; unfold L; lia | lia]. }
  revert HKb. unfold binade. fold lp lq.
  destruct (scale P Q (lp - lq)) as [n d] eqn:Es.
  pose proof (scale_lt_above _ _ _ _ _ Es) as Hs.
  destruct (n <? d) eqn:E; intros HKb.
  - assert (Hn : ~ above_pow2 P Q (lp - lq) (Z.max 0 (- (lp - lq)))).
    { intros H. apply Hs in H. discriminate. }
    split.
    + apply (above_pow2_indep P Q (lp - lq - 1) L K); unfold L; try lia. exact U1.
    + replace (lp - lq - 1 + 1) with (lp - lq) by lia. intros H. apply Hn.
      apply (above_pow2_indep P Q (lp - lq) K); try lia. exact H.
  - assert (Hn : above_pow2 P Q (lp - lq) (Z.max 0 (- (lp - lq)))) by now apply Hs.
    split.
    + apply (above_pow2_indep P Q (lp - lq) (Z.max 0 (- (lp - lq)))); try lia.
      exact Hn.
    + intros H. apply U2.
      apply (above_pow2_indep P Q (lp - lq + 1) K); unfold L; try lia. exact H.
Qed.

Lemma above_pow2_mono : forall P Q b1 b2 K,
  0 < Q -> 0 <= K + b1 -> b1 <= b2 ->
  above_pow2 P Q b2 K -> above_pow2 P Q b1 K.
Proof.
  intros P Q b1 b2 K HQ H1 H12. unfold above_pow2. intros H.
  apply Z.le_trans with (Q * 2 ^ (K + b2)); [|assumption].
  apply Z.mul_le_mono_nonneg_l; [lia|].
  apply Z.pow_le_mono_r; lia.
Qed.

(** The binade is determined by the two bounds. *)
Lemma binade_unique : forall P Q b K,
  0 < P -> 0 < Q -> 0 <= K -> 0 <= K + b -> 0 <= K + binade P Q ->
  above_pow2 P Q b K -> ~ above_pow2 P Q (b + 1) K ->
  binade P Q = b.
Proof.
  intros P Q b K HP HQ HK HKb HKB Ha Hn.
  destruct (binade_spec P Q K HP HQ HK HKB) as [Ba Bn].
  destruct (Z.lt_trichotomy (binade P Q) b) as [H|[H|H]]; [|assumption|].
  - exfalso. apply Bn. apply (above_pow2_mono P Q _ b K); try lia. exact Ha.
  - exfalso. apply Hn. apply (above_pow2_mono P Q _ (binade P Q) K); try lia. exact Ba.
Qed.

Lemma canonical_spec : forall x,
  canonical x = true ->
  0 <= f_mant x < 2 ^ 53 /\ emin <= f_exp x <= emax
  /\ (2 ^ 52 <= f_mant x \/ f_exp x = emin).
Proof.
  intros x H. unfold canonical in H.
  repeat (apply andb_true_iff in H as [H ?]).
  apply orb_true_iff in H0.
  rewrite ?Z.leb_le, ?Z.ltb_lt, ?Z.eqb_eq in *. tauto.
Qed.

(** The binade of a fraction equal to [m * 2^e]. *)
Lemma binade_of_float : forall m e P Q,
  0 < m -> 0 < P -> 0 < Q ->
  ratio_eq (P, Q) (scale m 1 (- e)) ->
  binade P Q = e + Z.log2 m.
Proof.
  intros m e P Q Hm HP HQ HR.
  pose proof (log2_bounds m Hm) as [Hm1 Hm2].
  pose proof (Z.log2_nonneg m) as Hlm. set (lm := Z.log2 m) in *.
  set (K := Z.abs e + Z.abs (binade P Q) + 1).
  assert (HK : 0 <= K) by (unfold K; lia).
  assert (HKe : 0 <= K + e) by (unfold K; lia).
  pose proof (pow2_pos K HK) as HA. pose proof (pow2_pos lm Hlm) as HB.
  pose proof (pow2_pos (K + e) HKe) as HA'.
  rewrite Z.pow_add_r in Hm2 by lia. change (2 ^ 1) with 2 in Hm2.
  apply (binade_unique P Q (e + lm) K); try assumption; try (unfold K; lia);
    unfold above_pow2; unfold ratio_eq, scale in HR.
  - destruct (0 <=? - e) eqn:E; cbn [fst snd] in HR.
    + apply Z.leb_le in E. pose proof (pow2_pos (- e) E) as HC.
      rewrite Z.mul_1_l in HR.
      replace (K + (e + lm)) with ((K + e) + lm) by lia.
      replace K with ((K + e) + - e) at 2 by lia.
      rewrite (Z.pow_add_r 2 (K + e) lm), (Z.pow_add_r 2 (K + e) (- e)) by lia.
      set (A := 2 ^ (K + e)) in *. set (B := 2 ^ lm) in *. set (C := 2 ^ (- e)) in *.
      replace (P * (A * C)) with ((P * C) * A) by ring. rewrite HR.
      replace (m * Q * A) with (Q * (A * m)) by ring.
      apply Z.mul_le_mono_nonneg_l; [lia|].
      apply Z.mul_le_mono_nonneg_l; lia.
    + apply Z.leb_gt in E. replace (- - e) with e in HR by lia.
      assert (He : 0 <= e) by lia. pose proof (pow2_pos e He) as HC.
      rewrite Z.mul_1_r in HR. rewrite HR.
      replace (K + (e + lm)) with (K + e + lm) by lia.
      rewrite (Z.pow_add_r 2 (K + e) lm), (Z.pow_add_r 2 K e) by lia.
      set (A := 2 ^ K) in *. set (B := 2 ^ lm) in *. set (C := 2 ^ e) in *.
      replace (m * C * Q * A) with (Q * (A * C * m)) by ring.
      replace (Q * (A * C * B)) with (Q * (A * C * B)) by ring.
      apply Z.mul_le_mono_nonneg_l; [lia|].
      apply Z.mul_le_mono_nonneg_l; [|lia].
      apply Z.mul_nonneg_nonneg; lia.
  - apply Z.lt_nge.
    destruct (0 <=? - e) eqn:E; cbn [fst snd] in HR.
    + apply Z.leb_le in E. pose proof (pow2_pos (- e) E) as HC.
      rewrite Z.mul_1_l in HR.
      replace (K + (e + lm + 1)) with ((K + e) + lm + 1) by lia.
      replace K with ((K + e) + - e) at 1 by lia.
      rewrite (Z.pow_add_r 2 (K + e + lm) 1), (Z.pow_add_r 2 (K + e) lm),
        (Z.pow_add_r 2 (K + e) (- e)) by lia.
      change (2 ^ 1) with 2.
      set (A := 2 ^ (K + e)) in *. set (B := 2 ^ lm) in *. set (C := 2 ^ (- e)) in *.
      replace (P * (A * C)) with ((P * C) * A) by ring. rewrite HR.
      replace (m * Q * A) with (Q * A * m) by ring.
      replace (Q * (A * B * 2)) with (Q * A * (B * 2)) by ring.
      apply Z.mul_lt_mono_pos_l; [apply Z.mul_pos_pos; lia | lia].
    + apply Z.leb_gt in E. replace (- - e) with e in HR by lia.
      assert (He : 0 <= e) by lia. pose proof (pow2_pos e He) as HC.
      rewrite Z.mul_1_r in HR. rewrite HR.
      replace (K + (e + lm + 1)) with (K + e + lm + 1) by lia.
      rewrite (Z.pow_add_r 2 (K + e + lm) 1), (Z.pow_add_r 2 (K + e) lm),
        (Z.pow_add_r 2 K e) by lia.
      change (2 ^ 1) with 2.
      set (A := 2 ^ K) in *. set (B := 2 ^ lm) in *. set (C := 2 ^ e) in *.
      replace (m * C * Q * A) with (Q * A * C * m) by ring.
      replace (Q * (A * C * B * 2)) with (Q * A * C * (B * 2)) by ring.
      apply Z.mul_lt_mono_pos_l; [repeat apply Z.mul_pos_pos; lia | lia].
Qed.

(** A fraction that is exactly a [float] rounds to it. *)
Lemma round_ratio_exact : forall x P Q,
  canonical x = true -> f_mant x <> 0 -> 0 < P -> 0 < Q ->
  ratio_eq (P, Q) (ratio_of x) ->
  round_ratio (f_neg x) P Q = Some x.
Proof.
  intros [neg m e] P Q Hc Hm HP HQ HR.
  apply canonical_spec in Hc. cbn [f_neg f_mant f_exp] in *.
  destruct Hc as (Hm53 & He & Hnorm).
  unfold ratio_of in HR. cbn [f_mant f_exp] in HR.
  assert (Hmpos : 0 < m) by lia.
  pose proof (binade_of_float m e P Q Hmpos HP HQ HR) as Hb.
  unfold round_ratio.
  assert (EP : (P =? 0) = false) by (apply Z.eqb_neq; lia). rewrite EP.
  assert (Hexp : Z.max (binade P Q - 52) emin = e).
  { rewrite Hb. destruct Hnorm as [Hn | Hn].
    - assert (Z.log2 m = 52).
      { apply Z.log2_unique; [lia|]. split; [exact Hn | apply Hm53]. }
      lia.
    - assert (Z.log2 m < 53) by (apply Z.log2_lt_pow2; lia). lia. }
  rewrite Hexp. clear Hexp Hb.
  assert (Hsc : exists d, 0 < d /\ scale P Q e = (m * d, d)).
  { unfold ratio_eq, scale in *.
    destruct (0 <=? e) eqn:E; destruct (0 <=? - e) eqn:E';
      cbn [fst snd] in HR;
      rewrite ?Z.leb_le, ?Z.leb_gt in *.
    - assert (e = 0) by lia. subst e. cbn in HR |- *.
      exists Q. split; [lia|]. f_equal; lia.
    - replace (- - e) with e in HR by lia.
      exists (Q * 2 ^ e). split; [apply Z.mul_pos_pos; [lia | apply pow2_pos; lia]|].
      f_equal. lia.
    - exists Q. split; [lia|]. f_equal. lia.
    - lia. }
  destruct Hsc as (d & Hd & ->).
  rewrite (rne_exact m d Hd).
  assert (E53 : (m =? 2 ^ 53) = false) by (apply Z.eqb_neq; lia). rewrite E53.
  assert (Emax : (emax <? e) = false) by (apply Z.ltb_ge; lia). rewrite Emax.
  reflexivity.
Qed.

Lemma float_of_decimal_ratio : forall neg d ex,
  float_of_decimal neg d ex
  = round_ratio neg (fst (dec_ratio d ex)) (snd (dec_ratio d ex)).
Proof.
  intros neg d ex. unfold float_of_decimal, dec_ratio.
  now destruct (0 <=? ex).
Qed.

Lemma pow10_pos : forall a, 0 <= a -> 0 < 10 ^ a.
Proof. intros a Ha. apply Z.pow_pos_nonneg; lia. Qed.

Lemma pow5_pos : forall a, 0 <= a -> 0 < 5 ^ a.
Proof. intros a Ha. apply Z.pow_pos_nonneg; lia. Qed.

Lemma pow10_split : forall a, 0 <= a -> 10 ^ a = 2 ^ a * 5 ^ a.
Proof. intros a Ha. now rewrite <- Z.pow_mul_l. Qed.

(** The exact decimal expansion of [m * 2^e], written with [s] more
    zeros and [k] fewer, is the same number. *)
Lemma exact_ratio : forall m e d sx V k s,
  0 < m -> 0 <= k -> 0 <= s ->
  (if 0 <=? e then (m * 2 ^ e, 0) else (m * 5 ^ (- e), - e)) = (d, sx) ->
  d = V * 10 ^ k ->
  ratio_eq (dec_ratio (V * 10 ^ s) (k - sx - s)) (scale m 1 (- e)).
Proof.
  intros m e d sx V k s Hm Hk Hs Hd HV.
  pose proof (pow10_pos s Hs) as HX. pose proof (pow10_pos k Hk) as HT.
  unfold ratio_eq, dec_ratio, scale.
  destruct (0 <=? e) eqn:E; injection Hd as <- <-.
  - apply Z.leb_le in E.
    assert (Hsc : (if 0 <=? - e then (m, 1 * 2 ^ (- e)) else (m * 2 ^ (- - e), 1))
                  = (m * 2 ^ e, 1)).
    { destruct (0 <=? - e) eqn:E'.
      - apply Z.leb_le in E'. assert (e = 0) by lia. subst e. cbn. f_equal. lia.
      - now replace (- - e) with e by lia. }
    rewrite Hsc. rewrite HV. clear Hsc HV.
    destruct (0 <=? k - 0 - s) eqn:Ex; cbn [fst snd].
    + apply Z.leb_le in Ex.
      replace k with (s + (k - 0 - s)) at 2 by lia.
      rewrite (Z.pow_add_r 10 s (k - 0 - s)) by lia. ring.
    + apply Z.leb_gt in Ex.
      replace s with (k + - (k - 0 - s)) at 1 by lia.
      rewrite (Z.pow_add_r 10 k (- (k - 0 - s))) by lia. ring.
  - apply Z.leb_gt in E.
    assert (E' : (0 <=? - e) = true) by (apply Z.leb_le; lia). rewrite E'.
    set (a := - e) in *. assert (Ha : 0 <= a) by (unfold a; lia).
    pose proof (pow2_pos a Ha) as H2. pose proof (pow5_pos a Ha) as H5.
    pose proof (pow10_split a Ha) as H10.
    destruct (0 <=? k - a - s) eqn:Ex; cbn [fst snd].
    + apply Z.leb_le in Ex. pose proof (pow10_pos _ Ex) as HY.
      assert (Hk' : 10 ^ k = 10 ^ s * 10 ^ (k - a - s) * 10 ^ a).
      { rewrite <- !Z.pow_add_r by lia. f_equal. lia. }
      rewrite Hk', H10 in HV.
      set (X := 10 ^ s) in *. set (Y := 10 ^ (k - a - s)) in *.
      set (A2 := 2 ^ a) in *. set (A5 := 5 ^ a) in *.
      apply (Z.mul_reg_r _ _ A5); [lia|].
      rewrite Z.mul_1_l, Z.mul_1_r. rewrite HV. ring.
    + apply Z.leb_gt in Ex.
      assert (Ht : 0 <= - (k - a - s)) by lia. pose proof (pow10_pos _ Ht) as HY.
      assert (Hk' : 10 ^ s * 10 ^ a = 10 ^ (- (k - a - s)) * 10 ^ k).
      { rewrite <- !Z.pow_add_r by lia. f_equal. lia. }
      rewrite H10 in Hk'.
      set (X := 10 ^ s) in *. set (Y := 10 ^ (- (k - a - s))) in *.
      set (A2 := 2 ^ a) in *. set (A5 := 5 ^ a) in *. set (T := 10 ^ k) in *.
      apply (Z.mul_reg_r _ _ (A5 * T)); [lia|].
      rewrite Z.mul_1_l.
      replace (V * X * A2 * (A5 * T)) with ((V * T) * (X * (A2 * A5))) by ring.
      rewrite <- HV, Hk'. ring.
Qed.

Lemma exact_literal_reads_back : forall x,
  canonical x = true -> f_mant x <> 0 ->
  wf_literal (exact_literal x) /\ is_float_literal (exact_literal x)
  /\ float_of_literal (exact_literal x) = Some x.
Proof.
  intros x Hc Hm. pose proof (canonical_spec x Hc) as (Hm53 & He & _).
  assert (Hmpos : 0 < f_mant x) by lia.
  unfold exact_literal.
  destruct (if 0 <=? f_exp x
            then (f_mant x * 2 ^ f_exp x, 0)
            else (f_mant x * 5 ^ (- f_exp x), - f_exp x)) as [d sx] eqn:Ed.
  assert (Hd : 0 < d).
  { destruct (0 <=? f_exp x) eqn:E; injection Ed as <- <-.
    - apply Z.leb_le in E. apply Z.mul_pos_pos; [lia | now apply pow2_pos].
    - apply Z.leb_gt in E. apply Z.mul_pos_pos; [lia | apply pow5_pos; lia]. }
  pose proof (digits_leading d Hd) as Hlead.
  pose proof (strip_leading_digits _ Hlead) as Hstrip.
  destruct (short_literal_wf (f_neg x) _ (Z.of_nat (List.length (digits_of_Z d)) - sx)
              Hstrip) as [Hw Hf].
  split; [assumption|]. split; [assumption|].
  unfold float_of_literal.
  destruct (short_literal_value (f_neg x) (strip_trailing_zeros (digits_of_Z d))
              (Z.of_nat (List.length (digits_of_Z d)) - sx)) as (s & Hs & Hval & Hex).
  cbv zeta in Hval, Hex.
  set (l := short_literal (f_neg x) (strip_trailing_zeros (digits_of_Z d))
              (Z.of_nat (List.length (digits_of_Z d)) - sx)) in *.
  assert (Hneg : l_neg l = f_neg x).
  { unfold l, short_literal.
    destruct ((_ <=? -4) || _); [reflexivity|].
    destruct (_ <=? 0); [reflexivity|]. now destruct (_ <? _). }
  rewrite Hneg, Hval, Hex.
  destruct (strip_trailing_zeros_spec (digits_of_Z d)) as [k Hk].
  set (ds := strip_trailing_zeros (digits_of_Z d)) in *.
  destruct (digits_of_Z_writes d ltac:(lia)) as (_ & Hvd & _).
  assert (HV : d = value_of_digits ds * 10 ^ Z.of_nat k).
  { rewrite <- Hvd at 1. rewrite Hk. apply value_of_digits_trailing_zeros. }
  assert (Hlen : Z.of_nat (List.length (digits_of_Z d))
                 = Z.of_nat (List.length ds) + Z.of_nat k).
  { rewrite Hk at 1. rewrite length_app, repeat_length. lia. }
  rewrite Hlen.
  replace (Z.of_nat (List.length ds) + Z.of_nat k - sx - Z.of_nat (List.length ds) - s)
    with (Z.of_nat k - sx - s) by lia.
  rewrite float_of_decimal_ratio.
  pose proof (exact_ratio (f_mant x) (f_exp x) d sx (value_of_digits ds)
                (Z.of_nat k) s Hmpos ltac:(lia) Hs Ed HV) as HR.
  assert (HVpos : 0 < value_of_digits ds).
  { pose proof (pow10_pos (Z.of_nat k) ltac:(lia)). nia. }
  apply round_ratio_exact; try assumption.
  - unfold dec_ratio. pose proof (pow10_pos s Hs).
    destruct (0 <=? Z.of_nat k - sx - s) eqn:E; cbn [fst].
    + apply Z.leb_le in E. pose proof (pow10_pos _ E). nia.
    + nia.
  - unfold dec_ratio.
    destruct (0 <=? Z.of_nat k - sx - s) eqn:E; cbn [snd]; [lia|].
    apply Z.leb_gt in E. apply pow10_pos. lia.
Qed.

(** [repr] writes a well-formed literal, with a fraction or an exponent,
    that reads back as the number. *)
Lemma repr_literal_reads_back : forall x,
  canonical x = true ->
  wf_literal (repr_literal x) /\ is_float_literal (repr_literal x)
  /\ float_of_literal (repr_literal x) = Some x.
Proof.
  intros x Hc. pose proof (canonical_spec x Hc) as (Hm53 & He & Hn).
  unfold repr_literal, is_zero.
  destruct (f_mant x =? 0) eqn:E.
  - apply Z.eqb_eq in E. split; [|split].
    + unfold wf_literal, wf_int, is_digit. cbn.
      repeat split; try discriminate; auto; repeat constructor; lia.
    + left. discriminate.
    + destruct x as [neg m e]. cbn [f_mant f_exp f_neg] in *. subst m.
      destruct Hn as [Hn | ->]; [lia|]. reflexivity.
  - apply Z.eqb_neq in E.
    destruct (first_candidate x 1 17) as [l|] eqn:Ef.
    + apply (first_candidate_ok 17 x 1 l); [unfold nonneg_mantissa; lia | assumption | assumption].
    + now apply exact_literal_reads_back.
Qed.

(** ** JSON documents *)

(** Induction on documents, with the hypothesis for every member. *)
Lemma json_induction : forall P : json -> Prop,
  (forall n, P (JInt n)) ->
  (forall x, P (JFloat x)) ->
  (forall items, Forall (fun kv => P (snd kv)) items -> P (JDict items)) ->
  forall v, P v.
Proof.
  intros P Hi Hf Hd.
  fix IH 1. intros [n|x|items].
  - apply Hi.
  - apply Hf.
  - apply Hd. induction items as [|kv items IHitems].
    + constructor.
    + constructor; [apply IH | exact IHitems].
Qed.

Lemma skip_ws_newline_indent : forall level t,
  skip_ws (newline_indent level ++ t) = skip_ws t.
Proof.
  intros level t. unfold newline_indent. cbn [app skip_ws].
  change (is_ws NL) with true. cbv iota.
  induction (2 * level)%nat as [|k IH]; [reflexivity|].
  cbn [repeat app skip_ws]. change (is_ws 32%N) with true. exact IH.
Qed.

Lemma skip_ws_head : forall c t, is_ws c = false -> skip_ws (c :: t) = c :: t.
Proof. intros c t H. cbn [skip_ws]. now rewrite H. Qed.

(** A literal starts with a minus sign or a digit. *)
Lemma print_literal_head : forall l rest,
  wf_literal l ->
  exists c r, print_literal l ++ rest = c :: r
              /\ (c =? LBRACE)%N = false /\ is_ws c = false.
Proof.
  intros [neg int frac ex] rest [(Hd & Hne & _) _]. cbn [l_int] in *.
  unfold print_literal. cbn [l_neg l_int l_frac l_exp].
  destruct neg.
  - do 2 eexists. split; [reflexivity|]. split; reflexivity.
  - destruct int as [|d ds]; [contradiction|].
    pose proof (Forall_inv Hd) as Hd0. unfold is_digit in Hd0.
    do 2 eexists. cbn [app str_of_digits map]. split; [reflexivity|].
    unfold digit_char, is_ws, LBRACE.
    repeat match goal with
           | |- context [(?a =? ?b)%N] =>
               let E := fresh in
               assert (E : (a =? b)%N = false) by (apply N.eqb_neq; lia);
               rewrite E; clear E
           end.
    split; reflexivity.
Qed.

Lemma parse_number : forall fuel l v rest,
  wf_literal l -> number_end rest -> number_value l = Some v ->
  parse_value (S fuel) (print_literal l ++ rest) = Some (v, rest).
Proof.
  intros fuel l v rest Hw Hend Hv.
  destruct (print_literal_head l rest Hw) as (c & r & Hc & Hb & _).
  pose proof (scan_number_print l rest Hw Hend) as Hs.
  rewrite Hc in *. cbn [parse_value]. now rewrite Hb, Hs, Hv.
Qed.

Lemma number_value_float : forall l x,
  is_float_literal l -> float_of_literal l = Some x ->
  number_value l = Some (JFloat x).
Proof.
  intros l x Hf Hx. unfold number_value. rewrite Hx.
  destruct Hf as [Hf | Hf]; destruct (l_frac l), (l_exp l);
    try reflexivity; contradiction.
Qed.

Lemma encode_dict : forall level kv items,
  encode level (JDict (kv :: items))
  = lit "{" ++ newline_indent (S level)
    ++ join (lit "," ++ newline_indent (S level))
         (map (member_text (S level)) (kv :: items))
    ++ newline_indent level ++ lit "}".
Proof. reflexivity. Qed.

(** An encoded value starts with a brace, a minus sign or a digit. *)
Lemma encode_head : forall level v rest,
  well_formed v = true ->
  exists c r, encode level v ++ rest = c :: r /\ is_ws c = false.
Proof.
  intros level [n|x|items] rest Hw.
  - cbn [encode]. rewrite <- print_int_literal.
    destruct (print_literal_head (int_literal n) rest) as (c & r & H & _ & Hc).
    { split; [apply wf_int_digits; lia | exact I]. }
    eauto.
  - cbn [encode]. unfold repr.
    destruct (repr_literal_reads_back x Hw) as (Hwf & _ & _).
    destruct (print_literal_head (repr_literal x) rest Hwf) as (c & r & H & _ & Hc).
    eauto.
  - destruct items as [|kv items]; do 2 eexists; split; reflexivity.
Qed.

Lemma distinct_spec : forall l, distinct l = true -> NoDup l.
Proof.
  induction l as [|a l IH]; intros H; [constructor|].
  cbn [distinct] in H. apply andb_true_iff in H as [Ha Hl].
  constructor; [|now apply IH].
  intros Hin. apply negb_true_iff in Ha.
  assert (Hex : existsb (PyStr.eqb a) l = true).
  { apply existsb_exists. exists a. split; [assumption | now apply pystr_eqb_spec]. }
  congruence.
Qed.

(** Pairs with distinct keys make the dictionary of these pairs. *)
Lemma dict_of_pairs_distinct : forall pairs,
  NoDup (map fst pairs) -> dict_of_pairs pairs = pairs.
Proof.
  intros pairs. unfold dict_of_pairs, dict_update.
  assert (H : forall acc, NoDup (map fst (acc ++ pairs)) ->
            fold_left (fun a kv => dict_set PyStr.eqb a (fst kv) (snd kv)) pairs acc
            = acc ++ pairs).
  { induction pairs as [|[k v] pairs IH]; intros acc Hnd.
    - now rewrite app_nil_r.
    - cbn [fold_left fst snd].
      rewrite (dict_set_keys_fresh PyStr.eqb pystr_eqb_spec).
      + rewrite IH; rewrite <- app_assoc; [reflexivity | exact Hnd].
      + rewrite map_app in Hnd. cbn [map fst] in Hnd.
        apply NoDup_remove_2 in Hnd. intros Hin. apply Hnd.
        apply in_or_app. now left. }
  intros Hnd. apply (H []). exact Hnd.
Qed.

Lemma parse_members_unfold : forall fuel s1,
  parse_members (S fuel) (QUOTE :: s1)
  = match scan_string (List.length s1) s1 with
    | Some (key, s2) =>
        match skip_ws s2 with
        | [] => None
        | c :: s3 =>
            if (c =? COLON)%N then
              match parse_value fuel (skip_ws s3) with
              | Some (v, s4) =>
                  match skip_ws s4 with
                  | [] => None
                  | d :: s5 =>
                      if (d =? COMMA)%N then
                        match parse_members fuel (skip_ws s5) with
                        | Some (pairs, rest) => Some ((key, v) :: pairs, rest)
                        | None => None
                        end
                      else if (d =? RBRACE)%N then Some ([(key, v)], s5)
                      else None
                  end
              | None => None
              end
            else None
        end
    | None => None
    end.
Proof. reflexivity. Qed.

Lemma parse_value_brace : forall fuel s',
  parse_value (S fuel) (LBRACE :: s')
  = match skip_ws s' with
    | [] => None
    | c2 :: s2 =>
        if (c2 =? RBRACE)%N then Some (JDict [], s2)
        else
          match parse_members fuel (c2 :: s2) with
          | Some (pairs, rest) => Some (JDict (dict_of_pairs pairs), rest)
          | None => None
          end
    end.
Proof. reflexivity. Qed.

(** One member, followed by [tail]: the key and the value are read, and
    what comes after the value decides how the object goes on. *)
Lemma parse_member : forall fuel level k v tail,
  reads_back_at v ->
  (json_size v <= fuel)%nat ->
  unicode_text k = true -> well_formed v = true -> number_end tail ->
  parse_members (S fuel) (member_text level (k, v) ++ tail)
  = match skip_ws tail with
    | [] => None
    | d :: s5 =>
        if (d =? COMMA)%N then
          match parse_members fuel (skip_ws s5) with
          | Some (pairs, rest) => Some ((k, v) :: pairs, rest)
          | None => None
          end
        else if (d =? RBRACE)%N then Some ([(k, v)], s5)
        else None
    end.
Proof.
  intros fuel level k v tail Hv Hsize Hk Hw Hend.
  unfold member_text. cbn [fst snd]. rewrite <- !app_assoc.
  destruct (scan_encode_str k (lit ": " ++ encode level v ++ tail) Hk)
    as (body & Hbody & Hscan).
  rewrite Hbody, parse_members_unfold, Hscan.
  change (lit ": " ++ encode level v ++ tail)
    with (COLON :: 32%N :: (encode level v ++ tail)).
  rewrite skip_ws_head by reflexivity.
  change (COLON =? COLON)%N with true. cbv iota.
  change (skip_ws (32%N :: (encode level v ++ tail)))
    with (skip_ws (encode level v ++ tail)).
  destruct (encode_head level v tail Hw) as (c & r & Hc & Hws).
  rewrite Hc, (skip_ws_head _ _ Hws), <- Hc.
  now rewrite (Hv fuel level tail Hsize Hw Hend).
Qed.

Lemma number_end_comma : forall t, number_end (COMMA :: t).
Proof. intros t. cbn. repeat split; discriminate. Qed.

Lemma number_end_newline : forall level t, number_end (newline_indent level ++ t).
Proof. intros level t. cbn. repeat split; discriminate. Qed.

Lemma member_text_head : forall level kv t,
  exists r, member_text level kv ++ t = QUOTE :: r.
Proof.
  intros level kv t. unfold member_text, encode_str. cbn [app]. eauto.
Qed.

(** The members of an object, up to its closing brace. *)
Lemma parse_members_encoded : forall items,
  Forall (fun kv => reads_back_at (snd kv)) items ->
  items <> [] ->
  forall fuel level closing rest,
    (members_size items <= fuel)%nat -> members_ok items = true ->
    parse_members fuel
      (join (lit "," ++ newline_indent level) (map (member_text level) items)
       ++ newline_indent closing ++ lit "}" ++ rest)
    = Some (items, rest).
Proof.
  induction items as [|[k v] items IH]; intros HP Hne fuel level closing rest Hsize Hok;
    [contradiction|].
  pose proof (Forall_inv HP) as Hv. pose proof (Forall_inv_tail HP) as HP'.
  cbn [snd] in Hv.
  assert (Hsize' : (S (json_size v + members_size items) <= fuel)%nat) by exact Hsize.
  clear Hsize.
  cbn [members_ok forallb fst snd] in Hok.
  apply andb_true_iff in Hok as [Hkv Hok]. apply andb_true_iff in Hkv as [Hk Hw].
  destruct fuel as [|fuel]; [lia|].
  destruct items as [|kv' items].
  - cbn [map join].
    rewrite (parse_member fuel level k v); try assumption; try lia;
      [|apply number_end_newline].
    rewrite skip_ws_newline_indent. reflexivity.
  - change (join (lit "," ++ newline_indent level)
              (map (member_text level) ((k, v) :: kv' :: items)))
      with (member_text level (k, v) ++ (lit "," ++ newline_indent level)
            ++ join (lit "," ++ newline_indent level)
                 (map (member_text level) (kv' :: items))).
    rewrite <- !app_assoc.
    change (lit "," ++ newline_indent level ++
            join (lit "," ++ newline_indent level)
              (map (member_text level) (kv' :: items)) ++
            newline_indent closing ++ lit "}" ++ rest)
      with (COMMA :: (newline_indent level ++
            join (lit "," ++ newline_indent level)
              (map (member_text level) (kv' :: items)) ++
            newline_indent closing ++ lit "}" ++ rest)).
    rewrite (parse_member fuel level k v); try assumption; try lia;
      [|apply number_end_comma].
    rewrite skip_ws_head by reflexivity.
    change (COMMA =? COMMA)%N with true. cbv iota.
    rewrite skip_ws_newline_indent.
    assert (Hq : exists r,
              join (lit "," ++ newline_indent level)
                (map (member_text level) (kv' :: items))
              ++ newline_indent closing ++ lit "}" ++ rest = QUOTE :: r).
    { destruct items as [|kv'' items].
      - cbn [map join]. apply member_text_head.
      - cbn [map join]. rewrite <- !app_assoc. apply member_text_head. }
    destruct Hq as [r Hq]. rewrite Hq, skip_ws_head by reflexivity. rewrite <- Hq.
    rewrite (IH HP' ltac:(discriminate) fuel level closing rest);
      [reflexivity | lia | exact Hok].
Qed.

(** An encoded value followed by [rest] reads back as the value, with
    [rest] left. *)
Lemma parse_encode : forall v, reads_back_at v.
Proof.
  induction v as [n|x|items IH] using json_induction;
    intros fuel level rest Hsize Hw Hend.
  - destruct fuel as [|fuel]; [simpl in Hsize; lia|].
    cbn [encode]. rewrite <- print_int_literal.
    apply parse_number; [|assumption|apply number_value_int].
    split; [apply wf_int_digits; lia | exact I].
  - destruct fuel as [|fuel]; [simpl in Hsize; lia|].
    cbn [encode]. unfold repr. cbn [well_formed] in Hw.
    destruct (repr_literal_reads_back x Hw) as (Hwf & Hfl & Hx).
    apply parse_number; [assumption | assumption | now apply number_value_float].
  - destruct fuel as [|fuel]; [simpl in Hsize; lia|].
    destruct items as [|kv items]; [reflexivity|].
    rewrite encode_dict. rewrite <- !app_assoc.
    change (lit "{" ++ newline_indent (S level) ++
            join (lit "," ++ newline_indent (S level))
              (map (member_text (S level)) (kv :: items)) ++
            newline_indent level ++ lit "}" ++ rest)
      with (LBRACE :: (newline_indent (S level) ++
            join (lit "," ++ newline_indent (S level))
              (map (member_text (S level)) (kv :: items)) ++
            newline_indent level ++ lit "}" ++ rest)).
    rewrite parse_value_brace, skip_ws_newline_indent.
    cbn [well_formed] in Hw. apply andb_true_iff in Hw as [Hdist Hok].
    assert (Hsize' : (S (members_size (kv :: items)) <= S fuel)%nat) by exact Hsize.
    assert (Hq : exists r,
              join (lit "," ++ newline_indent (S level))
                (map (member_text (S level)) (kv :: items))
              ++ newline_indent level ++ lit "}" ++ rest = QUOTE :: r).
    { destruct items as [|kv' items].
      - cbn [map join]. apply member_text_head.
      - cbn [map join]. rewrite <- !app_assoc. apply member_text_head. }
    destruct Hq as [r Hq]. rewrite Hq, skip_ws_head by reflexivity.
    change (QUOTE =? RBRACE)%N with false. cbv iota. rewrite <- Hq.
    rewrite (parse_members_encoded (kv :: items) IH ltac:(discriminate)
               fuel (S level) level rest);
      [| lia | exact Hok].
    rewrite dict_of_pairs_distinct; [reflexivity | now apply distinct_spec].
Qed.

Lemma join_length : forall sep parts,
  (list_sum (map (@List.length char) parts) <= List.length (join sep parts))%nat.
Proof.
  intros sep parts. induction parts as [|p parts IH]; [simpl; lia|].
  destruct parts as [|p' parts].
  - simpl. lia.
  - change (join sep (p :: p' :: parts)) with (p ++ sep ++ join sep (p' :: parts)).
    change (list_sum (map (@List.length char) (p :: p' :: parts)))
      with (List.length p + list_sum (map (@List.length char) (p' :: parts)))%nat.
    rewrite !length_app. lia.
Qed.

(** An encoded document has at least as many characters as values and
    members. *)
Lemma encode_length : forall v level,
  well_formed v = true ->
  (json_size v <= List.length (encode level v))%nat.
Proof.
  induction v as [n|x|items IH] using json_induction; intros level Hw.
  - destruct (encode_head level (JInt n) [] Hw) as (c & r & H & _).
    rewrite app_nil_r in H. rewrite H. simpl. lia.
  - destruct (encode_head level (JFloat x) [] Hw) as (c & r & H & _).
    rewrite app_nil_r in H. rewrite H. simpl. lia.
  - destruct items as [|kv items]; [simpl; lia|].
    rewrite encode_dict. rewrite !length_app.
    cbn [well_formed] in Hw. apply andb_true_iff in Hw as [_ Hok].
    pose proof (join_length (lit "," ++ newline_indent (S level))
                  (map (member_text (S level)) (kv :: items))) as Hj.
    assert (Hm : (members_size (kv :: items)
                  <= list_sum (map (@List.length char)
                                 (map (member_text (S level)) (kv :: items))))%nat).
    { clear Hj. revert IH Hok. generalize (kv :: items) as l.
      induction l as [|[k v] l IHl]; intros IH Hok; [apply Nat.le_0_l|].
      pose proof (Forall_inv IH) as Hv. pose proof (Forall_inv_tail IH) as IH'.
      cbn [forallb fst snd] in Hok.
      apply andb_true_iff in Hok as [Hkv Hok]. apply andb_true_iff in Hkv as [_ Hwv].
      specialize (IHl IH' Hok). specialize (Hv (S level) Hwv). cbn [snd] in Hv.
      change (members_size ((k, v) :: l))
        with (S (json_size v) + members_size l)%nat.
      change (list_sum (map (@List.length char)
                          (map (member_text (S level)) ((k, v) :: l))))
        with (List.length (member_text (S level) (k, v))
              + list_sum (map (@List.length char) (map (member_text (S level)) l)))%nat.
      unfold member_text at 1, encode_str. cbn [fst snd].
      rewrite !length_app. cbn [List.length]. rewrite length_app. simpl. lia. }
    change (json_size (JDict (kv :: items))) with (S (members_size (kv :: items))).
    simpl List.length at 1. lia.
Qed.

(** The round trip: a document that is written and read is the same
    document. *)
Lemma loads_dumps : forall v, well_formed v = true -> loads (dumps v) = Some v.
Proof.
  intros v Hw. unfold loads, dumps.
  destruct (encode_head 0 v [] Hw) as (c & r & Hc & Hws).
  rewrite app_nil_r in Hc. rewrite Hc, (skip_ws_head _ _ Hws), <- Hc.
  pose proof (parse_encode v (List.length (encode 0 v)) 0%nat []
                (encode_length v 0%nat Hw) Hw I) as H.
  rewrite app_nil_r in H. now rewrite H.
Qed.

(** ** The results as a JSON document *)

Lemma distinct_map : forall {K} (key_eqb : K -> K -> bool) (name : K -> pystr) l,
  (forall a b, PyStr.eqb (name a) (name b) = key_eqb a b) ->
  distinct (map name l) = distinct_by key_eqb l.
Proof.
  intros K key_eqb name l Hn. induction l as [|a l IH]; [reflexivity|].
  cbn [map distinct distinct_by]. rewrite IH. f_equal. f_equal.
  clear IH. induction l as [|b l IH]; [reflexivity|].
  cbn [map existsb]. now rewrite Hn, IH.
Qed.

Lemma metric_name_eqb : forall a b,
  PyStr.eqb (metric_name a) (metric_name b) = metric_eqb a b.
Proof. intros [] []; reflexivity. Qed.

Lemma stat_name_eqb : forall a b,
  PyStr.eqb (stat_name a) (stat_name b) = stat_eqb a b.
Proof. intros [] []; reflexivity. Qed.

Lemma map_fst_map : forall {A B C D} (f : A -> C) (g : A * B -> D) (l : list (A * B)),
  map fst (map (fun kv => (f (fst kv), g kv)) l) = map f (map fst l).
Proof.
  intros. induction l as [|kv l IH]; [reflexivity|]. simpl. now rewrite IH.
Qed.

Lemma json_of_stats_well_formed : forall s,
  stats_ok s = true -> well_formed (json_of_stats s) = true.
Proof.
  intros s H. unfold stats_ok in H. apply andb_true_iff in H as [Hd Hn].
  unfold json_of_stats. cbn [well_formed]. apply andb_true_iff. split.
  - rewrite (map_fst_map stat_name (fun kv => json_of_number (snd kv))).
    rewrite (distinct_map stat_eqb stat_name _ stat_name_eqb). exact Hd.
  - rewrite forallb_forall in *. intros kv Hin.
    apply in_map_iff in Hin as ([k x] & <- & Hin). cbn [fst snd].
    specialize (Hn _ Hin). cbn [snd] in Hn.
    apply andb_true_iff. split; [now destruct k|].
    destruct x; [reflexivity | exact Hn].
Qed.

Lemma json_of_metrics_well_formed : forall m,
  metrics_ok m = true -> well_formed (json_of_metrics m) = true.
Proof.
  intros m H. unfold metrics_ok in H. apply andb_true_iff in H as [Hd Hv].
  unfold json_of_metrics. cbn [well_formed]. apply andb_true_iff. split.
  - rewrite (map_fst_map metric_name (fun kv => json_of_value (snd kv))).
    rewrite (distinct_map metric_eqb metric_name _ metric_name_eqb). exact Hd.
  - rewrite forallb_forall in *. intros kv Hin.
    apply in_map_iff in Hin as ([k v] & <- & Hin). cbn [fst snd].
    specialize (Hv _ Hin). cbn [snd] in Hv.
    apply andb_true_iff. split; [now destruct k|].
    destruct v as [n|s]; [reflexivity | now apply json_of_stats_well_formed].
Qed.

Lemma json_of_results_well_formed : forall rs,
  results_ok rs = true -> well_formed (json_of_results rs) = true.
Proof.
  intros rs H. unfold results_ok in H. apply andb_true_iff in H as [Hd Hv].
  unfold json_of_results. cbn [well_formed]. apply andb_true_iff. split.
  - rewrite (map_fst_map (fun k : pystr => k) (fun kv => json_of_metrics (snd kv))).
    now rewrite map_id.
  - rewrite forallb_forall in *. intros kv Hin.
    apply in_map_iff in Hin as ([k m] & <- & Hin). cbn [fst snd].
    specialize (Hv _ Hin). cbn [fst snd] in Hv.
    apply andb_true_iff in Hv as [Hk Hm].
    apply andb_true_iff. split; [exact Hk | now apply json_of_metrics_well_formed].
Qed.

(** Different results are different documents. *)
Lemma map_injective : forall {A B} (f : A -> B) l1 l2,
  (forall a b, f a = f b -> a = b) -> map f l1 = map f l2 -> l1 = l2.
Proof.
  intros A B f l1. induction l1 as [|a l1 IH]; intros [|b l2] Hf H;
    try discriminate; [reflexivity|].
  injection H as Hab Hl. f_equal; [now apply Hf | now apply IH].
Qed.

Lemma stat_name_injective : forall a b, stat_name a = stat_name b -> a = b.
Proof.
  intros a b H. apply stat_eqb_spec. rewrite <- stat_name_eqb.
  now apply pystr_eqb_spec.
Qed.

Lemma metric_name_injective : forall a b, metric_name a = metric_name b -> a = b.
Proof.
  intros a b H. apply metric_eqb_spec. rewrite <- metric_name_eqb.
  now apply pystr_eqb_spec.
Qed.

Lemma json_of_number_injective : forall a b,
  json_of_number a = json_of_number b -> a = b.
Proof. intros [n|x] [n'|x'] H; try discriminate; now injection H as <-. Qed.

Lemma json_of_stats_injective : forall a b,
  json_of_stats a = json_of_stats b -> a = b.
Proof.
  intros a b H. unfold json_of_stats in H. injection H as H.
  apply map_injective in H; [assumption|].
  intros [k x] [k' x'] E. cbn [fst snd] in E. apply pair_equal_spec in E as [Ek Ex].
  apply stat_name_injective in Ek. apply json_of_number_injective in Ex.
  now subst.
Qed.

Lemma json_of_value_injective : forall a b,
  json_of_value a = json_of_value b -> a = b.
Proof.
  intros [n|s] [n'|s'] H; cbn [json_of_value] in H.
  - now injection H as <-.
  - unfold json_of_stats in H. discriminate.
  - unfold json_of_stats in H. discriminate.
  - f_equal. now apply json_of_stats_injective.
Qed.

Lemma json_of_metrics_injective : forall a b,
  json_of_metrics a = json_of_metrics b -> a = b.
Proof.
  intros a b H. unfold json_of_metrics in H. injection H as H.
  apply map_injective in H; [assumption|].
  intros [k v] [k' v'] E. cbn [fst snd] in E. apply pair_equal_spec in E as [Ek Ev].
  apply metric_name_injective in Ek. apply json_of_value_injective in Ev.
  now subst.
Qed.

Lemma json_of_results_injective : forall a b,
  json_of_results a = json_of_results b -> a = b.
Proof.
  intros a b H. unfold json_of_results in H. injection H as H.
  apply map_injective in H; [assumption|].
  intros [k m] [k' m'] E. cbn [fst snd] in E. apply pair_equal_spec in E as [Ek Em].
  apply json_of_metrics_injective in Em. now subst.
Qed.

(** ** The floats of the program are binary64 numbers *)

Lemma scale_above : forall P Q e t n d,
  scale P Q e = (n, d) -> 0 <= t ->
  d * 2 ^ t <= n <-> above_pow2 P Q (e + t) (Z.max 0 (- e)).
Proof.
  intros P Q e t n d. unfold scale, above_pow2.
  destruct (0 <=? e) eqn:E; intros H Ht; injection H as <- <-.
  - apply Z.leb_le in E. rewrite Z.max_l by lia.
    rewrite Z.add_0_l, Z.pow_0_r, Z.mul_1_r.
    rewrite (Z.pow_add_r 2 e t) by lia. now rewrite Z.mul_assoc.
  - apply Z.leb_gt in E. rewrite Z.max_r by lia.
    replace (- e + (e + t)) with t by lia. tauto.
Qed.

Lemma scale_pos : forall P Q e n d,
  0 <= P -> 0 < Q -> scale P Q e = (n, d) -> 0 <= n /\ 0 < d.
Proof.
  intros P Q e n d HP HQ. unfold scale.
  destruct (0 <=? e) eqn:E; intros H; injection H as <- <-.
  - apply Z.leb_le in E. split; [assumption|].
    apply Z.mul_pos_pos; [assumption | now apply pow2_pos].
  - apply Z.leb_gt in E. split; [|assumption].
    apply Z.mul_nonneg_nonneg; [assumption | apply Z.pow_nonneg; lia].
Qed.

Lemma rne_bounds : forall n d, n / d <= rne n d <= n / d + 1.
Proof.
  intros n d. unfold rne.
  destruct (2 * (n mod d) ?= d); [destruct (Z.even (n / d))| |]; lia.
Qed.

(** The result of a rounding is a binary64 number. *)
Lemma round_ratio_canonical : forall neg P Q x,
  0 <= P -> 0 < Q -> round_ratio neg P Q = Some x -> canonical x = true.
Proof.
  intros neg P Q x HP HQ. unfold round_ratio.
  destruct (P =? 0) eqn:EP.
  { intros H. injection H as <-. reflexivity. }
  apply Z.eqb_neq in EP. assert (HP' : 0 < P) by lia.
  set (b := binade P Q). set (e := Z.max (b - 52) emin).
  destruct (scale P Q e) as [n d] eqn:Es.
  destruct (scale_pos P Q e n d HP HQ Es) as [Hn Hd].
  pose proof (rne_bounds n d) as Hr. set (m := rne n d) in *.
  set (K := Z.abs b + Z.abs e + 54).
  destruct (binade_spec P Q K HP' HQ ltac:(unfold K; lia) ltac:(unfold K; fold b; lia))
    as [Ba Bn]. fold b in Ba, Bn.
  assert (Hfl0 : 0 <= n / d) by (apply Z.div_pos; lia).
  (* above: n / d < 2^53, and < 2^52 in the lowest binade *)
  assert (Hup : n / d < 2 ^ 53).
  { apply Z.div_lt_upper_bound; [lia|]. apply Z.lt_nge. intros H.
    apply (scale_above P Q e 53 n d Es ltac:(lia)) in H.
    assert (HK1 : 0 <= K + (b + 1)) by (unfold K; lia).
    assert (Hle : b + 1 <= e + 53) by (unfold e; lia).
    apply Bn. apply (above_pow2_mono P Q (b + 1) (e + 53) K HQ HK1 Hle).
    apply (proj1 (above_pow2_indep P Q (e + 53) (Z.max 0 (- e)) K
                    ltac:(lia) ltac:(lia) ltac:(unfold K; lia) ltac:(unfold K; lia))).
    exact H. }
  assert (Hsub : b - 52 < emin -> n / d < 2 ^ 52).
  { intros Hlow. apply Z.div_lt_upper_bound; [lia|]. apply Z.lt_nge. intros H.
    apply (scale_above P Q e 52 n d Es ltac:(lia)) in H.
    assert (HK1 : 0 <= K + (b + 1)) by (unfold K; lia).
    assert (Hle : b + 1 <= e + 52) by (unfold e; lia).
    apply Bn. apply (above_pow2_mono P Q (b + 1) (e + 52) K HQ HK1 Hle).
    apply (proj1 (above_pow2_indep P Q (e + 52) (Z.max 0 (- e)) K
                    ltac:(lia) ltac:(lia) ltac:(unfold K; lia) ltac:(unfold K; lia))).
    exact H. }
  assert (Hnorm : emin <= b - 52 -> 2 ^ 52 <= n / d).
  { intros Hhigh. apply Z.div_le_lower_bound; [lia|].
    apply (scale_above P Q e 52 n d Es ltac:(lia)).
    replace (e + 52) with b by (unfold e; lia).
    apply (proj1 (above_pow2_indep P Q b K (Z.max 0 (- e))
                    ltac:(unfold K; lia) ltac:(unfold K; lia) ltac:(lia)
                    ltac:(unfold e; lia))).
    exact Ba. }
  assert (He : emin <= e) by (unfold e; lia).
  unfold canonical.
  destruct (m =? 2 ^ 53) eqn:E53.
  - destruct (emax <? e + 1) eqn:Emax; intros H; [discriminate|].
    injection H as <-. cbn [f_mant f_exp]. apply Z.ltb_ge in Emax.
    change ((2 ^ 52 <=? 2 ^ 52) || (e + 1 =? emin)) with true.
    repeat (apply andb_true_iff; split);
      rewrite ?Z.leb_le, ?Z.ltb_lt; try reflexivity; lia.
  - apply Z.eqb_neq in E53.
    destruct (emax <? e) eqn:Emax; intros H; [discriminate|].
    injection H as <-. cbn [f_mant f_exp]. apply Z.ltb_ge in Emax.
    destruct (Z.lt_ge_cases (b - 52) emin) as [Hlow | Hhigh].
    + assert (Ee : (e =? emin) = true) by (apply Z.eqb_eq; unfold e; lia).
      rewrite Ee, orb_true_r.
      repeat (apply andb_true_iff; split);
        rewrite ?Z.leb_le, ?Z.ltb_lt; try reflexivity; lia.
    + specialize (Hnorm Hhigh).
      assert (Em : (2 ^ 52 <=? m) = true) by (apply Z.leb_le; lia).
      rewrite Em, orb_true_l.
      repeat (apply andb_true_iff; split);
        rewrite ?Z.leb_le, ?Z.ltb_lt; try reflexivity; lia.
Qed.

Lemma truediv_canonical : forall a b x, truediv a b = Ok x -> canonical x = true.
Proof.
  intros a b x. unfold truediv. destruct (b =? 0) eqn:E; [discriminate|].
  apply Z.eqb_neq in E.
  destruct (round_ratio _ (Z.abs a) (Z.abs b)) as [y|] eqn:Er; [|discriminate].
  intros H. injection H as <-.
  apply (round_ratio_canonical (xorb (a <? 0) (b <? 0)) (Z.abs a) (Z.abs b) y);
    [lia | lia | exact Er].
Qed.

Lemma compute_stats_ok : forall content s,
  compute_stats content = Ok s -> stats_ok s = true.
Proof.
  intros content s. unfold compute_stats.
  destruct (truediv (sum (map len (splitlines content))) _) as [a|e] eqn:Ea;
    cbn [bind]; [|discriminate].
  destruct (truediv (sum (map len (split content))) _) as [w|e] eqn:Ew;
    cbn [bind]; [|discriminate].
  intros H. injection H as <-.
  apply truediv_canonical in Ea, Ew.
  unfold stats_ok. cbn. now rewrite Ea, Ew.
Qed.

Lemma analyze_content_ok : forall modes content m,
  analyze_content modes content = Ok m -> metrics_ok m = true.
Proof.
  intros modes content m. unfold analyze_content.
  destruct (mode_in m_lines modes || mode_in m_all modes);
    destruct (mode_in m_words modes || mode_in m_all modes);
    destruct (mode_in m_chars modes || mode_in m_all modes);
    destruct (mode_in m_stats modes); cbn [bind];
    try (destruct (compute_stats content) as [s|e] eqn:Es; cbn [bind]; [|discriminate];
         apply compute_stats_ok in Es);
    intros H; injection H as <-; unfold metrics_ok; cbn;
    rewrite ?Es; reflexivity.
Qed.

Lemma distinct_iff : forall l, distinct l = true <-> NoDup l.
Proof.
  intros l. split; [apply distinct_spec|].
  induction 1 as [|a l Hnin _ IH]; [reflexivity|].
  cbn [distinct]. rewrite IH, andb_true_r. apply negb_true_iff.
  destruct (existsb (PyStr.eqb a) l) eqn:E; [|reflexivity].
  apply existsb_exists in E as (b & Hin & Hb).
  apply pystr_eqb_spec in Hb. subst b. contradiction.
Qed.

Lemma dict_set_present : forall {V} (d : dict pystr V) k v,
  In k (dict_keys d) ->
  dict_keys (dict_set PyStr.eqb d k v) = dict_keys d.
Proof.
  intros V d k v. induction d as [|[k0 v0] d IH]; intros Hin; [contradiction|].
  cbn [dict_set]. destruct (PyStr.eqb k0 k) eqn:E; [reflexivity|].
  cbn [dict_keys map fst]. f_equal. apply IH.
  destruct Hin as [Hin | Hin]; [|assumption].
  cbn [fst] in Hin. subst k0.
  rewrite (proj2 (pystr_eqb_spec k k) eq_refl) in E. discriminate.
Qed.

Lemma forallb_dict_set : forall {V} (P : pystr * V -> bool) (d : dict pystr V) k v,
  forallb P d = true -> P (k, v) = true ->
  forallb P (dict_set PyStr.eqb d k v) = true.
Proof.
  intros V P d k v Hd Hkv. induction d as [|[k0 v0] d IH]; cbn [dict_set].
  - cbn. now rewrite Hkv.
  - cbn [forallb] in Hd. apply andb_true_iff in Hd as [H0 Hd].
    destruct (PyStr.eqb k0 k) eqn:E; cbn [forallb].
    + apply pystr_eqb_spec in E. subst k0. now rewrite Hkv, Hd.
    + now rewrite H0, IH.
Qed.

Lemma results_ok_set : forall (acc : ResultSet) f r,
  results_ok acc = true -> unicode_text f = true -> metrics_ok r = true ->
  results_ok (dict_set PyStr.eqb acc f r) = true.
Proof.
  intros acc f r Hacc Hf Hr. unfold results_ok in *.
  apply andb_true_iff in Hacc as [Hd Hv]. apply andb_true_iff. split.
  - apply distinct_iff. apply distinct_iff in Hd.
    destruct (in_dec (list_eq_dec N.eq_dec) f (dict_keys acc)) as [Hin | Hnin].
    + now rewrite dict_set_present.
    + rewrite (dict_set_keys_fresh PyStr.eqb pystr_eqb_spec) by assumption.
      unfold dict_keys. rewrite map_app. cbn [map fst].
      apply NoDup_app; [assumption | repeat constructor; intros [] | ].
      intros a Ha [<- | []]. contradiction.
  - apply forallb_dict_set; [assumption | cbn [fst snd]; now rewrite Hf, Hr].
Qed.

(** The round trip of a [ResultSet] as Python has it. *)
Lemma results_round_trip : forall results,
  results_ok results = true ->
  loads (dumps (json_of_results results)) = Some (json_of_results results)
  /\ (forall results',
        loads (dumps (json_of_results results)) = Some (json_of_results results') ->
        results' = results).
Proof.
  intros results Hok.
  pose proof (loads_dumps _ (json_of_results_well_formed _ Hok)) as Hl.
  split; [exact Hl|].
  intros results' H. rewrite Hl in H.
  symmetry. apply json_of_results_injective. congruence.
Qed.

Lemma file_metrics_ok : forall os args f r,
  file_metrics os args f = Some r -> isfile os f = true /\ metrics_ok r = true.
Proof.
  intros os args f r. unfold file_metrics.
  destruct (isfile os f); [|discriminate].
  destruct (read_file os f _) as [content|e]; [|discriminate].
  destruct (analyze_content (args_mode args) content) as [r'|e] eqn:Ea;
    [|discriminate].
  intros H. injection H as <-. split; [reflexivity|].
  exact (analyze_content_ok _ _ _ Ea).
Qed.

(** The results that the loop collects are well formed when the names of
    the files are text. *)
Lemma collect_results_ok : forall os args files acc,
  (forall f, isfile os f = true -> unicode_text f = true) ->
  results_ok acc = true ->
  results_ok (collect os args files acc) = true.
Proof.
  intros os args files acc Hos. revert acc. unfold collect.
  induction files as [|f rest IH]; intros acc Hacc; [exact Hacc|].
  cbn [fold_left]. apply IH.
  destruct (file_metrics os args f) as [r|] eqn:Em; [|exact Hacc].
  apply file_metrics_ok in Em as [Hf Hr].
  apply results_ok_set; [exact Hacc | now apply Hos | exact Hr].
Qed.

(** C7: the JSON output of the results that the program collects reads
    back as the document of these results: the same paths, keys and
    values, nested stats included, an [int] read as an [int] and a
    [float] as the same [float]; and no other [ResultSet] has this
    document.  The results are those of the loop of [main] over any
    files; the names of the files that exist are text as the operating
    system gives it, in which a high surrogate is never directly followed
    by a low one (a decoder reads such a pair as one character). *)
Theorem json_output_round_trip :
  forall os args files results,
    (forall f, isfile os f = true -> unicode_text f = true) ->
    snd (analyze_all os args files []) = Ok results ->
    exists text,
      formatted_output results fmt_json = Ok text
      /\ loads text = Some (json_of_results results)
      /\ (forall results',
            loads text = Some (json_of_results results') -> results' = results).
Proof.
  intros os args files results Hos H.
  destruct (analyze_all_spec _ _ _ _ _ H) as (_ & -> & _).
  exists (dumps (json_of_results (collect os args files []))).
  split; [reflexivity|].
  apply results_round_trip. now apply collect_results_ok.
Qed.

Lemma json_output_round_trip_witness :
  exists text,
    formatted_output [(lit "a.txt", two_words_metrics)] fmt_json = Ok text
    /\ loads text = Some (json_of_results [(lit "a.txt", two_words_metrics)])
    /\ (forall results',
          loads text = Some (json_of_results results') ->
          results' = [(lit "a.txt", two_words_metrics)]).
Proof.
  apply (json_output_round_trip stats_os stats_args [lit "b.txt"; lit "a.txt"]).
  - intros f. cbn [isfile stats_os]. intros Hf.
    apply orb_true_iff in Hf as [Hf | Hf]; apply pystr_eqb_spec in Hf;
      subst f; reflexivity.
  - vm_compute. reflexivity.
Defined.
(** ** Relations between the metrics *)

Lemma count_bounds : forall c s, 0 <= count c s <= len s.
Proof.
  intros c s. unfold len. induction s as [|d s IH]; cbn [count List.length].
  - lia.
  - rewrite Nat2Z.inj_succ. destruct (d =? c)%N; lia.
Qed.

Lemma token_starts_bounds : forall s b,
  0 <= token_starts b s
  /\ 2 * token_starts b s <= len s + (if b then 1 else 0).
Proof.
  unfold len. induction s as [|c s IH]; intros b; cbn [token_starts List.length].
  - destruct b; lia.
  - rewrite Nat2Z.inj_succ. specialize (IH (isspace c)).
    destruct b; destruct (isspace c); cbn [andb negb]; lia.
Qed.

(** X1: the counters of a content bound each other: [lines] is at least
    1 and at most [chars] + 1, and twice [words] is at most [chars] + 1,
    two words being at least one whitespace character apart. *)
Theorem counters_are_bounded_by_chars :
  forall modes content m l w n,
    analyze_content modes content = Ok m ->
    dict_get metric_eqb m k_lines = Some (Scalar l) ->
    dict_get metric_eqb m k_words = Some (Scalar w) ->
    dict_get metric_eqb m k_chars = Some (Scalar n) ->
    1 <= l <= n + 1 /\ 0 <= w /\ 2 * w <= n + 1.
Proof.
  intros modes content m l w n Hm Hl Hw Hn.
  destruct (analyze_content_get _ _ _ Hm) as (Gl & Gw & Gn & _).
  rewrite Hl in Gl. rewrite Hw in Gw. rewrite Hn in Gn.
  destruct (wants m_lines modes); [|discriminate].
  destruct (wants m_words modes); [|discriminate].
  destruct (wants m_chars modes); [|discriminate].
  injection Gl as ->. injection Gw as ->. injection Gn as ->.
  pose proof (count_bounds NL content) as Hc.
  pose proof (token_starts_bounds content true) as Ht.
  rewrite split_is_token_count. unfold token_count. lia.
Qed.

Lemma counters_are_bounded_by_chars_witness :
  1 <= 3 <= 13 + 1 /\ 0 <= 3 /\ 2 * 3 <= 13 + 1.
Proof.
  apply (counters_are_bounded_by_chars [m_all] three_lines
           [(k_lines, Scalar 3); (k_words, Scalar 3); (k_chars, Scalar 13)]);
    reflexivity.
Defined.

Lemma mode_in_ext : forall ms ms',
  (forall m, In m ms <-> In m ms') -> forall m, mode_in m ms = mode_in m ms'.
Proof.
  intros ms ms' H m.
  destruct (mode_in m ms) eqn:E1; destruct (mode_in m ms') eqn:E2; try reflexivity.
  - apply mode_in_spec, H, mode_in_spec in E1. congruence.
  - apply mode_in_spec, H, mode_in_spec in E2. congruence.
Qed.

(** X2: the analysis depends on which modes are requested, not on
    their order nor on a mode being given more than once. *)
Theorem analysis_depends_on_the_set_of_modes :
  forall modes modes' content,
    (forall m, In m modes <-> In m modes') ->
    analyze_content modes content = analyze_content modes' content.
Proof.
  intros modes modes' content H. unfold analyze_content.
  now rewrite !(mode_in_ext modes modes' H).
Qed.

Lemma analysis_depends_on_the_set_of_modes_witness :
  analyze_content [m_stats; m_words; m_lines; m_words] two_words
  = analyze_content [m_lines; m_words; m_stats] two_words.
Proof.
  apply (analysis_depends_on_the_set_of_modes
           [m_stats; m_words; m_lines; m_words] [m_lines; m_words; m_stats]).
  intros m. simpl. intuition.
Defined.

(** X3: when [all] is among the modes, the analysis is that of
    [lines], [words] and [chars] together with the other modes: [all]
    stands for the three counters and for nothing else. *)
Theorem all_stands_for_the_three_counters :
  forall modes content,
    In m_all modes ->
    analyze_content modes content
    = analyze_content (m_lines :: m_words :: m_chars
                         :: filter (fun m => negb (mode_eqb m m_all)) modes) content.
Proof.
  intros modes content Hall. unfold analyze_content.
  apply mode_in_spec in Hall. rewrite Hall, !orb_true_r.
  assert (Hs : mode_in m_stats (m_lines :: m_words :: m_chars
                 :: filter (fun m => negb (mode_eqb m m_all)) modes)
               = mode_in m_stats modes).
  { cbn [mode_in existsb mode_eqb orb]. unfold mode_in.
    clear. induction modes as [|a l IH]; [reflexivity|].
    cbn [filter existsb]. destruct a; cbn [mode_eqb negb existsb orb]; now rewrite ?IH. }
  rewrite Hs. reflexivity.
Qed.

Lemma all_stands_for_the_three_counters_witness :
  analyze_content [m_stats; m_all] two_words
  = analyze_content [m_lines; m_words; m_chars; m_stats] two_words.
Proof.
  apply (all_stands_for_the_three_counters [m_stats; m_all] two_words).
  simpl. tauto.
Defined.

(** ** What the averages are averages of *)

Lemma nonspace_count_cons : forall c s,
  nonspace_count (c :: s) = (if isspace c then 0 else 1) + nonspace_count s.
Proof.
  intros c s. unfold nonspace_count, len. cbn [filter].
  destruct (isspace c); cbn [negb List.length]; lia.
Qed.

Lemma split_from_sum : forall s w,
  sum (map len (split_from w s)) = len w + nonspace_count s.
Proof.
  induction s as [|c s IH]; intros w; cbn [split_from].
  - rewrite sum_flush. reflexivity.
  - rewrite nonspace_count_cons. destruct (isspace c).
    + rewrite sum_flush, (IH []). change (len []) with 0. lia.
    + rewrite (IH (w ++ [c])), len_app. change (len [c]) with 1. lia.
Qed.

Lemma splitlines_from_sum : forall s cur,
  only_newlines s ->
  sum (map len (splitlines_from cur s)) = len cur + len s - count NL s.
Proof.
  induction s as [|c s IH]; intros cur Hs.
  - cbn [splitlines_from count]. rewrite sum_flush. unfold sum, len. simpl. lia.
  - apply only_newlines_cons in Hs as [Hc Hs].
    change (c :: s) with ([c] ++ s) at 2. rewrite len_app. change (len [c]) with 1.
    cbn [splitlines_from count].
    destruct (is_linebreak c) eqn:Elb.
    + rewrite (Hc eq_refl). cbn [N.eqb Pos.eqb NL CR andb].
      change (NL =? NL)%N with true. cbn [map]. rewrite sum_cons.
      destruct s as [|d s'].
      * unfold sum, len. simpl. lia.
      * rewrite (IH [] Hs). change (len []) with 0. lia.
    + assert (Hne : (c =? NL)%N = false).
      { destruct (c =? NL)%N eqn:E; [|reflexivity].
        apply N.eqb_eq in E. subst c. discriminate. }
      rewrite Hne, (IH _ Hs), len_app. change (len [c]) with 1. lia.
Qed.

(** X4: [avg_words_length] is the quotient of the number of characters
    that are not whitespace by the number of words; when the newline is
    the only line boundary of the content, [avg_line_length] is the
    quotient of the number of characters other than newlines by the
    number of lines that [splitlines] finds; the divisor is 1 when there
    is no word (no line). *)
Theorem averages_are_of_words_and_lines :
  forall content s,
    compute_stats content = Ok s ->
    exists a w n,
      s = [ (avg_line_length, FloatVal a); (avg_words_length, FloatVal w);
            (empty_lines, IntVal n) ]
      /\ truediv (nonspace_count content) (Z.max (token_count content) 1) = Ok w
      /\ (only_newlines content ->
          truediv (len content - count NL content)
            (Z.max (count NL content + (if open_line [] content then 1 else 0)) 1)
          = Ok a).
Proof.
  intros content s. unfold compute_stats.
  destruct (truediv (sum (map len (splitlines content))) _) as [a|e] eqn:Ea;
    cbn [bind]; [|discriminate].
  destruct (truediv (sum (map len (split content))) _) as [w|e] eqn:Ew;
    cbn [bind]; [|discriminate].
  intros H. injection H as <-. do 3 eexists. split; [reflexivity|]. split.
  - rewrite <- Ew. unfold split. rewrite split_from_sum.
    change (split_from [] content) with (split content).
    rewrite split_is_token_count. reflexivity.
  - intros Hn. rewrite <- Ea. unfold splitlines.
    rewrite (splitlines_from_sum _ _ Hn), (splitlines_from_length _ _ Hn).
    reflexivity.
Qed.

(** ** The values of the stats block *)

Lemma round_ratio_sign : forall neg p q x,
  round_ratio neg p q = Some x -> f_neg x = neg.
Proof.
  intros neg p q x. unfold round_ratio.
  destruct (p =? 0); [intros H; now injection H as <-|].
  destruct (scale p q _) as [n d].
  destruct (rne n d =? 2 ^ 53);
    match goal with |- context [emax <? ?e] => destruct (emax <? e) end;
    intros H; try discriminate; now injection H as <-.
Qed.

Lemma round_ratio_exponent : forall neg p q x,
  p <> 0 -> round_ratio neg p q = Some x ->
  Z.max (binade p q - 52) emin <= f_exp x.
Proof.
  intros neg p q x Hp. unfold round_ratio.
  apply Z.eqb_neq in Hp. rewrite Hp.
  destruct (scale p q _) as [n d].
  destruct (rne n d =? 2 ^ 53);
    match goal with |- context [emax <? ?e] => destruct (emax <? e) end;
    intros H; try discriminate; injection H as <-; cbn [f_exp]; lia.
Qed.

Lemma binade_nonneg : forall p q, 0 < q <= p -> 0 <= binade p q.
Proof.
  intros p q H. unfold binade.
  assert (Hk : 0 <= Z.log2 p - Z.log2 q).
  { pose proof (Z.log2_le_mono q p). lia. }
  destruct (Z.eq_dec (Z.log2 p - Z.log2 q) 0) as [E|E].
  - rewrite E. unfold scale. change (0 <=? 0) with true. cbv iota.
    rewrite Z.pow_0_r, Z.mul_1_r.
    assert (Hlt : (p <? q) = false) by (apply Z.ltb_ge; lia).
    rewrite Hlt. lia.
  - destruct (scale p q (Z.log2 p - Z.log2 q)) as [n d]. destruct (n <? d); lia.
Qed.

(** A quotient that is at least one rounds to a float that is at least
    one. *)
Lemma round_ratio_at_least_one : forall p q x,
  0 < q <= p -> round_ratio false p q = Some x -> at_least_one x.
Proof.
  intros p q x H Hr.
  pose proof (round_ratio_sign _ _ _ _ Hr) as Hs.
  assert (Hp : p <> 0) by lia.
  pose proof (round_ratio_exponent _ _ _ _ Hp Hr) as He.
  pose proof (binade_nonneg p q H) as Hb.
  apply round_ratio_canonical in Hr; [|lia|lia].
  apply canonical_spec in Hr as (Hm & Hex & Hn).
  unfold emin in *. assert (Hm52 : 2 ^ 52 <= f_mant x) by lia.
  split; [assumption|]. unfold ratio_of, scale.
  destruct (0 <=? - f_exp x) eqn:E; cbn [fst snd].
  - apply Z.leb_le in E.
    assert (2 ^ (- f_exp x) <= 2 ^ 52) by (apply Z.pow_le_mono_r; lia). lia.
  - apply Z.leb_gt in E.
    assert (0 < 2 ^ (- - f_exp x)) by (apply Z.pow_pos_nonneg; lia). nia.
Qed.

Lemma flush_tokens : forall w rest,
  Forall (fun t => 1 <= len t) rest -> Forall (fun t => 1 <= len t) (flush w rest).
Proof.
  intros [|c w] rest H; [assumption|]. constructor; [|assumption].
  unfold len. cbn [List.length]. lia.
Qed.

(** The tokens of [str.split] are never empty. *)
Lemma split_from_tokens : forall s w, Forall (fun t => 1 <= len t) (split_from w s).
Proof.
  induction s as [|c s IH]; intros w; cbn [split_from].
  - apply flush_tokens. constructor.
  - destruct (isspace c); [apply flush_tokens|]; apply IH.
Qed.

Lemma sum_at_least_length : forall l : list pystr,
  Forall (fun t => 1 <= len t) l -> len_list l <= sum (map len l).
Proof.
  unfold len_list. induction 1 as [|t l Ht _ IH]; [reflexivity|].
  cbn [map List.length]. rewrite sum_cons, Nat2Z.inj_succ. lia.
Qed.

Lemma sum_ones_filter : forall {A} (f : A -> bool) (l : list A),
  0 <= sum (map (fun _ => 1) (filter f l)) <= len_list l.
Proof.
  intros A f l. unfold len_list. induction l as [|a l IH]; [unfold sum; simpl; lia|].
  cbn [filter List.length]. rewrite Nat2Z.inj_succ.
  destruct (f a); cbn [map]; rewrite ?sum_cons; lia.
Qed.

(** X5: no value of the stats block is negative; [avg_words_length] is
    0.0 when the content has no word and at least 1.0 when it has one;
    [empty_lines] is at most the number of lines. *)
Theorem stats_values_are_in_range :
  forall content s,
    compute_stats content = Ok s ->
    exists a w n,
      s = [ (avg_line_length, FloatVal a); (avg_words_length, FloatVal w);
            (empty_lines, IntVal n) ]
      /\ f_neg a = false /\ f_neg w = false
      /\ (split content = [] -> w = zero)
      /\ (split content <> [] -> at_least_one w)
      /\ 0 <= n <= len_list (splitlines content).
Proof.
  intros content s. unfold compute_stats.
  pose proof (sum_len_nonneg (splitlines content)) as Hl0.
  pose proof (sum_len_nonneg (split content)) as Hw0.
  pose proof (sum_at_least_length _ (split_from_tokens content [])) as Hw1.
  fold (split content) in Hw1.
  destruct (truediv (sum (map len (splitlines content))) _) as [a|e] eqn:Ea;
    cbn [bind]; [|discriminate].
  destruct (truediv (sum (map len (split content))) _) as [w|e] eqn:Ew;
    cbn [bind]; [|discriminate].
  intros H. injection H as <-. do 3 eexists. split; [reflexivity|].
  unfold truediv in Ea, Ew.
  destruct (Z.max (len_list (splitlines content)) 1 =? 0); [discriminate|].
  destruct (Z.max (len_list (split content)) 1 =? 0); [discriminate|].
  destruct (round_ratio _ (Z.abs (sum (map len (splitlines content)))) _)
    as [a'|] eqn:Ra; [|discriminate].
  destruct (round_ratio _ (Z.abs (sum (map len (split content)))) _)
    as [w'|] eqn:Rw; [|discriminate].
  injection Ea as ->. injection Ew as ->.
  assert (Sa : xorb (sum (map len (splitlines content)) <? 0)
                 (Z.max (len_list (splitlines content)) 1 <? 0) = false).
  { rewrite (proj2 (Z.ltb_ge _ _)) by lia. rewrite (proj2 (Z.ltb_ge _ _)) by lia.
    reflexivity. }
  assert (Sw : xorb (sum (map len (split content)) <? 0)
                 (Z.max (len_list (split content)) 1 <? 0) = false).
  { rewrite (proj2 (Z.ltb_ge _ _)) by lia. rewrite (proj2 (Z.ltb_ge _ _)) by lia.
    reflexivity. }
  rewrite Sa in Ra. rewrite Sw in Rw.
  split; [exact (round_ratio_sign _ _ _ _ Ra)|].
  split; [exact (round_ratio_sign _ _ _ _ Rw)|].
  split; [|split].
  - intros Hnil. rewrite Hnil in Rw. vm_compute in Rw. now injection Rw as <-.
  - intros Hne.
    assert (1 <= len_list (split content)).
    { unfold len_list. destruct (split content); [contradiction|].
      cbn [List.length]. lia. }
    refine (round_ratio_at_least_one _ _ _ _ Rw). lia.
  - apply sum_ones_filter.
Qed.

Lemma ratio_of_denominator : forall x, 0 < snd (ratio_of x).
Proof.
  intros x. unfold ratio_of, scale.
  destruct (0 <=? - f_exp x) eqn:E; cbn [snd]; [|lia].
  apply Z.leb_le in E. assert (0 < 2 ^ (- f_exp x)) by (apply Z.pow_pos_nonneg; lia).
  lia.
Qed.

Lemma ratio_of_numerator : forall x, f_mant x = 0 <-> fst (ratio_of x) = 0.
Proof.
  intros x. unfold ratio_of, scale.
  destruct (0 <=? - f_exp x) eqn:E; cbn [fst]; [tauto|].
  apply Z.leb_gt in E.
  assert (0 < 2 ^ (- - f_exp x)) by (apply Z.pow_pos_nonneg; lia). nia.
Qed.

(** A quotient that is a binary64 number is not rounded. *)
Lemma truediv_exact : forall a b x,
  0 <= a -> 0 < b -> canonical x = true -> f_neg x = false ->
  ratio_eq (a, b) (ratio_of x) -> truediv a b = Ok x.
Proof.
  intros a b x Ha Hb Hc Hs HR. unfold truediv.
  rewrite (proj2 (Z.eqb_neq b 0)) by lia.
  rewrite (proj2 (Z.ltb_ge a 0)), (proj2 (Z.ltb_ge b 0)) by lia.
  rewrite (Z.abs_eq a), (Z.abs_eq b) by lia. cbn [xorb].
  pose proof (ratio_of_denominator x) as Hd.
  pose proof (ratio_of_numerator x) as Hn.
  unfold ratio_eq in HR. cbn [fst snd] in HR.
  destruct (Z.eq_dec (f_mant x) 0) as [E0 | E0].
  - assert (a = 0) by (apply Hn in E0; nia). subst a.
    apply canonical_spec in Hc as (_ & _ & [Hc | Hc]); [lia|].
    destruct x as [neg m e]. cbn [f_neg f_mant f_exp] in *. subst. reflexivity.
  - assert (0 < a).
    { destruct (Z.eq_dec a 0) as [->|]; [|lia]. exfalso. apply E0, Hn. nia. }
    rewrite <- Hs. now rewrite (round_ratio_exact x a b Hc E0).
Qed.

(** X6: an average whose exact value is a binary64 number is that
    number: the division brings no rounding error of its own. *)
Theorem averages_are_exact_when_representable :
  forall content s x,
    compute_stats content = Ok s ->
    canonical x = true -> f_neg x = false ->
    (ratio_eq (nonspace_count content, Z.max (token_count content) 1) (ratio_of x) ->
     dict_get stat_eqb s avg_words_length = Some (FloatVal x))
    /\ (ratio_eq (sum (map len (splitlines content)),
                  Z.max (len_list (splitlines content)) 1) (ratio_of x) ->
        dict_get stat_eqb s avg_line_length = Some (FloatVal x)).
Proof.
  intros content s x Hs Hc Hn.
  pose proof (sum_len_nonneg (splitlines content)) as Hl0.
  pose proof (sum_len_nonneg (split content)) as Hw0.
  pose proof (split_from_sum content []) as Hsum. fold (split content) in Hsum.
  change (len []) with 0 in Hsum. rewrite Z.add_0_l in Hsum.
  rewrite <- split_is_token_count, <- Hsum.
  unfold compute_stats in Hs.
  destruct (truediv (sum (map len (splitlines content))) _) as [a|e] eqn:Ea;
    cbn [bind] in Hs; [|discriminate].
  destruct (truediv (sum (map len (split content))) _) as [w|e] eqn:Ew;
    cbn [bind] in Hs; [|discriminate].
  injection Hs as <-. cbn [dict_get stat_eqb]. split; intros HR.
  - assert (Hq : 0 < Z.max (len_list (split content)) 1) by lia.
    rewrite (truediv_exact _ _ x Hw0 Hq Hc Hn HR) in Ew. congruence.
  - assert (Hq : 0 < Z.max (len_list (splitlines content)) 1) by lia.
    rewrite (truediv_exact _ _ x Hl0 Hq Hc Hn HR) in Ea. congruence.
Qed.

Lemma averages_are_exact_when_representable_witness :
  dict_get stat_eqb two_words_stats avg_words_length
  = Some (FloatVal four_and_a_half).
Proof.
  apply (averages_are_exact_when_representable two_words two_words_stats
           four_and_a_half); reflexivity.
Defined.

Lemma averages_are_of_words_and_lines_witness :
  truediv (nonspace_count two_words) (Z.max (token_count two_words) 1)
  = Ok four_and_a_half.
Proof.
  destruct (averages_are_of_words_and_lines two_words two_words_stats eq_refl)
    as (a & w & n & Hs & Hw & _).
  injection Hs as _ Ew _. rewrite Ew. exact Hw.
Defined.

Lemma stats_values_are_in_range_witness : at_least_one four_and_a_half.
Proof.
  destruct (stats_values_are_in_range two_words two_words_stats eq_refl)
    as (a & w & n & Hs & _ & _ & _ & Hw & _).
  injection Hs as _ Ew _. rewrite Ew. apply Hw. discriminate.
Defined.

(** ** Blank contents *)

Lemma split_from_blank : forall s,
  forallb isspace s = true -> split_from [] s = [].
Proof.
  induction s as [|c s IH]; [reflexivity|]. cbn [forallb split_from].
  intros H. apply andb_true_iff in H as [Hc Hs]. rewrite Hc. now apply IH.
Qed.

Lemma lstrip_blank : forall s, forallb isspace s = true -> lstrip s = [].
Proof.
  induction s as [|c s IH]; [reflexivity|]. cbn [forallb lstrip].
  intros H. apply andb_true_iff in H as [Hc Hs]. rewrite Hc. now apply IH.
Qed.

Lemma forallb_snoc : forall {A} (f : A -> bool) l a,
  forallb f (l ++ [a]) = forallb f l && f a.
Proof. intros. rewrite forallb_app. cbn. now rewrite andb_true_r. Qed.

(** The lines of a blank content are blank. *)
Lemma splitlines_from_blank : forall s cur,
  forallb isspace cur = true -> forallb isspace s = true ->
  forallb (forallb isspace) (splitlines_from cur s) = true.
Proof.
  intros s. remember (List.length s) as n eqn:Hn.
  revert s Hn. induction n as [n IH] using lt_wf_ind. intros s Hn cur Hcur Hs.
  destruct s as [|c s]; cbn [splitlines_from].
  - destruct cur; [reflexivity|]. cbn [flush forallb] in *. now rewrite Hcur.
  - cbn [forallb] in Hs. apply andb_true_iff in Hs as [Hc Hs].
    destruct (is_linebreak c).
    + cbn [forallb]. rewrite Hcur. cbn [andb]. destruct s as [|d s'].
      * reflexivity.
      * destruct ((c =? CR) && (d =? NL))%N.
        -- cbn [forallb] in Hs. apply andb_true_iff in Hs as [_ Hs].
           apply (IH (List.length s')); [simpl in Hn; lia | reflexivity
                                         | reflexivity | assumption].
        -- apply (IH (List.length (d :: s'))); [simpl in Hn; simpl; lia | reflexivity
                                                | reflexivity | assumption].
    + apply (IH (List.length s)); [simpl in Hn; lia | reflexivity | | assumption].
      now rewrite forallb_snoc, Hcur, Hc.
Qed.

Lemma filter_blank_lines : forall ls : list pystr,
  forallb (forallb isspace) ls = true ->
  filter (fun line => negb (truthy (strip line))) ls = ls.
Proof.
  induction ls as [|l ls IH]; [reflexivity|]. cbn [forallb filter].
  intros H. apply andb_true_iff in H as [Hl Hls].
  assert (Hstrip : strip l = []).
  { unfold strip, rstrip. now rewrite (lstrip_blank l Hl). }
  rewrite Hstrip. cbn [truthy negb]. now rewrite IH.
Qed.

Lemma sum_ones : forall {A} (l : list A), sum (map (fun _ => 1) l) = len_list l.
Proof.
  intros A l. unfold len_list. induction l as [|a l IH]; [reflexivity|].
  cbn [map List.length]. rewrite sum_cons, Nat2Z.inj_succ. lia.
Qed.

(** X7: a content of whitespace only has 0 words and an
    [avg_words_length] of 0.0, and every one of its lines counts as
    empty. *)
Theorem blank_content_has_no_word_and_only_empty_lines :
  forall modes content m,
    forallb isspace content = true ->
    analyze_content modes content = Ok m ->
    (wants m_words modes = true ->
     dict_get metric_eqb m k_words = Some (Scalar 0))
    /\ (mode_in m_stats modes = true ->
        exists a,
          dict_get metric_eqb m k_stats
          = Some (Nested [ (avg_line_length, FloatVal a);
                           (avg_words_length, FloatVal zero);
                           (empty_lines, IntVal (len_list (splitlines content))) ])).
Proof.
  intros modes content m Hb Hm.
  destruct (analyze_content_get _ _ _ Hm) as (_ & Gw & _ & Gs).
  pose proof (split_from_blank content Hb) as Hsplit. fold (split content) in Hsplit.
  split.
  - intros Hw. rewrite Hw in Gw. now rewrite Gw, Hsplit.
  - intros Hs. rewrite Hs in Gs. destruct Gs as (s & Hcs & Gs). rewrite Gs.
    unfold compute_stats in Hcs. rewrite Hsplit in Hcs.
    destruct (truediv (sum (map len (splitlines content))) _) as [a|e];
      cbn [bind] in Hcs; [|discriminate].
    change (truediv (sum (map len [])) (Z.max (len_list (@nil pystr)) 1))
      with (Ok zero) in Hcs. cbn [bind] in Hcs.
    rewrite filter_blank_lines, sum_ones in Hcs
      by (apply splitlines_from_blank; [reflexivity | assumption]).
    injection Hcs as <-. now exists a.
Qed.

Lemma blank_content_has_no_word_and_only_empty_lines_witness :
  dict_get metric_eqb
    [ (k_words, Scalar 0);
      (k_stats, Nested [ (avg_line_length, FloatVal (mkFloat false (2 ^ 52) (-52)));
                         (avg_words_length, FloatVal zero);
                         (empty_lines, IntVal 3) ]) ] k_words
  = Some (Scalar 0).
Proof.
  apply (blank_content_has_no_word_and_only_empty_lines [m_words; m_stats]
           blank_content); reflexivity.
Defined.

(** ** The results of the loop *)

Lemma collect_fresh : forall os args files (acc : ResultSet),
  NoDup files ->
  (forall f, In f files -> ~ In f (dict_keys acc)) ->
  collect os args files acc
  = acc ++ flat_map (fun f => match file_metrics os args f with
                              | Some r => [(f, r)]
                              | None => []
                              end) files.
Proof.
  intros os args. unfold collect.
  induction files as [|f rest IH]; intros acc Hnd Hfresh.
  - cbn. now rewrite app_nil_r.
  - inversion Hnd as [|? ? Hnin Hnd']; subst. cbn [fold_left flat_map].
    destruct (file_metrics os args f) as [r|].
    + rewrite (dict_set_keys_fresh PyStr.eqb pystr_eqb_spec)
        by (apply Hfresh; now left).
      rewrite IH; [now rewrite <- app_assoc | assumption |].
      intros g Hg. unfold dict_keys. rewrite map_app, in_app_iff. cbn.
      intros [Hin | [<- | []]]; [|contradiction].
      apply (Hfresh g); [now right | exact Hin].
    + apply IH; [assumption|]. intros g Hg. apply Hfresh. now right.
Qed.

(** X8: over a list of distinct paths, the loop of [main] collects one
    entry for each file that can be read, in the order of the list, and
    the entry of a file holds the analysis of its content in the
    requested modes. *)
Theorem results_hold_the_readable_files_in_order :
  forall os args files results,
    NoDup files ->
    snd (analyze_all os args files []) = Ok results ->
    dict_keys results = filter (readable os (args_encoding args)) files
    /\ (forall f m,
          In (f, m) results ->
          exists content,
            read_file os f (effective_encoding (args_encoding args)) = inl content
            /\ analyze_content (args_mode args) content = Ok m).
Proof.
  intros os args files results Hnd H.
  destruct (analyze_all_spec _ _ _ _ _ H) as (_ & Hr & Hf).
  rewrite collect_fresh in Hr by (assumption || intros ? ? []). cbn [app] in Hr.
  subst results. split.
  - clear H Hnd. induction Hf as [|f rest [_ Hx] _ IH]; [reflexivity|].
    cbn [flat_map filter]. unfold dict_keys in *. rewrite map_app, IH.
    destruct (file_metrics os args f) as [r|] eqn:Em.
    + now rewrite (file_metrics_readable _ _ _ _ Em).
    + destruct (readable os (args_encoding args) f); [|reflexivity].
      now specialize (Hx eq_refl).
  - intros f m Hin. apply in_flat_map in Hin as (g & _ & Hin).
    unfold file_metrics in Hin. destruct (isfile os g); [|contradiction].
    destruct (read_file os g _) as [content|e] eqn:Erd; [|contradiction].
    destruct (analyze_content (args_mode args) content) as [r|e] eqn:Ea;
      [|contradiction].
    destruct Hin as [Hin | []]. injection Hin as <- <-. eauto.
Qed.

Lemma results_hold_the_readable_files_in_order_witness :
  dict_keys [(lit "a.txt", [(k_lines, Scalar 3); (k_words, Scalar 3)])]
  = filter (readable sample_os None) [lit "a.txt"; lit "b.txt"].
Proof.
  apply (results_hold_the_readable_files_in_order sample_os verbose_args
           [lit "a.txt"; lit "b.txt"]).
  - repeat constructor; simpl; intuition discriminate.
  - reflexivity.
Defined.

(** ** The trace of a run *)

Lemma analyzed_app : forall a b, analyzed (a ++ b) = analyzed a ++ analyzed b.
Proof. intros. unfold analyzed. apply flat_map_app. Qed.

Lemma printed_app : forall a b, printed (a ++ b) = printed a ++ printed b.
Proof. intros. unfold printed. apply flat_map_app. Qed.

Lemma file_events_app : forall a b,
  file_events (a ++ b) = file_events a ++ file_events b.
Proof. intros. unfold file_events. apply filter_app. Qed.

Lemma analyzed_prints : forall l, analyzed (map Print l) = [].
Proof. induction l; [reflexivity | assumption]. Qed.

Lemma file_events_prints : forall l, file_events (map Print l) = [].
Proof. induction l; [reflexivity | assumption]. Qed.

Lemma printed_prints : forall l, printed (map Print l) = l.
Proof. induction l as [|a l IH]; [reflexivity | cbn; now f_equal]. Qed.

Lemma loop_trace : forall os args files,
  let tr := flat_map (fun f => Analyze f :: map Print (console_of_file os args f))
              files in
  analyzed tr = files
  /\ printed tr = flat_map (console_of_file os args) files
  /\ file_events tr = [].
Proof.
  intros os args. induction files as [|f rest IH]; [repeat split|].
  cbn zeta in *. destruct IH as (Ha & Hp & Hw). cbn [flat_map].
  rewrite analyzed_app, printed_app, file_events_app, Ha, Hp, Hw.
  change (analyzed (Analyze f :: ?l)) with (f :: analyzed l).
  change (printed (Analyze f :: ?l)) with (printed l).
  change (file_events (Analyze f :: ?l)) with (file_events l).
  now rewrite analyzed_prints, printed_prints, file_events_prints.
Qed.

(** The list made from a set of paths holds each path of the set once. *)
Lemma list_of_set_spec : forall os l,
  NoDup (list_of_set os l) /\ (forall x, In x (list_of_set os l) <-> In x l).
Proof.
  intros os l. unfold list_of_set.
  set (elements := nodup (list_eq_dec N.eq_dec) l).
  assert (Hnd : NoDup elements) by apply NoDup_nodup.
  assert (Hin : forall x, In x elements <-> In x l) by (intros x; apply nodup_In).
  destruct (rearranges (set_order os elements) elements) eqn:E;
    [|split; assumption].
  assert (Hp : Permutation elements (set_order os elements)).
  { apply (Permutation_count_occ (list_eq_dec N.eq_dec)). intros x.
    unfold rearranges in E. rewrite forallb_forall in E.
    destruct (in_dec (list_eq_dec N.eq_dec) x (set_order os elements ++ elements))
      as [Hx | Hx].
    - symmetry. apply Nat.eqb_eq. now apply E.
    - rewrite in_app_iff in Hx.
      rewrite (proj1 (count_occ_not_In _ elements x)) by tauto.
      rewrite (proj1 (count_occ_not_In _ (set_order os elements) x)) by tauto.
      reflexivity. }
  split; [exact (Permutation_NoDup Hp Hnd)|].
  intros x. rewrite <- Hin. split; apply Permutation_in;
    [now apply Permutation_sym | exact Hp].
Qed.

(** The events of [report] once the results are formatted. *)
Lemma report_unfold : forall os args results out,
  formatted_output results (args_format args) = Ok out ->
  report os args results
  = if opt_truthy (args_output args) then
      let attempt := save os (opt_str (args_output args)) out in
      match snd attempt with
      | None => (Format :: fst attempt, Ok tt)
      | Some e =>
          if printable os (lit "Error saving results: " ++ e) then
            if printable os out then
              (Format :: fst attempt
                 ++ [Print (lit "Error saving results: " ++ e); Print out],
               Ok tt)
            else
              (Format :: fst attempt
                 ++ [Print (lit "Error saving results: " ++ e)],
               Raise UnicodeEncodeError)
          else (Format :: fst attempt, Raise UnicodeEncodeError)
      end
    else if printable os out then ([Format; Print out], Ok tt)
         else ([Format], Raise UnicodeEncodeError).
Proof.
  intros os args results out Hout.
  unfold report, io_bind, lift, print. cbn [fst snd emit]. rewrite Hout.
  cbn [fst snd app].
  destruct (opt_truthy (args_output args)); [|now destruct (printable os out)].
  cbn zeta. destruct (save os (opt_str (args_output args)) out) as [evs [e|]];
    cbn [fst snd emit io_ret app].
  - destruct (printable os (lit "Error saving results: " ++ e));
      cbn [fst snd]; [|now rewrite app_nil_r].
    destruct (printable os out); cbn [fst snd app]; reflexivity.
  - now rewrite app_nil_r.
Qed.

Lemma report_raises : forall os args results e,
  formatted_output results (args_format args) = Raise e ->
  report os args results = ([Format], Raise e).
Proof.
  intros os args results e Hout.
  unfold report, io_bind, lift. cbn [fst snd emit]. now rewrite Hout.
Qed.

Lemma save_events : forall os path out,
  analyzed (fst (save os path out)) = []
  /\ ~ In Format (fst (save os path out)).
Proof.
  intros os path out. unfold save.
  destruct (open_write os path); [split; [reflexivity | intros []]|].
  destruct (write_text os path out);
    [split; [reflexivity | cbn; intuition discriminate]|].
  destruct (printable os _); split; try reflexivity; cbn; intuition discriminate.
Qed.

(** [report] begins with its only [Format] event and analyses no file. *)
Lemma report_tail : forall os args results,
  exists tail,
    fst (report os args results) = Format :: tail /\ analyzed tail = [].
Proof.
  intros os args results.
  destruct (formatted_output results (args_format args)) as [out|e] eqn:Eo;
    [|rewrite (report_raises _ _ _ _ Eo); now exists []].
  rewrite (report_unfold _ _ _ _ Eo).
  destruct (opt_truthy (args_output args));
    [|destruct (printable os out); eexists; split; reflexivity].
  cbn zeta. pose proof (save_events os (opt_str (args_output args)) out) as [Hs _].
  destruct (snd (save os (opt_str (args_output args)) out)) as [e|];
    [|eexists; split; [reflexivity | exact Hs]].
  destruct (printable os (lit "Error saving results: " ++ e));
    [destruct (printable os out)|];
    eexists; (split; [reflexivity|]); rewrite ?analyzed_app, ?Hs; reflexivity.
Qed.

(** A run that matches a file, when nothing is raised. *)
Lemma main_spec : forall os args,
  list_of_set os (resolve os args) <> [] ->
  snd (main os args) = Ok tt ->
  exists results out,
    snd (analyze_all os args (list_of_set os (resolve os args)) []) = Ok results
    /\ formatted_output results (args_format args) = Ok out
    /\ snd (report os args results) = Ok tt
    /\ fst (main os args)
       = flat_map (fun f => Analyze f :: map Print (console_of_file os args f))
           (list_of_set os (resolve os args))
         ++ fst (report os args results).
Proof.
  intros os args Hne H. unfold main in *.
  destruct (list_of_set os (resolve os args)) as [|f0 files] eqn:El;
    [contradiction|].
  unfold io_bind in *.
  destruct (snd (analyze_all os args (f0 :: files) [])) as [results|e] eqn:Ea;
    [|discriminate].
  cbn [fst snd] in *.
  destruct (formatted_output results (args_format args)) as [out|e] eqn:Eo.
  - exists results, out. split; [reflexivity|]. split; [assumption|].
    split; [assumption|].
    now rewrite (proj1 (analyze_all_spec _ _ _ _ _ Ea)).
  - now rewrite (report_raises _ _ _ _ Eo) in H.
Qed.



(** X10: what a run that matches a file and raises nothing prints, and
    what it does to the output file.  For each file in order it prints
    the diagnostic of a file that cannot be read, the line of the
    analysis if the run is verbose, and nothing otherwise.  Then, without
    an output file, it prints the formatted results.  With an output file
    that cannot be opened, it prints the error and the results and leaves
    the file alone; when the write fails, the file has been opened, hence
    emptied, and the error and the results are printed; when the write
    succeeds, the confirmation is printed, or, the confirmation being
    inside the [try], the error of a confirmation that the standard
    output cannot encode, followed by the results. *)
Theorem console_of_a_run :
  forall os args,
    list_of_set os (resolve os args) <> [] ->
    snd (main os args) = Ok tt ->
    exists results out closing,
      snd (analyze_all os args (list_of_set os (resolve os args)) []) = Ok results
      /\ formatted_output results (args_format args) = Ok out
      /\ printed (fst (main os args))
         = flat_map (console_of_file os args) (list_of_set os (resolve os args))
           ++ closing
      /\ (opt_truthy (args_output args) = false ->
          closing = [out] /\ file_events (fst (main os args)) = [])
      /\ (opt_truthy (args_output args) = true ->
          let path := opt_str (args_output args) in
          let saved := lit "Results saved to '" ++ path ++ lit "'" in
          match open_write os path with
          | Some e =>
              closing = [lit "Error saving results: " ++ e; out]
              /\ file_events (fst (main os args)) = []
          | None =>
              match write_text os path out with
              | Some e =>
                  closing = [lit "Error saving results: " ++ e; out]
                  /\ file_events (fst (main os args)) = [Open path]
              | None =>
                  closing
                  = (if printable os saved then [saved]
                     else [lit "Error saving results: " ++ encode_error os saved;
                           out])
                  /\ file_events (fst (main os args))
                     = [Open path; Write path out]
              end
          end).
Proof.
  intros os args Hne H.
  destruct (main_spec os args Hne H) as (results & out & Ha & Ho & Hr & Ht).
  pose proof (loop_trace os args (list_of_set os (resolve os args)))
    as (_ & Lp & Lw).
  exists results, out, (printed (fst (report os args results))).
  split; [assumption|]. split; [assumption|].
  rewrite Ht, printed_app, file_events_app, Lp, Lw. cbn [app].
  split; [reflexivity|].
  rewrite (report_unfold _ _ _ _ Ho) in Hr |- *.
  destruct (opt_truthy (args_output args)).
  - split; [discriminate|]. intros _. cbn zeta in Hr |- *. unfold save in Hr |- *.
    destruct (open_write os (opt_str (args_output args))) as [e|];
      cbn [fst snd app] in Hr |- *.
    + destruct (printable os (lit "Error saving results: " ++ e));
        [|discriminate].
      destruct (printable os out); [|discriminate]. split; reflexivity.
    + destruct (write_text os (opt_str (args_output args)) out) as [e|];
        cbn [fst snd app] in Hr |- *.
      * destruct (printable os (lit "Error saving results: " ++ e));
          [|discriminate].
        destruct (printable os out); [|discriminate]. split; reflexivity.
      * destruct (printable os (lit "Results saved to '" ++ _ ++ lit "'"));
          cbn [fst snd app] in Hr |- *; [split; reflexivity|].
        destruct (printable os (lit "Error saving results: " ++ _));
          [|discriminate].
        destruct (printable os out); [|discriminate]. split; reflexivity.
  - split; [|discriminate]. intros _.
    destruct (printable os out); [|discriminate]. split; reflexivity.
Qed.

Lemma console_of_a_run_witness :
  exists results out closing,
    snd (analyze_all sample_os saving_args [lit "a.txt"; lit "b.txt"] [])
    = Ok results
    /\ formatted_output results fmt_csv = Ok out
    /\ printed (fst (main sample_os saving_args))
       = [lit "Error reading file 'b.txt': invalid start byte"] ++ closing
    /\ (true = false ->
        closing = [out] /\ file_events (fst (main sample_os saving_args)) = [])
    /\ (true = true ->
        closing = [lit "Results saved to 'out.txt'"]
        /\ file_events (fst (main sample_os saving_args))
           = [Open (lit "out.txt"); Write (lit "out.txt") out]).
Proof.
  destruct (console_of_a_run sample_os saving_args)
    as (results & out & closing & H); [discriminate | reflexivity |].
  exists results, out, closing. exact H.
Defined.
(** ** The files of a run *)

Lemma startswith_app : forall p s t,
  startswith s p = true -> startswith (s ++ t) p = true.
Proof.
  induction p as [|a p IH]; intros s t H; [now destruct (s ++ t)|].
  destruct s as [|c s]; [discriminate|]. cbn [startswith app] in *.
  apply andb_true_iff in H as [Hc Hs]. now rewrite Hc, (IH _ _ Hs).
Qed.

Lemma endswith_app : forall prefix name ext,
  endswith name ext = true -> endswith (prefix ++ name) ext = true.
Proof.
  intros prefix name ext H. unfold endswith in *. rewrite rev_app_distr.
  now apply startswith_app.
Qed.

Lemma endswith_nil : forall s, endswith s [] = true.
Proof. intros s. unfold endswith. cbn [rev]. now destruct (rev s). Qed.

Lemma in_analyzed : forall tr f, In (Analyze f) tr <-> In f (analyzed tr).
Proof.
  intros tr f. unfold analyzed. rewrite in_flat_map. split.
  - intros H. exists (Analyze f). split; [exact H | now left].
  - intros (ev & Hin & Hev). destruct ev; try contradiction.
    destruct Hev as [<- | []]. exact Hin.
Qed.

(** The paths of the trace of the loop are those of its list, raising or
    not. *)
Lemma analyze_all_analyzed : forall os args files acc f,
  In (Analyze f) (fst (analyze_all os args files acc)) -> In f files.
Proof.
  intros os args. induction files as [|g rest IH]; intros acc f H.
  - destruct H.
  - rewrite analyze_all_cons in H.
    assert (Hhead : In (Analyze f) (Analyze g :: map Print (console_of_file os args g))
                    -> f = g).
    { intros [E | E]; [now injection E | ].
      apply in_map_iff in E as (? & ? & _). discriminate. }
    assert (Hstep : forall acc',
              In (Analyze f)
                ((Analyze g :: map Print (console_of_file os args g))
                   ++ fst (analyze_all os args rest acc')) ->
              In f (g :: rest)).
    { intros acc' H'. apply in_app_iff in H' as [H' | H'];
        [left; symmetry; now apply Hhead | right; now apply (IH _ _ H')]. }
    destruct (forallb (printable os) (console_of_file os args g));
      [|destruct H as [H | []]; injection H as <-; now left].
    destruct (readable os (args_encoding args) g); [|now apply (Hstep acc)].
    destruct (read_file os g (effective_encoding (args_encoding args)))
      as [content|e]; [|now apply (Hstep acc)].
    destruct (analyze_content (args_mode args) content) as [r|e];
      [now apply (Hstep (dict_set PyStr.eqb acc g r))|].
    left. symmetry. now apply Hhead.
Qed.

Lemma main_analyzed : forall os args f,
  In (Analyze f) (fst (main os args)) ->
  In f (list_of_set os (resolve os args)).
Proof.
  intros os args f H. unfold main in H.
  destruct (list_of_set os (resolve os args)) as [|f0 files] eqn:El.
  { unfold print in H. destruct (printable os _); cbn in H;
      [destruct H as [H | []]; discriminate | destruct H]. }
  unfold io_bind in H.
  destruct (snd (analyze_all os args (f0 :: files) [])) as [results|e];
    cbn [fst] in H.
  - apply in_app_iff in H as [H | H]; [now apply analyze_all_analyzed in H|].
    exfalso. destruct (report_tail os args results) as (tail & Hrep & Htail).
    rewrite Hrep in H. destruct H as [H | H]; [discriminate|].
    apply in_analyzed in H. now rewrite Htail in H.
  - now apply analyze_all_analyzed in H.
Qed.

(** X11: with [--ext], every path given to [analyze_file] ends with the
    extension, whether it was found by walking a directory or by a glob
    pattern; this for a system where a joined path ends with the name
    that was joined. *)
Theorem only_files_with_the_extension_are_analysed :
  forall os args ext f,
    args_ext args = Some ext ->
    (forall root name, exists prefix, path_join os root name = prefix ++ name) ->
    In (Analyze f) (fst (main os args)) ->
    endswith f ext = true.
Proof.
  intros os args ext f Hext Hjoin H.
  apply main_analyzed in H.
  apply (proj1 (proj2 (list_of_set_spec os _) _)) in H.
  unfold resolve in H. rewrite Hext in H.
  destruct ext as [|c ext]; [apply endswith_nil|].
  cbn [opt_truthy truthy opt_str] in H. unfold ext_ok in H.
  cbn [opt_truthy truthy opt_str andb] in H.
  apply in_flat_map in H as (pattern & _ & H).
  destruct (isdir os pattern && args_recursive args).
  - apply in_flat_map in H as ([root names] & _ & H). cbn [fst snd] in H.
    apply in_map_iff in H as (name & <- & H).
    apply filter_In in H as [_ H]. apply negb_true_iff, negb_false_iff in H.
    destruct (Hjoin root name) as (prefix & ->). now apply endswith_app.
  - now apply filter_In in H as [_ H].
Qed.

Lemma only_files_with_the_extension_are_analysed_witness :
  endswith (lit "./a.txt") (lit ".txt") = true.
Proof.
  apply (only_files_with_the_extension_are_analysed sample_os recursive_args
           (lit ".txt") (lit "./a.txt")).
  - reflexivity.
  - intros root name. exists (root ++ lit "/"). cbn. now rewrite <- app_assoc.
  - cbn. tauto.
Defined.

Lemma analyze_all_directories : forall os d w args files acc,
  analyze_all (with_directories os d w) args files acc
  = analyze_all os args files acc.
Proof.
  intros os d w args. induction files as [|f rest IH]; intros acc; [reflexivity|].
  cbn [analyze_all]. unfold io_bind.
  change (analyze_file (with_directories os d w) f (args_mode args)
            (args_verbose args) (args_encoding args))
    with (analyze_file os f (args_mode args) (args_verbose args) (args_encoding args)).
  destruct (snd (analyze_file os f _ _ _)); [|reflexivity].
  now rewrite IH.
Qed.

(** X12: without [--recursive] a run depends neither on which paths
    are directories nor on what a walk would find: no directory is
    walked. *)
Theorem no_directory_is_walked_without_recursive :
  forall os d w args,
    args_recursive args = false ->
    main (with_directories os d w) args = main os args.
Proof.
  intros os d w args Hr.
  assert (Hres : resolve (with_directories os d w) args = resolve os args).
  { unfold resolve. rewrite Hr. apply flat_map_ext. intros pattern.
    now rewrite !andb_false_r. }
  unfold main. rewrite Hres.
  change (list_of_set (with_directories os d w) (resolve os args))
    with (list_of_set os (resolve os args)).
  destruct (list_of_set os (resolve os args)) as [|f0 files]; [reflexivity|].
  now rewrite analyze_all_directories.
Qed.

Lemma no_directory_is_walked_without_recursive_witness :
  main (with_directories sample_os (fun _ => true) (fun _ => [])) verbose_args
  = main sample_os verbose_args.
Proof.
  apply (no_directory_is_walked_without_recursive sample_os
           (fun _ => true) (fun _ => []) verbose_args).
  reflexivity.
Defined.

(** ** Runs in which no file can be read *)

Lemma analyze_all_unreadable : forall os args files acc,
  (forall f, In f files -> readable os (args_encoding args) f = false) ->
  (forall f, In f files ->
             printable os (diagnostic os f (args_encoding args)) = true) ->
  analyze_all os args files acc
  = (flat_map (fun f => [Analyze f; Print (diagnostic os f (args_encoding args))])
       files,
     Ok acc).
Proof.
  intros os args. induction files as [|f rest IH]; intros acc Hu Hp;
    [reflexivity|].
  rewrite analyze_all_cons. unfold console_of_file.
  rewrite (Hu f) by now left. cbn [forallb map]. rewrite (Hp f) by now left.
  cbn [andb]. rewrite IH; [reflexivity | |]; intros g Hg;
    [apply Hu | apply Hp]; now right.
Qed.

Lemma printed_diagnostics : forall (d : pystr -> pystr) files,
  printed (flat_map (fun f => [Analyze f; Print (d f)]) files) = map d files
  /\ analyzed (flat_map (fun f => [Analyze f; Print (d f)]) files) = files
  /\ file_events (flat_map (fun f => [Analyze f; Print (d f)]) files) = [].
Proof.
  intros d. induction files as [|f rest (IH1 & IH2 & IH3)];
    [repeat split|].
  cbn [flat_map]. rewrite printed_app, analyzed_app, file_events_app.
  rewrite IH1, IH2, IH3. repeat split.
Qed.

Lemma empty_report_printable : forall os format_type,
  printable os (empty_report format_type) = true.
Proof. intros os []; reflexivity. Qed.

(** X13: when files match, none of them can be read and the diagnostic
    of each can be printed, the loop prints these diagnostics and leaves
    the results empty, and the run ends as the report of no results
    does: the empty text, [{}] in JSON, the header row alone in CSV.
    Without [--output] this text is printed and the run raises nothing;
    with it, and when the file can be written and the confirmation
    printed, the text is written and the confirmation printed; when the
    file cannot be opened and the message of the failure can be
    printed, the message and the text are printed and no file is
    touched. *)
Theorem run_without_readable_file_reports_nothing :
  forall os args,
    list_of_set os (resolve os args) <> [] ->
    (forall f, In f (list_of_set os (resolve os args)) ->
               readable os (args_encoding args) f = false) ->
    (forall f, In f (list_of_set os (resolve os args)) ->
               printable os (diagnostic os f (args_encoding args)) = true) ->
    snd (analyze_all os args (list_of_set os (resolve os args)) []) = Ok []
    /\ formatted_output [] (args_format args)
       = Ok (empty_report (args_format args))
    /\ main os args
       = (flat_map
            (fun f => [Analyze f; Print (diagnostic os f (args_encoding args))])
            (list_of_set os (resolve os args))
            ++ fst (report os args []),
          snd (report os args []))
    /\ (opt_truthy (args_output args) = false ->
        snd (main os args) = Ok tt
        /\ printed (fst (main os args))
           = map (fun f => diagnostic os f (args_encoding args))
               (list_of_set os (resolve os args))
             ++ [empty_report (args_format args)]
        /\ file_events (fst (main os args)) = [])
    /\ (opt_truthy (args_output args) = true ->
        open_write os (opt_str (args_output args)) = None ->
        write_text os (opt_str (args_output args))
          (empty_report (args_format args)) = None ->
        printable os
          (lit "Results saved to '" ++ opt_str (args_output args) ++ lit "'")
        = true ->
        snd (main os args) = Ok tt
        /\ printed (fst (main os args))
           = map (fun f => diagnostic os f (args_encoding args))
               (list_of_set os (resolve os args))
             ++ [lit "Results saved to '" ++ opt_str (args_output args)
                   ++ lit "'"]
        /\ file_events (fst (main os args))
           = [Open (opt_str (args_output args));
              Write (opt_str (args_output args))
                (empty_report (args_format args))])
    /\ (forall e,
        opt_truthy (args_output args) = true ->
        open_write os (opt_str (args_output args)) = Some e ->
        printable os (lit "Error saving results: " ++ e) = true ->
        snd (main os args) = Ok tt
        /\ printed (fst (main os args))
           = map (fun f => diagnostic os f (args_encoding args))
               (list_of_set os (resolve os args))
             ++ [lit "Error saving results: " ++ e;
                 empty_report (args_format args)]
        /\ file_events (fst (main os args)) = []).
Proof.
  intros os args Hne Hun Hpr.
  pose proof (analyze_all_unreadable os args _ [] Hun Hpr) as Ha.
  assert (Ho : formatted_output [] (args_format args)
               = Ok (empty_report (args_format args))).
  { now destruct (args_format args). }
  assert (Hm : main os args
               = (flat_map
                    (fun f => [Analyze f;
                               Print (diagnostic os f (args_encoding args))])
                    (list_of_set os (resolve os args))
                    ++ fst (report os args []),
                  snd (report os args []))).
  { unfold main.
    destruct (list_of_set os (resolve os args)) as [|f0 files]; [contradiction|].
    unfold io_bind. now rewrite Ha. }
  pose proof (printed_diagnostics
                (fun f => diagnostic os f (args_encoding args))
                (list_of_set os (resolve os args))) as (Dp & _ & De).
  pose proof (report_unfold os args [] _ Ho) as Hr.
  pose proof (empty_report_printable os (args_format args)) as Hout.
  split; [now rewrite Ha|]. split; [exact Ho|]. split; [exact Hm|].
  rewrite Hm. cbn [fst snd]. rewrite printed_app, file_events_app, Dp, De.
  split; [|split].
  - intros Hno. rewrite Hno, Hout in Hr. rewrite Hr. repeat split.
  - intros Hyes Hopen Hwrite Hsaved. rewrite Hyes in Hr. unfold save in Hr.
    rewrite Hopen, Hwrite, Hsaved in Hr. cbn [fst snd] in Hr. rewrite Hr.
    repeat split.
  - intros e Hyes Hopen Herr. rewrite Hyes in Hr. unfold save in Hr.
    rewrite Hopen in Hr. cbn [fst snd] in Hr. rewrite Herr, Hout in Hr.
    rewrite Hr. repeat split.
Qed.

Lemma run_without_readable_file_reports_nothing_witness :
  main sample_os unreadable_args
  = ([ Analyze (lit "b.txt");
       Print (lit "Error reading file 'b.txt': invalid start byte");
       Format;
       Open (lit "out.txt");
       Write (lit "out.txt") (lit "{}");
       Print (lit "Results saved to 'out.txt'") ],
     Ok tt).
Proof.
  refine (proj1 (proj2 (proj2 (run_without_readable_file_reports_nothing
                                 sample_os unreadable_args _ _ _)))).
  - discriminate.
  - intros f Hf. cbn in Hf. destruct Hf as [<- | []]. reflexivity.
  - intros f Hf. cbn in Hf. destruct Hf as [<- | []]. reflexivity.
Defined.
(** ** Runs raise nothing *)

Lemma splitlines_from_count : forall s cur,
  len_list (splitlines_from cur s) <= len s + 1.
Proof.
  unfold len_list, len.
  intros s. remember (List.length s) as n eqn:Hn.
  revert s Hn. induction n as [n IH] using lt_wf_ind. intros s Hn cur.
  destruct s as [|c s]; cbn [splitlines_from].
  - destruct cur; cbn; lia.
  - subst n. cbn [List.length]. destruct (is_linebreak c).
    + cbn [List.length]. destruct s as [|d s'].
      * cbn. lia.
      * destruct ((c =? CR) && (d =? NL))%N.
        -- specialize (IH (List.length s') ltac:(cbn; lia) s' eq_refl []).
           cbn [List.length]. lia.
        -- specialize (IH (List.length (d :: s')) ltac:(cbn; lia) (d :: s') eq_refl []).
           cbn [List.length] in *. lia.
    + specialize (IH (List.length s) ltac:(cbn; lia) s eq_refl (cur ++ [c])). lia.
Qed.

Lemma compute_stats_counts : forall content s sk n,
  compute_stats content = Ok s -> In (sk, IntVal n) s ->
  0 <= n <= len content + 1.
Proof.
  intros content s sk n. unfold compute_stats.
  destruct (truediv (sum (map len (splitlines content))) _) as [a|e];
    cbn [bind]; [|discriminate].
  destruct (truediv (sum (map len (split content))) _) as [w|e];
    cbn [bind]; [|discriminate].
  intros H. injection H as <-.
  intros [H | [H | [H | []]]]; try discriminate. injection H as _ <-.
  pose proof (sum_ones_filter (fun line => negb (truthy (strip line)))
                (splitlines content)) as Hn.
  pose proof (splitlines_from_count content []) as Hl.
  fold (splitlines content) in Hl. lia.
Qed.

Lemma analyze_content_small_counts : forall modes content m,
  len content < 2 ^ 63 -> analyze_content modes content = Ok m -> small_counts m.
Proof.
  intros modes content m Hlen Hm k s sk n Hk Hn.
  assert (Hs : compute_stats content = Ok s).
  { unfold analyze_content in Hm.
    destruct (mode_in m_lines modes || mode_in m_all modes);
      destruct (mode_in m_words modes || mode_in m_all modes);
      destruct (mode_in m_chars modes || mode_in m_all modes);
      destruct (mode_in m_stats modes); cbn [bind] in Hm;
      try (destruct (compute_stats content) as [s'|e]; cbn [bind] in Hm;
           [|discriminate]);
      injection Hm as <-; cbn in Hk;
      repeat (destruct Hk as [Hk | Hk]; [try discriminate Hk|]);
      try contradiction; now injection Hk as _ <-. }
  pose proof (compute_stats_counts _ _ _ _ Hs Hn) as Hb.
  assert (2 ^ 63 < 2 ^ 1000) by (apply Z.pow_lt_mono_r; lia). lia.
Qed.

Lemma mapM_total : forall {A B} (f : A -> result B) (l : list A),
  (forall a, In a l -> exists b, f a = Ok b) -> exists bs, mapM f l = Ok bs.
Proof.
  intros A B f. induction l as [|a l IH]; intros H; [now exists []|].
  destruct (H a (or_introl eq_refl)) as [b Hb].
  destruct IH as [bs Hbs]; [intros x Hx; apply H; now right|].
  exists (b :: bs). cbn [mapM]. now rewrite Hb, Hbs.
Qed.

Lemma of_int_total : forall n, 0 <= n < 2 ^ 1000 -> exists x, of_int n = Ok x.
Proof.
  intros n Hn. unfold of_int. rewrite Z.abs_eq by lia.
  assert (H1 : 0 < 1) by lia.
  destruct (round_ratio_in_range (n <? 0) n 1 Hn H1) as [x Hx].
  rewrite Hx. eauto.
Qed.

(** The text format is defined on results with small counts. *)
Lemma format_text_total : forall results : ResultSet,
  (forall f m, In (f, m) results -> small_counts m) ->
  exists out, format_text results = Ok out.
Proof.
  intros results H. unfold format_text.
  destruct (mapM_total (fun kv => text_file (fst kv) (snd kv)) results) as [ls Hls].
  - intros [f m] Hin. cbn [fst snd]. unfold text_file.
    destruct (mapM_total (fun kv => text_metric (fst kv) (snd kv)) m) as [ms Hms].
    + intros [k v] Hk. cbn [fst snd]. destruct v as [n|s]; cbn [text_metric]; [eauto|].
      destruct (mapM_total
                  (fun kv => v <- format_number_2f (snd kv) ;;
                             Ok (lit "    " ++ stat_name (fst kv) ++ lit ": " ++ v)) s)
        as [inner Hinner].
      * intros [sk x] Hx. cbn [fst snd]. destruct x as [n|x]; cbn [format_number_2f].
        -- destruct (of_int_total n (H f m Hin k s sk n Hk Hx)) as [y Hy].
           rewrite Hy. cbn [bind]. eauto.
        -- cbn [bind]. eauto.
      * rewrite Hinner. cbn [bind]. eauto.
    + rewrite Hms. cbn [bind]. eauto.
  - rewrite Hls. cbn [bind]. eauto.
Qed.

Lemma in_dict_set : forall (acc : ResultSet) k v f m,
  In (f, m) (dict_set PyStr.eqb acc k v) -> In (f, m) acc \/ m = v.
Proof.
  induction acc as [|[k0 v0] acc IH]; intros k v f m H; cbn [dict_set] in H.
  - destruct H as [H | []]. injection H as _ <-. now right.
  - destruct (PyStr.eqb k0 k).
    + destruct H as [H | H]; [injection H as _ <-; now right | left; now right].
    + destruct H as [H | H]; [left; now left|].
      destruct (IH _ _ _ _ H) as [H' | H']; [left; now right | now right].
Qed.

(** The loop of [main] raises nothing but the error of a line that cannot
    be printed on files of moderate size, and collects results with small
    counts. *)
Lemma analyze_all_total : forall os args,
  (forall f content,
     read_file os f (effective_encoding (args_encoding args)) = inl content ->
     len content < 2 ^ 63) ->
  forall files acc,
    (forall f m, In (f, m) acc -> small_counts m) ->
    match snd (analyze_all os args files acc) with
    | Ok results => forall f m, In (f, m) results -> small_counts m
    | Raise e =>
        e = UnicodeEncodeError
        /\ exists f, In f files
                     /\ forallb (printable os) (console_of_file os args f) = false
    end.
Proof.
  intros os args Hsize. induction files as [|f rest IH]; intros acc Hacc.
  - exact Hacc.
  - assert (Hrest : forall acc',
              (forall g m, In (g, m) acc' -> small_counts m) ->
              match snd (analyze_all os args rest acc') with
              | Ok results => forall g m, In (g, m) results -> small_counts m
              | Raise e =>
                  e = UnicodeEncodeError
                  /\ exists g, In g (f :: rest)
                               /\ forallb (printable os)
                                    (console_of_file os args g) = false
              end).
    { intros acc' Hacc'. specialize (IH acc' Hacc').
      destruct (snd (analyze_all os args rest acc')); [exact IH|].
      destruct IH as (-> & g & Hg & Hp). split; [reflexivity|].
      exists g. split; [now right | exact Hp]. }
    rewrite analyze_all_cons.
    destruct (forallb (printable os) (console_of_file os args f)) eqn:Hp;
      [|cbn [snd]; split; [reflexivity|]; exists f; split; [now left | exact Hp]].
    destruct (readable os (args_encoding args) f); [|cbn [snd]; now apply Hrest].
    destruct (read_file os f (effective_encoding (args_encoding args)))
      as [content|e] eqn:Er; [|cbn [snd]; now apply Hrest].
    destruct (analyze_content_total (args_mode args) content (Hsize _ _ Er))
      as [m Hm].
    rewrite Hm. cbn [snd]. apply Hrest.
    intros g m' Hin. apply in_dict_set in Hin as [Hin | ->]; [now apply (Hacc g)|].
    exact (analyze_content_small_counts _ _ _ (Hsize _ _ Er) Hm).
Qed.

Lemma printable_all : forall os,
  (forall c, stdout_encodes os c = true) -> forall text, printable os text = true.
Proof.
  intros os Hall text. unfold printable. apply forallb_forall. intros c _.
  rewrite Hall. apply orb_true_r.
Qed.

Lemma report_outcome : forall os args results out,
  formatted_output results (args_format args) = Ok out ->
  (snd (report os args results) = Ok tt
   \/ snd (report os args results) = Raise UnicodeEncodeError)
  /\ ((forall c, stdout_encodes os c = true) ->
      snd (report os args results) = Ok tt).
Proof.
  intros os args results out Ho. rewrite (report_unfold os args results out Ho).
  split.
  - destruct (opt_truthy (args_output args)); cbv zeta.
    + destruct (snd (save os (opt_str (args_output args)) out)) as [e|];
        [|now left].
      destruct (printable os (lit "Error saving results: " ++ e));
        [|now right].
      destruct (printable os out); [now left | now right].
    + destruct (printable os out); [now left | now right].
  - intros Hall. destruct (opt_truthy (args_output args)); cbv zeta.
    + destruct (snd (save os (opt_str (args_output args)) out)) as [e|];
        [|reflexivity].
      now rewrite !(printable_all os Hall).
    + now rewrite (printable_all os Hall).
Qed.

(** X14: when every file that is read has fewer than 2^63 characters,
    a run ends without a [ZeroDivisionError] or an [OverflowError], in
    every mode and every format: it ends normally, or with the
    [UnicodeEncodeError] of a line that the standard output cannot
    encode; and it ends normally when the standard output encodes every
    character. *)
Theorem a_run_raises_nothing :
  forall os args,
    (forall f content,
       read_file os f (effective_encoding (args_encoding args)) = inl content ->
       len content < 2 ^ 63) ->
    (snd (main os args) = Ok tt
     \/ snd (main os args) = Raise UnicodeEncodeError)
    /\ ((forall c, stdout_encodes os c = true) -> snd (main os args) = Ok tt).
Proof.
  intros os args Hsize. unfold main.
  destruct (list_of_set os (resolve os args)) as [|f0 files].
  { unfold print. split.
    - destruct (printable os _); [now left | now right].
    - intros Hall. now rewrite (printable_all os Hall). }
  pose proof (analyze_all_total os args Hsize (f0 :: files) []
                ltac:(intros ? ? [])) as Ha.
  unfold io_bind.
  destruct (snd (analyze_all os args (f0 :: files) [])) as [results|e].
  - cbn [snd].
    assert (Ho : exists out, formatted_output results (args_format args) = Ok out).
    { destruct (args_format args); cbn [formatted_output]; eauto.
      now apply format_text_total. }
    destruct Ho as [out Ho]. exact (report_outcome os args results out Ho).
  - destruct Ha as (-> & f & _ & Hp). cbn [snd]. split; [now right|].
    intros Hall. exfalso.
    assert (Ht : forallb (printable os) (console_of_file os args f) = true).
    { apply forallb_forall. intros t _. now apply printable_all. }
    congruence.
Qed.

Lemma a_run_raises_nothing_witness : snd (main sample_os verbose_args) = Ok tt.
Proof.
  refine (proj2 (a_run_raises_nothing sample_os verbose_args _) _).
  - intros f content. cbn [read_file sample_os].
    destruct (PyStr.eqb f (lit "a.txt")); [|discriminate].
    intros H. injection H as <-. reflexivity.
  - reflexivity.
Defined.
(** ** The characters of the JSON output *)

Lemma ascii_app : forall a b, ascii_text a -> ascii_text b -> ascii_text (a ++ b).
Proof. intros a b Ha Hb. apply Forall_app. now split. Qed.

Lemma ascii_digits : forall ds, Forall is_digit ds -> ascii_text (str_of_digits ds).
Proof.
  intros ds H. unfold ascii_text, str_of_digits. apply Forall_map.
  apply (Forall_impl _ (P := is_digit)); [|assumption].
  intros d Hd. unfold is_digit in Hd. unfold digit_char. lia.
Qed.

Lemma ascii_str_of_Z : forall n, ascii_text (str_of_Z n).
Proof.
  intros n. unfold str_of_Z. destruct (n <? 0) eqn:E.
  - apply Z.ltb_lt in E. apply ascii_app; [repeat constructor|].
    apply ascii_digits, (digits_of_Z_writes (- n)). lia.
  - apply Z.ltb_ge in E. apply ascii_digits, (digits_of_Z_writes n). lia.
Qed.

Lemma ascii_zfill : forall w s, ascii_text s -> ascii_text (zfill w s).
Proof.
  intros w s H. unfold zfill. apply ascii_app; [|assumption].
  apply Forall_forall. intros c Hc. apply repeat_spec in Hc. now subst c.
Qed.

Lemma ascii_print_literal : forall l, wf_literal l -> ascii_text (print_literal l).
Proof.
  intros [neg int frac ex] [(Hd & _) Hf]. cbn [l_int l_frac] in *.
  unfold print_literal. cbn [l_neg l_int l_frac l_exp].
  apply ascii_app; [destruct neg; repeat constructor|].
  apply ascii_app; [now apply ascii_digits|].
  apply ascii_app.
  - destruct frac as [f|]; [|constructor].
    apply ascii_app; [repeat constructor | apply ascii_digits, Hf].
  - destruct ex as [e|]; [|constructor].
    apply ascii_app; [repeat constructor|].
    apply ascii_app; [destruct (e <? 0); repeat constructor|].
    apply ascii_zfill, ascii_str_of_Z.
Qed.

Lemma ascii_repr : forall x, canonical x = true -> ascii_text (repr x).
Proof.
  intros x Hc. unfold repr. apply ascii_print_literal.
  apply (repr_literal_reads_back x Hc).
Qed.

Lemma hex_digit_ascii : forall d, (d < 16)%N -> (hex_digit d < 128)%N.
Proof. intros d Hd. unfold hex_digit. destruct (d <? 10)%N; lia. Qed.

Lemma ascii_u_escape : forall n, (n < 65536)%N -> ascii_text (u_escape n).
Proof.
  intros n Hn. with_strategy transparent [hex4] unfold u_escape, hex4, BACKSLASH.
  repeat (constructor; [try reflexivity|]); try constructor;
    apply hex_digit_ascii;
    try (apply N.mod_lt; discriminate).
  apply N.Div0.div_lt_upper_bound. exact Hn.
Qed.

Lemma surrogate_in_plane : forall base a,
  (base = 55296 \/ base = 56320)%N ->
  (N.lor base (N.land a 1023) < 65536)%N.
Proof.
  intros base a Hb.
  assert (Hl : (N.log2 (N.land a 1023) <= 9)%N).
  { pose proof (N.log2_land a 1023) as H. change (N.log2 1023) with 9%N in H. lia. }
  assert (Hlog : N.log2 (N.lor base (N.land a 1023)) = 15%N).
  { rewrite N.log2_lor. destruct Hb as [-> | ->];
      [change (N.log2 55296) with 15%N | change (N.log2 56320) with 15%N]; lia. }
  change 65536%N with (2 ^ 16)%N.
  apply N.log2_lt_pow2; [|lia].
  destruct (N.eq_dec (N.lor base (N.land a 1023)) 0) as [E | E]; [|lia].
  rewrite E in Hlog. discriminate.
Qed.

(** An escaped character is written in ASCII, whatever the character. *)
Lemma ascii_escape_char : forall c, ascii_text (escape_char c).
Proof.
  intros c. unfold escape_char, QUOTE, BACKSLASH.
  destruct (c =? 34)%N; [repeat constructor|].
  destruct (c =? 92)%N; [repeat constructor|].
  destruct ((32 <=? c) && (c <=? 126))%N eqn:E.
  { apply andb_true_iff in E as [_ E]. apply N.leb_le in E.
    repeat constructor. lia. }
  destruct (c =? 8)%N; [repeat constructor|].
  destruct (c =? 12)%N; [repeat constructor|].
  destruct (c =? 10)%N; [repeat constructor|].
  destruct (c =? 13)%N; [repeat constructor|].
  destruct (c =? 9)%N; [repeat constructor|].
  destruct (c <? 65536)%N eqn:E16.
  { apply N.ltb_lt in E16. now apply ascii_u_escape. }
  apply ascii_app; apply ascii_u_escape, surrogate_in_plane; auto.
Qed.

Lemma ascii_encode_str : forall s, ascii_text (encode_str s).
Proof.
  intros s. unfold encode_str. constructor; [reflexivity|].
  apply ascii_app; [|repeat constructor].
  induction s as [|c s IH]; [constructor|]. cbn [flat_map].
  apply ascii_app; [apply ascii_escape_char | exact IH].
Qed.

Lemma ascii_join : forall sep parts,
  ascii_text sep -> Forall ascii_text parts -> ascii_text (join sep parts).
Proof.
  intros sep parts Hs H. induction H as [|p ps Hp Hps IH]; [constructor|].
  cbn [join]. destruct ps as [|q ps]; [assumption|].
  apply ascii_app; [assumption|]. now apply ascii_app.
Qed.

Lemma ascii_newline_indent : forall level, ascii_text (newline_indent level).
Proof.
  intros level. unfold newline_indent. constructor; [reflexivity|].
  apply Forall_forall. intros c Hc. apply repeat_spec in Hc. now subst c.
Qed.

(** A document with binary64 floats is encoded in ASCII. *)
Lemma ascii_encode : forall v level,
  canonical_floats v = true -> ascii_text (encode level v).
Proof.
  induction v as [n|x|items IH] using json_induction; intros level Hc.
  - apply ascii_str_of_Z.
  - now apply ascii_repr.
  - destruct items as [|kv items]; [repeat constructor|].
    rewrite encode_dict.
    apply ascii_app; [repeat constructor|].
    apply ascii_app; [apply ascii_newline_indent|].
    apply ascii_app;
      [|apply ascii_app; [apply ascii_newline_indent | repeat constructor]].
    apply ascii_join.
    { apply ascii_app; [repeat constructor | apply ascii_newline_indent]. }
    cbn [canonical_floats] in Hc. rewrite forallb_forall in Hc.
    apply Forall_map. rewrite Forall_forall in IH |- *.
    intros member Hin. unfold member_text.
    apply ascii_app; [apply ascii_encode_str|].
    apply ascii_app; [repeat constructor|].
    apply IH; [assumption | now apply Hc].
Qed.

Lemma metrics_canonical_floats : forall m,
  metrics_ok m = true -> canonical_floats (json_of_metrics m) = true.
Proof.
  intros m H. unfold metrics_ok in H. apply andb_true_iff in H as [_ H].
  cbn [json_of_metrics canonical_floats]. rewrite forallb_forall in H |- *.
  intros [k j] Hin. apply in_map_iff in Hin as ([k' v] & E & Hin).
  injection E as _ <-. cbn [fst snd]. specialize (H _ Hin). cbn [snd] in H.
  destruct v as [n|s]; [reflexivity|]. cbn [json_of_value value_ok] in *.
  unfold stats_ok in H. apply andb_true_iff in H as [_ H].
  cbn [json_of_stats canonical_floats]. rewrite forallb_forall in H |- *.
  intros [sk j] Hs. apply in_map_iff in Hs as ([sk' x] & E & Hs).
  injection E as _ <-. cbn [snd]. specialize (H _ Hs). cbn [snd] in H.
  now destruct x.
Qed.

(** The results that the loop collects have binary64 floats. *)
Lemma analyze_all_metrics_ok : forall os args files acc results,
  (forall f m, In (f, m) acc -> metrics_ok m = true) ->
  snd (analyze_all os args files acc) = Ok results ->
  forall f m, In (f, m) results -> metrics_ok m = true.
Proof.
  intros os args files acc results Hacc H.
  destruct (analyze_all_spec _ _ _ _ _ H) as (_ & -> & _). clear H.
  unfold collect. revert acc Hacc. induction files as [|g rest IH]; intros acc Hacc; [exact Hacc|].
  cbn [fold_left]. apply IH.
  destruct (file_metrics os args g) as [r|] eqn:Em; [|exact Hacc].
  intros f m Hin. apply in_dict_set in Hin as [Hin | ->]; [now apply (Hacc f)|].
  unfold file_metrics in Em. destruct (isfile os g); [|discriminate].
  destruct (read_file os g _) as [content|e]; [|discriminate].
  destruct (analyze_content (args_mode args) content) as [r'|e] eqn:Ea;
    [|discriminate].
  injection Em as <-. exact (analyze_content_ok _ _ _ Ea).
Qed.

(** X15: the JSON output of the results that the loop of [main]
    collects is made of ASCII characters only, whatever the characters
    of the paths. *)
Theorem json_output_of_a_run_is_ascii :
  forall os args files results,
    snd (analyze_all os args files []) = Ok results ->
    exists out,
      formatted_output results fmt_json = Ok out /\ ascii_text out.
Proof.
  intros os args files results H. eexists. split; [reflexivity|].
  unfold dumps. apply ascii_encode.
  pose proof (analyze_all_metrics_ok os args files [] results
                ltac:(intros ? ? []) H) as Hok.
  cbn [json_of_results canonical_floats]. rewrite forallb_forall.
  intros [f j] Hin. apply in_map_iff in Hin as ([f' m] & E & Hin).
  injection E as _ <-. cbn [snd].
  exact (metrics_canonical_floats m (Hok _ _ Hin)).
Qed.

Lemma json_output_of_a_run_is_ascii_witness :
  exists results out,
    snd (analyze_all accent_os accent_args (args_files accent_args) []) = Ok results
    /\ formatted_output results fmt_json = Ok out /\ ascii_text out.
Proof.
  eexists.
  destruct (json_output_of_a_run_is_ascii accent_os accent_args
              (args_files accent_args) _ eq_refl) as (out & Ho & Ha).
  exists out. split; [reflexivity|]. split; assumption.
Defined.

(** ** The two versions of the program *)

(** A text of ASCII characters can be printed, whatever the encoding of
    the standard output. *)
Lemma printable_ascii : forall os text,
  ascii_text text -> printable os text = true.
Proof.
  intros os text H. unfold printable. apply forallb_forall. intros c Hc.
  unfold ascii_text in H. rewrite Forall_forall in H.
  now rewrite (proj2 (N.ltb_lt c 128) (H c Hc)).
Qed.

(** X16: for the modes [lines], [words] and [chars] and a file that can
    be read, the first version prints, after its verbose line if asked,
    the very line that the text format of [file_analyzer_pro.py] shows
    for this metric, less its two spaces of indentation: both versions
    report the same count.  The line of the count is always printed when
    it is reached; with [--verbose] it is not reached when the verbose
    line, which holds the name of the file, cannot be encoded by the
    standard output. *)
Theorem both_versions_report_the_same_count :
  forall os filename content m k verbose,
    key_of_mode m = Some k ->
    isfile os filename = true ->
    read_file os filename (lit "utf-8") = inl content ->
    exists n line,
      analyze_content [m] content = Ok [(k, Scalar n)]
      /\ text_metric k (Scalar n) = Ok [lit "  " ++ line]
      /\ MainPy.analyze_file os filename (mode_name m) verbose
         = if verbose then
             if printable os (lit "Analyzing '" ++ filename ++ lit " in '"
                              ++ mode_name m ++ lit "' mode...")
             then ([Print (lit "Analyzing '" ++ filename ++ lit " in '"
                           ++ mode_name m ++ lit "' mode...");
                    Print line], Ok tt)
             else ([], Raise UnicodeEncodeError)
           else ([Print line], Ok tt).
Proof.
  intros os filename content m k verbose Hk Hf Hr.
  unfold MainPy.analyze_file. rewrite Hf, Hr. cbn [negb].
  destruct m; try discriminate Hk; injection Hk as <-;
    do 2 eexists; (split; [reflexivity|]); (split; [reflexivity|]);
    cbn [mode_name];
    match goal with
    | |- context [MainPy.count_of ?mode content] =>
        let c := eval cbv in (PyStr.eqb mode (lit "lines"),
                              PyStr.eqb mode (lit "words")) in
        unfold MainPy.count_of;
        change (PyStr.eqb mode (lit "lines")) with (fst c);
        change (PyStr.eqb mode (lit "words")) with (snd c);
        change (PyStr.eqb (lit "chars") (lit "chars")) with true;
        cbn [fst snd]
    end;
    (rewrite (print_ok os (capitalize _ ++ _));
     [|apply printable_ascii;
       repeat apply ascii_app;
       try apply ascii_str_of_Z; repeat constructor]);
    destruct verbose; [|reflexivity| |reflexivity| |reflexivity];
    unfold print;
    match goal with
    | |- context [printable os ?t] => destruct (printable os t)
    end; reflexivity.
Qed.

Lemma both_versions_report_the_same_count_witness :
  exists n line,
    analyze_content [m_words] three_lines = Ok [(k_words, Scalar n)]
    /\ text_metric k_words (Scalar n) = Ok [lit "  " ++ line]
    /\ MainPy.analyze_file sample_os (lit "a.txt") (lit "words") true
       = ([Print (lit "Analyzing 'a.txt in 'words' mode..."); Print line], Ok tt).
Proof.
  exact (both_versions_report_the_same_count sample_os (lit "a.txt") three_lines
           m_words k_words true eq_refl eq_refl eq_refl).
Defined.

(** X17: the first version ends normally or with the
    [UnicodeEncodeError] of a line that the standard output cannot
    encode, and normally when it encodes every character; for a path
    that is not a file, and for a file that cannot be read, it tries to
    print one line of error and nothing else, whatever the mode and the
    verbosity; for a mode that is none of [lines], [words] and [chars]
    it prints, after the verbose line if asked, the line of the invalid
    mode, and no count. *)
Theorem first_version_prints_no_count_on_error :
  forall os args,
    (snd (MainPy.main os args) = Ok tt
     \/ snd (MainPy.main os args) = Raise UnicodeEncodeError)
    /\ ((forall c, stdout_encodes os c = true) ->
        snd (MainPy.main os args) = Ok tt)
    /\ (isfile os (MainPy.args_filename args) = false ->
        MainPy.main os args
        = if printable os (lit "Error: File '" ++ MainPy.args_filename args
                           ++ lit "' does not exist.")
          then ([Print (lit "Error: File '" ++ MainPy.args_filename args
                        ++ lit "' does not exist.")], Ok tt)
          else ([], Raise UnicodeEncodeError))
    /\ (forall e,
          isfile os (MainPy.args_filename args) = true ->
          read_file os (MainPy.args_filename args) (lit "utf-8") = inr e ->
          MainPy.main os args
          = if printable os (lit "Error reading file: " ++ e)
            then ([Print (lit "Error reading file: " ++ e)], Ok tt)
            else ([], Raise UnicodeEncodeError))
    /\ (forall content,
          isfile os (MainPy.args_filename args) = true ->
          read_file os (MainPy.args_filename args) (lit "utf-8") = inl content ->
          MainPy.args_mode args <> lit "lines" ->
          MainPy.args_mode args <> lit "words" ->
          MainPy.args_mode args <> lit "chars" ->
          MainPy.main os args
          = if MainPy.args_verbose args then
              if printable os (lit "Analyzing '" ++ MainPy.args_filename args
                               ++ lit " in '" ++ MainPy.args_mode args
                               ++ lit "' mode...")
              then
                if printable os (lit "Error: Invalid mode '"
                                 ++ MainPy.args_mode args ++ lit "'")
                then ([Print (lit "Analyzing '" ++ MainPy.args_filename args
                              ++ lit " in '" ++ MainPy.args_mode args
                              ++ lit "' mode...");
                       Print (lit "Error: Invalid mode '"
                              ++ MainPy.args_mode args ++ lit "'")], Ok tt)
                else ([Print (lit "Analyzing '" ++ MainPy.args_filename args
                              ++ lit " in '" ++ MainPy.args_mode args
                              ++ lit "' mode...")], Raise UnicodeEncodeError)
              else ([], Raise UnicodeEncodeError)
            else
              if printable os (lit "Error: Invalid mode '"
                               ++ MainPy.args_mode args ++ lit "'")
              then ([Print (lit "Error: Invalid mode '"
                            ++ MainPy.args_mode args ++ lit "'")], Ok tt)
              else ([], Raise UnicodeEncodeError)).
Proof.
  intros os [filename mode verbose].
  unfold MainPy.main, MainPy.analyze_file.
  cbn [MainPy.args_filename MainPy.args_mode MainPy.args_verbose].
  assert (Hprint : forall t,
            (snd (print os t) = Ok tt \/ snd (print os t) = Raise UnicodeEncodeError)).
  { intros t. unfold print. destruct (printable os t); [now left | now right]. }
  assert (Hseq : forall t u,
            (snd (print os t ;;; print os u) = Ok tt
             \/ snd (print os t ;;; print os u) = Raise UnicodeEncodeError)).
  { intros t u. unfold print, io_bind.
    destruct (printable os t); cbn [snd emit lift]; [|now right].
    destruct (printable os u); [now left | now right]. }
  split; [|split; [|split; [|split]]].
  - destruct (isfile os filename); [|apply Hprint]. cbn [negb].
    destruct (read_file os filename (lit "utf-8")) as [content|e]; [|apply Hprint].
    destruct verbose; destruct (MainPy.count_of mode content);
      solve [apply Hseq | apply Hprint].
  - intros Hall.
    assert (Hp : forall t, print os t = ([Print t], Ok tt)).
    { intros t. apply print_ok. unfold printable. apply forallb_forall.
      intros c _. rewrite Hall. apply orb_true_r. }
    destruct (isfile os filename); cbn [negb]; [|now rewrite Hp].
    destruct (read_file os filename (lit "utf-8")) as [content|e];
      [|now rewrite Hp].
    destruct verbose; destruct (MainPy.count_of mode content);
      now rewrite !Hp.
  - intros Hf. now rewrite Hf.
  - intros e Hf Hr. now rewrite Hf, Hr.
  - intros content Hf Hr Hl Hw Hc. rewrite Hf, Hr. cbn [negb].
    unfold MainPy.count_of.
    rewrite (key_eqb_neq PyStr.eqb pystr_eqb_spec _ _ Hl),
      (key_eqb_neq PyStr.eqb pystr_eqb_spec _ _ Hw),
      (key_eqb_neq PyStr.eqb pystr_eqb_spec _ _ Hc).
    unfold print, io_bind.
    destruct verbose;
      repeat match goal with
             | |- context [printable os ?t] => destruct (printable os t)
             end; reflexivity.
Qed.
(** ** The order of the files *)

(** X18: iterating the distinct paths in another order gives a run of
    the loop that raises nothing either and collects the same entries,
    in another order. *)
Theorem results_do_not_depend_on_the_order_of_files :
  forall os args files files' results,
    NoDup files -> Permutation files files' ->
    snd (analyze_all os args files []) = Ok results ->
    exists results',
      snd (analyze_all os args files' []) = Ok results'
      /\ Permutation results results'.
Proof.
  intros os args files files' results Hnd Hp H.
  destruct (analyze_all_spec _ _ _ _ _ H) as (_ & Hr & Hf).
  assert (Hnd' : NoDup files') by exact (Permutation_NoDup Hp Hnd).
  assert (Hf' : Forall (passes os args) files')
    by exact (Permutation_Forall Hp Hf).
  eexists. split; [apply (analyze_all_ok _ _ _ _ Hf')|].
  rewrite Hr, !collect_fresh by (assumption || intros ? ? []). cbn [app].
  now apply Permutation_flat_map.
Qed.

Lemma results_do_not_depend_on_the_order_of_files_witness :
  exists results',
    snd (analyze_all sample_os verbose_args [lit "b.txt"; lit "a.txt"] [])
    = Ok results'
    /\ Permutation [(lit "a.txt", [(k_lines, Scalar 3); (k_words, Scalar 3)])]
         results'.
Proof.
  apply (results_do_not_depend_on_the_order_of_files sample_os verbose_args
           [lit "a.txt"; lit "b.txt"]).
  - repeat constructor; simpl; intuition discriminate.
  - apply perm_swap.
  - reflexivity.
Defined.

(** ** The counters of a concatenation *)

Lemma token_starts_app : forall a b after,
  token_starts after (a ++ b)
  = token_starts after a
    + token_starts (match rev a with [] => after | c :: _ => isspace c end) b.
Proof.
  induction a as [|c a IH]; intros b after; [cbn; lia|].
  cbn [app token_starts]. rewrite IH.
  assert (E : match rev (c :: a) with [] => after | d :: _ => isspace d end
              = match rev a with [] => isspace c | d :: _ => isspace d end).
  { cbn [rev]. destruct (rev a); reflexivity. }
  rewrite E. lia.
Qed.

Lemma token_starts_after : forall b,
  token_starts false b <= token_starts true b <= token_starts false b + 1.
Proof.
  intros [|c b]; cbn [token_starts]; [lia|].
  destruct (isspace c); cbn [andb negb]; lia.
Qed.

(** X19: the counters of the concatenation of two contents: the
    characters add up, the lines add up less one, and the words add up,
    less one at most; they add up exactly when the first content is empty
    or ends with whitespace. *)
Theorem counters_of_a_concatenation :
  forall a b la wa ca lb wb cb l w c,
    analyze_content [m_all] a = Ok (all_counters la wa ca) ->
    analyze_content [m_all] b = Ok (all_counters lb wb cb) ->
    analyze_content [m_all] (a ++ b) = Ok (all_counters l w c) ->
    l = la + lb - 1 /\ c = ca + cb /\ wa + wb - 1 <= w <= wa + wb
    /\ (match rev a with [] => True | x :: _ => isspace x = true end -> w = wa + wb).
Proof.
  intros a b la wa ca lb wb cb l w c Ha Hb Hab.
  injection Ha as <- <- <-. injection Hb as <- <- <-. injection Hab as <- <- <-.
  rewrite !split_is_token_count, count_app, len_app. unfold token_count.
  rewrite token_starts_app. pose proof (token_starts_after b) as Hb.
  split; [lia|]. split; [lia|].
  destruct (rev a) as [|x r]; [split; [lia | reflexivity]|].
  destruct (isspace x); split; try lia; intros H; try reflexivity; discriminate.
Qed.

Lemma counters_of_a_concatenation_witness :
  1 = 1 + 1 - 1 /\ 13 = 6 + 7 /\ 2 + 2 - 1 <= 3 <= 2 + 2
  /\ (match rev (lit "one tw") with
      | [] => True
      | x :: _ => isspace x = true
      end -> 3 = 2 + 2).
Proof.
  apply (counters_of_a_concatenation (lit "one tw") (lit "o three"));
    reflexivity.
Defined.

(** ** The layout of the text format *)

(** The rounding to the nearest integer, ties to even. *)
Lemma rne_nearest : forall p q,
  0 < q ->
  2 * Z.abs (p - rne p q * q) <= q
  /\ (2 * Z.abs (p - rne p q * q) = q -> Z.even (rne p q) = true).
Proof.
  intros p q Hq. unfold rne.
  pose proof (Z.div_mod p q ltac:(lia)) as Hdm.
  pose proof (Z.mod_pos_bound p q Hq) as Hm.
  destruct (2 * (p mod q) ?= q) eqn:E.
  - apply Z.compare_eq_iff in E.
    destruct (Z.even (p / q)) eqn:Ev.
    + split; [|intros _; exact Ev]. apply Z.eq_le_incl.
      replace (p - p / q * q) with (p mod q) by lia. lia.
    + split; [|intros _; now rewrite Z.even_add, Ev].
      replace (p - (p / q + 1) * q) with (p mod q - q) by lia. lia.
  - assert (Hlt : 2 * (p mod q) < q) by (apply Z.compare_lt_iff; exact E).
    replace (p - p / q * q) with (p mod q) by lia.
    split; [lia | intros H; exfalso; lia].
  - assert (Hgt : q < 2 * (p mod q)) by (apply Z.compare_gt_iff; exact E).
    replace (p - (p / q + 1) * q) with (p mod q - q) by lia.
    split; [lia | intros H; exfalso; lia].
Qed.

(** [format(x, '.2f')] writes the hundredths of [x]. *)
Lemma format_f_hundredths : forall x,
  exists r, hundredths x r /\ format_f 2 x = two_decimals (f_neg x) r.
Proof.
  intros x. unfold format_f, hundredths, two_decimals, ratio_of, scale.
  change (10 ^ Z.of_nat 2) with 100.
  assert (Hdigits : forall r,
            zfill 2 (str_of_Z (r mod 100))
            = [digit_char (r mod 100 / 10); digit_char (r mod 10)]).
  { intros r. rewrite zfill_two_digits by (apply Z.mod_pos_bound; lia).
    rewrite (Z.mod_mod_divide r 100 10) by (exists 10; reflexivity).
    reflexivity. }
  destruct (0 <=? - f_exp x) eqn:E.
  - apply Z.leb_le in E.
    assert (Hq : 0 < 1 * 2 ^ (- f_exp x))
      by (pose proof (Z.pow_pos_nonneg 2 (- f_exp x)); lia).
    exists (rne (f_mant x * 100) (1 * 2 ^ (- f_exp x))). cbn [fst snd].
    replace (100 * f_mant x) with (f_mant x * 100) by lia.
    split; [exact (rne_nearest _ _ Hq)|]. now rewrite Hdigits.
  - exists (rne (f_mant x * 100 * 2 ^ (- - f_exp x)) 1). cbn [fst snd].
    replace (100 * (f_mant x * 2 ^ (- - f_exp x)))
      with (f_mant x * 100 * 2 ^ (- - f_exp x)) by lia.
    split; [exact (rne_nearest _ _ Z.lt_0_1)|]. now rewrite Hdigits.
Qed.

(** An [int] below 2^53 is a [float]. *)
Lemma of_int_exact : forall n,
  0 < n < 2 ^ 53 ->
  of_int n = Ok (mkFloat false (n * 2 ^ (52 - Z.log2 n)) (Z.log2 n - 52)).
Proof.
  intros n Hn. unfold of_int.
  rewrite (proj2 (Z.ltb_ge n 0)) by lia. rewrite Z.abs_eq by lia.
  pose proof (log2_bounds n ltac:(lia)) as [Hlo Hhi].
  assert (Hl : 0 <= Z.log2 n <= 52).
  { split; [apply Z.log2_nonneg|]. assert (Z.log2 n < 53); [|lia].
    apply Z.log2_lt_pow2; lia. }
  set (k := 52 - Z.log2 n) in *.
  assert (Hk : 0 < 2 ^ k) by (apply Z.pow_pos_nonneg; lia).
  assert (Hsplit : 2 ^ 52 = 2 ^ Z.log2 n * 2 ^ k).
  { rewrite <- Z.pow_add_r by lia. f_equal. lia. }
  assert (Hsplit' : 2 ^ 53 = 2 ^ (Z.log2 n + 1) * 2 ^ k).
  { rewrite <- Z.pow_add_r by lia. f_equal. lia. }
  set (x := mkFloat false (n * 2 ^ k) (Z.log2 n - 52)).
  assert (Hc : canonical x = true).
  { unfold canonical, x, emin, emax. cbn [f_mant f_exp].
    assert (E1 : (0 <=? n * 2 ^ k) = true) by (apply Z.leb_le; nia).
    assert (E2 : (n * 2 ^ k <? 2 ^ 53) = true) by (apply Z.ltb_lt; nia).
    assert (E3 : (-1074 <=? Z.log2 n - 52) = true) by (apply Z.leb_le; lia).
    assert (E4 : (Z.log2 n - 52 <=? 971) = true) by (apply Z.leb_le; lia).
    assert (E5 : (2 ^ 52 <=? n * 2 ^ k) = true) by (apply Z.leb_le; nia).
    now rewrite E1, E2, E3, E4, E5. }
  assert (Hr : round_ratio (f_neg x) n 1 = Some x).
  { apply round_ratio_exact; [exact Hc | cbn [f_mant x]; nia | lia | lia |].
    unfold ratio_eq, ratio_of, scale, x. cbn [f_mant f_exp fst snd].
    replace (- (Z.log2 n - 52)) with k by (unfold k; lia).
    rewrite (proj2 (Z.leb_le 0 k)) by lia. cbn [fst snd]. lia. }
  cbn [f_neg x] in Hr. rewrite Hr. reflexivity.
Qed.

Lemma format_f_integer : forall n k,
  0 <= n -> 0 <= k ->
  format_f 2 (mkFloat false (n * 2 ^ k) (- k)) = str_of_Z n ++ lit ".00".
Proof.
  intros n k Hn Hk. unfold format_f, scale. cbn [f_neg f_mant f_exp].
  rewrite Z.opp_involutive, (proj2 (Z.leb_le 0 k)) by lia.
  change (10 ^ Z.of_nat 2) with 100. rewrite Z.mul_1_l.
  assert (Hp : 0 < 2 ^ k) by (apply Z.pow_pos_nonneg; lia).
  assert (Hr : rne (n * 2 ^ k * 100) (2 ^ k) = n * 100).
  { unfold rne.
    replace (n * 2 ^ k * 100) with (n * 100 * 2 ^ k) by lia.
    rewrite Z.mod_mul, Z.div_mul by lia.
    change (2 * 0) with 0. now rewrite (proj2 (Z.compare_lt_iff 0 (2 ^ k))). }
  rewrite Hr, Z.div_mul, Z.mod_mul by lia. reflexivity.
Qed.

(** The text of a value of the stats block. *)
Lemma format_number_shown : forall x v,
  format_number_2f x = Ok v -> shown_as x v.
Proof.
  intros [n|f] v H; cbn [format_number_2f] in H.
  - destruct (of_int n) as [y|e] eqn:Ey; cbn [bind] in H; [|discriminate].
    injection H as <-. cbn [shown_as]. split.
    + destruct (format_f_hundredths y) as (r & Hr & Hv). eauto.
    + intros Hn. destruct (Z.eq_dec n 0) as [-> | Hn0].
      { injection Ey as <-. reflexivity. }
      rewrite of_int_exact in Ey by lia. injection Ey as <-.
      assert (Hl : Z.log2 n < 53) by (apply Z.log2_lt_pow2; lia).
      replace (Z.log2 n - 52) with (- (52 - Z.log2 n)) by lia.
      apply format_f_integer; lia.
  - injection H as <-. exact (format_f_hundredths f).
Qed.

(** What [formatted_output] writes for one file in the text format: the
    header line, then for a nested value a sub-header of one space, the
    capitalized key and a colon, followed by a line per inner key with
    four spaces and the value with two decimals, and for a scalar value
    a line of two spaces, the capitalized key, a colon and the
    integer. *)
Lemma text_file_lines : forall filename data ls,
  text_file filename data = Ok ls -> file_block (filename, data) ls.
Proof.
  intros filename data ls H. unfold text_file in H.
  destruct (mapM _ data) as [blocks|e] eqn:Eb; cbn [bind] in H; [|discriminate].
  injection H as <-. exists blocks. split; [reflexivity|].
  apply mapM_Forall2 in Eb. cbn [snd].
  eapply Forall2_impl; [|exact Eb].
  intros [k v] block Hkv. unfold metric_block. cbn [fst snd] in *.
  destruct v as [n|s]; cbn [text_metric] in Hkv.
  - now injection Hkv as <-.
  - destruct (mapM _ s) as [inner|e] eqn:Ei; cbn [bind] in Hkv; [|discriminate].
    injection Hkv as <-. exists inner. split; [reflexivity|].
    apply mapM_Forall2 in Ei.
    eapply Forall2_impl; [|exact Ei].
    intros [sk sv] line Hl. cbn [fst snd] in *.
    destruct (format_number_2f sv) as [t|e] eqn:Et; cbn [bind] in Hl;
      [|discriminate].
    injection Hl as <-. exists t. split; [exact (format_number_shown _ _ Et)|].
    reflexivity.
Qed.

(** X20: the text format as the code writes it: for each file in
    order, the header line [Results for '<path>':], then for each of its
    metrics in order either one line of two spaces, the capitalized key,
    a colon and the integer, or the sub-header of one space, the
    capitalized key and a colon followed by one line per value of the
    stats block, of four spaces, the key, a colon and the value with two
    decimals, which are its hundredths: the integer nearest to a hundred
    times the value, ties to the even one; the lines are joined by
    newlines. *)
Theorem text_output_layout :
  forall results out,
    formatted_output results fmt_text = Ok out ->
    exists file_lines,
      out = join [NL] (List.concat file_lines)
      /\ Forall2 file_block results file_lines.
Proof.
  intros results out H. cbn [formatted_output] in H. unfold format_text in H.
  destruct (mapM _ results) as [file_lines|e] eqn:E; cbn [bind] in H;
    [|discriminate].
  injection H as <-. exists file_lines. split; [reflexivity|].
  apply mapM_Forall2 in E. eapply Forall2_impl; [|exact E].
  intros [f m] ls Hls. cbn [fst snd] in Hls.
  exact (text_file_lines f m ls Hls).
Qed.

Lemma text_output_layout_witness :
  exists file_lines,
    join [NL] [lit "Results for 'text.txt':"; lit "  Lines: 3"; lit "  Words: 5";
               lit "  Chars: 20"; lit " Stats:"; lit "    avg_line_length: 6.67";
               lit "    avg_words_length: 3.20"; lit "    empty_lines: 0.00"]
    = join [NL] (List.concat file_lines)
    /\ Forall2 file_block sample_results file_lines.
Proof.
  apply (text_output_layout sample_results). vm_compute. reflexivity.
Defined.

(** ** Verbosity *)

Lemma head_events : forall f l tail,
  analyzed ((Analyze f :: map Print l) ++ tail) = f :: analyzed tail
  /\ file_events ((Analyze f :: map Print l) ++ tail) = file_events tail.
Proof.
  intros f l tail. rewrite analyzed_app, file_events_app.
  change (analyzed (Analyze f :: map Print l)) with (f :: analyzed (map Print l)).
  change (file_events (Analyze f :: map Print l))
    with (file_events (map Print l)).
  now rewrite analyzed_prints, file_events_prints.
Qed.

(** The loop with another verbosity, when the verbose lines can be
    printed. *)
Lemma analyze_all_verbose : forall os args v files acc,
  (forall f, In f files -> readable os (args_encoding args) f = true ->
             printable os (verbose_line f (args_mode args)) = true) ->
  snd (analyze_all os (with_verbose args v) files acc)
  = snd (analyze_all os args files acc)
  /\ analyzed (fst (analyze_all os (with_verbose args v) files acc))
     = analyzed (fst (analyze_all os args files acc))
  /\ file_events (fst (analyze_all os (with_verbose args v) files acc)) = []
  /\ file_events (fst (analyze_all os args files acc)) = [].
Proof.
  intros os args v. induction files as [|f rest IH]; intros acc Hv;
    [repeat split|].
  assert (Hrest : forall acc',
            snd (analyze_all os (with_verbose args v) rest acc')
            = snd (analyze_all os args rest acc')
            /\ analyzed (fst (analyze_all os (with_verbose args v) rest acc'))
               = analyzed (fst (analyze_all os args rest acc'))
            /\ file_events (fst (analyze_all os (with_verbose args v) rest acc'))
               = []
            /\ file_events (fst (analyze_all os args rest acc')) = []).
  { intros acc'. apply IH. intros g Hg. apply Hv. now right. }
  assert (Hc : forall a,
            args_encoding a = args_encoding args ->
            args_mode a = args_mode args ->
            forallb (printable os) (console_of_file os a f)
            = if readable os (args_encoding args) f then true
              else printable os (diagnostic os f (args_encoding args))).
  { intros a He Hm. unfold console_of_file. rewrite He, Hm.
    destruct (readable os (args_encoding args) f) eqn:Er;
      [|cbn [forallb]; apply andb_true_r].
    destruct (args_verbose a); [|reflexivity]. cbn [forallb].
    rewrite (Hv f) by (now left || exact Er). reflexivity. }
  rewrite !analyze_all_cons.
  rewrite (Hc (with_verbose args v) eq_refl eq_refl), (Hc args eq_refl eq_refl).
  change (readable os (args_encoding (with_verbose args v)) f)
    with (readable os (args_encoding args) f).
  change (effective_encoding (args_encoding (with_verbose args v)))
    with (effective_encoding (args_encoding args)).
  change (args_mode (with_verbose args v)) with (args_mode args).
  assert (Hnil : forall l,
            analyzed (Analyze f :: map Print l) = [f]
            /\ file_events (Analyze f :: map Print l) = []).
  { intros l. destruct (head_events f l []) as [H1 H2].
    now rewrite app_nil_r in H1, H2. }
  assert (Hgo : forall acc' l l',
            snd (analyze_all os (with_verbose args v) rest acc')
            = snd (analyze_all os args rest acc')
            /\ analyzed ((Analyze f :: map Print l)
                           ++ fst (analyze_all os (with_verbose args v) rest acc'))
               = analyzed ((Analyze f :: map Print l')
                             ++ fst (analyze_all os args rest acc'))
            /\ file_events ((Analyze f :: map Print l)
                              ++ fst (analyze_all os (with_verbose args v) rest acc'))
               = []
            /\ file_events ((Analyze f :: map Print l')
                              ++ fst (analyze_all os args rest acc')) = []).
  { intros acc' l l'. destruct (Hrest acc') as (I1 & I2 & I3 & I4).
    rewrite !(proj1 (head_events _ _ _)), !(proj2 (head_events _ _ _)).
    rewrite I2, I3, I4. repeat split. exact I1. }
  destruct (readable os (args_encoding args) f).
  - destruct (read_file os f (effective_encoding (args_encoding args)))
      as [content|e]; [|cbn [fst snd]; apply Hgo].
    destruct (analyze_content (args_mode args) content) as [r|e];
      cbn [fst snd]; [apply Hgo|].
    rewrite !(proj1 (Hnil _)), !(proj2 (Hnil _)). repeat split.
  - destruct (printable os (diagnostic os f (args_encoding args)));
      cbn [fst snd]; [apply Hgo | repeat split].
Qed.

(** A run that ends normally has printed the verbose line of each file
    that it read, if it was verbose. *)
Lemma verbose_run_prints : forall os args,
  snd (main os (with_verbose args true)) = Ok tt ->
  forall f, In f (list_of_set os (resolve os args)) ->
            readable os (args_encoding args) f = true ->
            printable os (verbose_line f (args_mode args)) = true.
Proof.
  intros os args Hok f Hin Hr.
  assert (Hne : list_of_set os (resolve os (with_verbose args true)) <> []).
  { change (resolve os (with_verbose args true)) with (resolve os args).
    intros E. rewrite E in Hin. destruct Hin. }
  destruct (main_spec os (with_verbose args true) Hne Hok)
    as (results & out & Ha & _).
  change (resolve os (with_verbose args true)) with (resolve os args) in Ha.
  destruct (analyze_all_spec _ _ _ _ _ Ha) as (_ & _ & Hp).
  rewrite Forall_forall in Hp. destruct (Hp f Hin) as [Hp' _].
  unfold console_of_file in Hp'.
  change (readable os (args_encoding (with_verbose args true)) f)
    with (readable os (args_encoding args) f) in Hp'.
  rewrite Hr in Hp'. cbn [args_verbose with_verbose forallb] in Hp'.
  now apply andb_true_iff in Hp' as [Hp' _].
Qed.

(** X21: the verbosity changes the console only, when the verbose lines
    of the files that are read can be printed, which is so in
    particular when the verbose run ends normally: with either setting
    the run then ends in the same way, analyses the same files in the
    same order, collects the same results and does the same to the
    output file. *)
Theorem verbosity_changes_the_console_only :
  forall os args,
    (forall f, In f (list_of_set os (resolve os args)) ->
               readable os (args_encoding args) f = true ->
               printable os (verbose_line f (args_mode args)) = true)
    \/ snd (main os (with_verbose args true)) = Ok tt ->
    forall v,
      snd (main os (with_verbose args v)) = snd (main os args)
      /\ analyzed (fst (main os (with_verbose args v)))
         = analyzed (fst (main os args))
      /\ file_events (fst (main os (with_verbose args v)))
         = file_events (fst (main os args))
      /\ snd (analyze_all os (with_verbose args v)
                 (list_of_set os (resolve os args)) [])
         = snd (analyze_all os args (list_of_set os (resolve os args)) []).
Proof.
  intros os args H v.
  assert (Hv : forall f, In f (list_of_set os (resolve os args)) ->
                         readable os (args_encoding args) f = true ->
                         printable os (verbose_line f (args_mode args)) = true).
  { destruct H as [H | H]; [exact H | exact (verbose_run_prints os args H)]. }
  clear H.
  pose proof (analyze_all_verbose os args v (list_of_set os (resolve os args))
                [] Hv) as (I1 & I2 & I3 & I4).
  unfold main.
  change (resolve os (with_verbose args v)) with (resolve os args).
  destruct (list_of_set os (resolve os args)) as [|f0 files];
    [repeat split|].
  unfold io_bind. rewrite I1.
  destruct (snd (analyze_all os args (f0 :: files) [])) as [results|e];
    cbn [fst snd].
  - change (report os (with_verbose args v) results) with (report os args results).
    rewrite !analyzed_app, !file_events_app, I2, I3, I4. repeat split.
  - rewrite I2, I3, I4. repeat split.
Qed.

Lemma verbosity_changes_the_console_only_witness :
  snd (main sample_os (with_verbose verbose_args false)) = Ok tt
  /\ analyzed (fst (main sample_os (with_verbose verbose_args false)))
     = [lit "b.txt"; lit "a.txt"]
  /\ file_events (fst (main sample_os (with_verbose verbose_args false))) = []
  /\ snd (analyze_all sample_os (with_verbose verbose_args false)
             [lit "b.txt"; lit "a.txt"] [])
     = Ok [(lit "a.txt", [(k_lines, Scalar 3); (k_words, Scalar 3)])].
Proof.
  refine (verbosity_changes_the_console_only sample_os verbose_args _ false).
  right. reflexivity.
Defined.
(** ** The count of empty lines in the text format *)

(** X22: in the text format the count of empty lines, an [int], goes
    through the format of the floats: for a content of fewer than
    2^53 - 1 characters it is shown exactly, followed by [.00], on the
    last line of the stats block. *)
Theorem empty_lines_is_shown_with_two_zeros :
  forall content s n ls,
    len content < 2 ^ 53 - 1 ->
    compute_stats content = Ok s ->
    dict_get stat_eqb s empty_lines = Some (IntVal n) ->
    text_metric k_stats (Nested s) = Ok ls ->
    format_number_2f (IntVal n) = Ok (str_of_Z n ++ lit ".00")
    /\ last ls [] = lit "    empty_lines: " ++ str_of_Z n ++ lit ".00".
Proof.
  intros content s n ls Hlen Hs Hn Hls.
  assert (Hshape : exists a w,
            s = [ (avg_line_length, FloatVal a); (avg_words_length, FloatVal w);
                  (empty_lines, IntVal n) ]).
  { unfold compute_stats in Hs.
    destruct (truediv (sum (map len (splitlines content))) _) as [a|e];
      cbn [bind] in Hs; [|discriminate].
    destruct (truediv (sum (map len (split content))) _) as [w|e];
      cbn [bind] in Hs; [|discriminate].
    injection Hs as <-. cbn in Hn. injection Hn as <-. eauto. }
  destruct Hshape as (a & w & Hshape).
  assert (Hb : 0 <= n <= len content + 1).
  { apply (compute_stats_counts content s empty_lines n Hs).
    rewrite Hshape. right. right. now left. }
  assert (Hf : format_number_2f (IntVal n) = Ok (str_of_Z n ++ lit ".00")).
  { cbn [format_number_2f].
    destruct (Z.eq_dec n 0) as [-> | Hn0]; [reflexivity|].
    rewrite of_int_exact by lia. cbn [bind]. f_equal.
    assert (Hl : Z.log2 n < 53) by (apply Z.log2_lt_pow2; lia).
    replace (Z.log2 n - 52) with (- (52 - Z.log2 n)) by lia.
    apply format_f_integer; lia. }
  split; [exact Hf|].
  subst s. cbn [text_metric mapM fst snd format_number_2f bind] in Hls.
  cbn [format_number_2f] in Hf. rewrite Hf in Hls. cbn [bind] in Hls.
  injection Hls as <-. reflexivity.
Qed.

Lemma empty_lines_is_shown_with_two_zeros_witness :
  format_number_2f (IntVal 3) = Ok (lit "3.00")
  /\ last [ lit " Stats:"; lit "    avg_line_length: 1.00";
            lit "    avg_words_length: 0.00"; lit "    empty_lines: 3.00" ] []
     = lit "    empty_lines: 3.00".
Proof.
  apply (empty_lines_is_shown_with_two_zeros blank_content
           [ (avg_line_length, FloatVal (mkFloat false (2 ^ 52) (-52)));
             (avg_words_length, FloatVal zero);
             (empty_lines, IntVal 3) ] 3); reflexivity.
Defined.
